(** * gopengl: the textured, rotating cube demo

    A shallow embedding of the Go program of this repository (the [main]
    package with [main], [newProgram], [compileShader], [newTexture] and the
    [vertices] table) together with the properties its specification states.

    The program is a straight line of calls into GLFW, OpenGL and Go's
    standard library.  Those libraries are not part of the repository: what
    they answer is taken from an environment [Env] (an oracle for the file
    system, the shader compiler, the linker, the image decoder, the clock and
    the window), and every call the program makes is appended to a trace kept
    in the [World].  Go's [panic] is an outcome of its own; Go's [error]
    values are ordinary results. *)

From Stdlib Require Import ZArith QArith String Ascii List Lia Bool.
From Stdlib Require Import Floats.SpecFloat.
From stdpp Require Import base option list gmap sets strings.

Local Open Scope string_scope.
Local Open Scope list_scope.
Local Open Scope Z_scope.

(** ** Go's fixed-width integers *)

Module GoInt.

(** Conversion to [uint32]: the low 32 bits. *)
Definition to_uint32 (x : Z) : Z := x mod 2 ^ 32.

(** Conversion to [int32]: the low 32 bits, read in two's complement. *)
Definition to_int32 (x : Z) : Z := (x + 2 ^ 31) mod 2 ^ 32 - 2 ^ 31.

(** [a + b] on [int32] operands. *)
Definition add_int32 (a b : Z) : Z := to_int32 (a + b).

Definition is_int32 (x : Z) : Prop := - 2 ^ 31 <= x < 2 ^ 31.

Lemma to_int32_id x : is_int32 x -> to_int32 x = x.
Proof.
  unfold is_int32, to_int32. intros H.
  rewrite Z.mod_small by lia. lia.
Qed.

Lemma to_uint32_neg x : - 2 ^ 32 <= x < 0 -> to_uint32 x = x + 2 ^ 32.
Proof.
  unfold to_uint32. intros H.
  symmetry. apply (Z.mod_unique x (2 ^ 32) (-1)); lia.
Qed.

End GoInt.

(** ** Go strings *)

Module GoString.

(** The byte 0, written ["\x00"] in the source. *)
Definition NUL : ascii := "000"%char.

Fixpoint repeat_char (c : ascii) (n : nat) : string :=
  match n with
  | O => EmptyString
  | S n' => String c (repeat_char c n')
  end.

Fixpoint take (n : nat) (s : string) : string :=
  match n, s with
  | S n', String c s' => String c (take n' s')
  | _, _ => EmptyString
  end.

Fixpoint drop (n : nat) (s : string) : string :=
  match n, s with
  | S n', String _ s' => drop n' s'
  | _, _ => s
  end.


Lemma app_cons c a b : String c a +:+ b = String c (a +:+ b).
Proof. reflexivity. Qed.

Lemma app_nil_l b : EmptyString +:+ b = b.
Proof. reflexivity. Qed.

Lemma app_nil_r a : a +:+ EmptyString = a.
Proof. induction a as [|c a IH]; [reflexivity|]. now rewrite app_cons, IH. Qed.

Lemma length_app a b :
  String.length (a +:+ b) = (String.length a + String.length b)%nat.
Proof.
  induction a as [|c a IH]; [reflexivity|].
  rewrite app_cons. simpl. now rewrite IH.
Qed.


Lemma take_all s : take (String.length s) s = s.
Proof. induction s as [|c s IH]; simpl; [reflexivity|]. now rewrite IH. Qed.

Lemma length_take n s : String.length (take n s) = Nat.min n (String.length s).
Proof.
  revert s. induction n as [|n IH]; intros [|c s]; simpl; try reflexivity.
  now rewrite IH.
Qed.

Lemma drop_repeat c n k : drop k (repeat_char c n) = repeat_char c (n - k).
Proof.
  revert k. induction n as [|n IH]; intros [|k]; simpl; try reflexivity.
  apply IH.
Qed.

Lemma app_assoc a b c : (a +:+ b) +:+ c = a +:+ (b +:+ c).
Proof.
  induction a as [|x a IH]; [reflexivity|].
  now rewrite !app_cons, IH.
Qed.




End GoString.

(** ** Values of the libraries the program calls *)

(** Go's [error] values carry a message. *)
Definition error : Type := string.

(** [float64] and [float32] are IEEE 754 binary floating-point numbers, here
    the specification floats of the standard library with the precision and
    exponent range of the two formats. *)
Module Float.

Definition float64 : Type := spec_float.
Definition float32 : Type := spec_float.

Definition prec64 : Z := 53.
Definition emax64 : Z := 1024.
Definition prec32 : Z := 24.
Definition emax32 : Z := 128.

(** [a - b] on [float64]. *)
Definition sub64 (a b : float64) : float64 := SFsub prec64 emax64 a b.

(** [a <= b] on [float64] and on [float32]: false when either is a NaN. *)
Definition le64 (a b : float64) : bool := SFleb a b.
Definition le32 (a b : float32) : bool := SFleb a b.

(** The conversion [float32(x)] of a [float64]: rounding to the nearest
    binary32 value, ties to even; zeros, infinities and NaN are kept. *)
Definition to_float32 (x : float64) : float32 :=
  match x with
  | S754_finite s m e =>
      binary_normalize prec32 emax32 (cond_Zopp s (Zpos m)) e s
  | _ => x
  end.

(** A finite, well-formed [float64]. *)
Definition finite64 (x : float64) : Prop :=
  valid_binary prec64 emax64 x = true /\
  match x with
  | S754_zero _ | S754_finite _ _ _ => True
  | _ => False
  end.

End Float.

(** 4x4 matrices of [mgl32], kept as the expression that builds them. *)
Inductive Mat4 : Type :=
| LookAt (eyeX eyeY eyeZ centerX centerY centerZ upX upY upZ : Q)
| Perspective (fovy_degrees aspect near far : Q)
| HomogRotate3DZ (angle : Float.float32).

(** Package [image]. *)
Record Point : Type := { X : Z; Y : Z }.
Record Rectangle : Type := { Min : Point; Max : Point }.

Definition Rectangle_Size (r : Rectangle) : Point :=
  {| X := X (Max r) - X (Min r); Y := Y (Max r) - Y (Min r) |}.

(** A decoded image: its bounds and its pixels, four bytes for each. *)
Record Image : Type := { Bounds : Rectangle; At : Z -> Z -> list Z }.

Record RGBA : Type := { Pix : list Z; Stride : Z; Rect : Rectangle }.

(** ** The calls the program makes, in the order it makes them *)

Module Trace.

Inductive Call : Type :=
| glfw_Init
| glfw_Terminate
| glfw_WindowHint (hint value : Z)
| glfw_CreateWindow (width height : Z) (title : string)
| MakeContextCurrent
| gl_Init
| ReadFile (file : string)
| CreateShader (kind shader : Z)
| ShaderSource (shader : Z) (source : string)
| CompileShader (shader : Z)
| GetShaderiv (shader pname result : Z)
| GetShaderInfoLog (shader bufSize : Z)
| CreateProgram (program : Z)
| AttachShader (program shader : Z)
| LinkProgram (program : Z)
| GetProgramiv (program pname result : Z)
| GetProgramInfoLog (program bufSize : Z)
| DeleteShader (shader : Z)
| UseProgram (program : Z)
| GenVertexArrays (vao : Z)
| BindVertexArray (vao : Z)
| GenBuffers (vbo : Z)
| BindBuffer (target vbo : Z)
| BufferData (target size : Z) (data : list Q) (usage : Z)
| GetAttribLocation (program : Z) (name : string) (result : Z)
| VertexAttribPointer (index size type : Z) (normalized : bool) (stride offset : Z)
| EnableVertexAttribArray (index : Z)
| os_Open (file : string)
| image_Decode (file : string)
| GenTextures (texture : Z)
| ActiveTexture (unit : Z)
| BindTexture (target texture : Z)
| TexParameteri (target pname param : Z)
| TexImage2D (target level internalformat width height border format type : Z)
  (pixels : list Z)
| GetUniformLocation (program : Z) (name : string) (result : Z)
| UniformMatrix4fv (location count : Z) (transpose : bool) (value : Mat4)
| GetTime (result : Float.float64)
| Enable (cap : Z)
| ClearColor (r g b a : Q)
| ShouldClose (result : bool)
| Clear (mask : Z)
| DrawArrays (mode first count : Z)
| SwapBuffers
| PollEvents.

End Trace.
Import Trace.

(** ** The world outside the program *)

Record ShaderObj : Type := {
  sh_kind : Z;
  sh_source : string;
  sh_compiled : bool;
  sh_flagged : bool      (* DeleteShader was called while it was attached *)
}.

Record ProgramObj : Type := {
  pr_attached : list Z;
  pr_linked : bool
}.

Record VertexAttrib : Type := {
  va_size : Z;
  va_type : Z;
  va_normalized : bool;
  va_stride : Z;
  va_offset : Z;
  va_enabled : bool
}.

(** What the libraries answer.  Nothing here is decided by the program. *)
Record Env : Type := {
  glfw_init_err : option error;
  create_window_err : option error;
  gl_init_err : option error;
  (* ioutil.ReadFile: the content of the file, or the error *)
  read_file : string -> string + error;
  (* the shader compiler: status and information log, by kind and source *)
  compile_status : Z -> string -> bool;
  shader_info_log : Z -> string -> string;
  (* the linker, given the (kind, source) of the attached shaders *)
  link_status : list (Z * string) -> bool;
  program_info_log : list (Z * string) -> string;
  (* locations in the program in use; -1 when the name is not active *)
  attrib_location : string -> Z;
  uniform_location : string -> Z;
  max_vertex_attribs : Z;
  (* os.Open and image.Decode, by file name *)
  open_err : string -> option error;
  decode : string -> Image + error;
  (* image.NewRGBA and draw.Draw with draw.Src *)
  NewRGBA : Rectangle -> RGBA;
  Draw_Src : RGBA -> Image -> list Z;
  (* glfw.GetTime, by the number of earlier readings *)
  clock : nat -> Float.float64;
  (* window.ShouldClose, by the number of event polls so far *)
  should_close : nat -> bool
}.

Record World : Type := {
  trace : list Call;
  fresh : Z;                         (* the next unused object name *)
  shaders : gmap Z ShaderObj;
  programs : gmap Z ProgramObj;
  attribs : gmap Z VertexAttrib;
  uniforms : gmap Z Mat4;
  gl_errors : list Z;
  time_reads : nat;
  polls : nat
}.

Definition init_world : World :=
  {| trace := []; fresh := 1; shaders := ∅; programs := ∅; attribs := ∅;
     uniforms := ∅; gl_errors := []; time_reads := 0; polls := 0 |}.

Definition emit (c : Call) (w : World) : World :=
  {| trace := trace w ++ [c]; fresh := fresh w; shaders := shaders w;
     programs := programs w; attribs := attribs w; uniforms := uniforms w;
     gl_errors := gl_errors w; time_reads := time_reads w; polls := polls w |}.

Definition take_name (w : World) : World :=
  {| trace := trace w; fresh := fresh w + 1; shaders := shaders w;
     programs := programs w; attribs := attribs w; uniforms := uniforms w;
     gl_errors := gl_errors w; time_reads := time_reads w; polls := polls w |}.

Definition set_shaders (m : gmap Z ShaderObj) (w : World) : World :=
  {| trace := trace w; fresh := fresh w; shaders := m;
     programs := programs w; attribs := attribs w; uniforms := uniforms w;
     gl_errors := gl_errors w; time_reads := time_reads w; polls := polls w |}.

Definition set_programs (m : gmap Z ProgramObj) (w : World) : World :=
  {| trace := trace w; fresh := fresh w; shaders := shaders w;
     programs := m; attribs := attribs w; uniforms := uniforms w;
     gl_errors := gl_errors w; time_reads := time_reads w; polls := polls w |}.

Definition set_attribs (m : gmap Z VertexAttrib) (w : World) : World :=
  {| trace := trace w; fresh := fresh w; shaders := shaders w;
     programs := programs w; attribs := m; uniforms := uniforms w;
     gl_errors := gl_errors w; time_reads := time_reads w; polls := polls w |}.

Definition set_uniforms (m : gmap Z Mat4) (w : World) : World :=
  {| trace := trace w; fresh := fresh w; shaders := shaders w;
     programs := programs w; attribs := attribs w; uniforms := m;
     gl_errors := gl_errors w; time_reads := time_reads w; polls := polls w |}.

Definition raise_gl_error (code : Z) (w : World) : World :=
  {| trace := trace w; fresh := fresh w; shaders := shaders w;
     programs := programs w; attribs := attribs w; uniforms := uniforms w;
     gl_errors := gl_errors w ++ [code]; time_reads := time_reads w;
     polls := polls w |}.

Definition tick (w : World) : World :=
  {| trace := trace w; fresh := fresh w; shaders := shaders w;
     programs := programs w; attribs := attribs w; uniforms := uniforms w;
     gl_errors := gl_errors w; time_reads := S (time_reads w);
     polls := polls w |}.

Definition polled (w : World) : World :=
  {| trace := trace w; fresh := fresh w; shaders := shaders w;
     programs := programs w; attribs := attribs w; uniforms := uniforms w;
     gl_errors := gl_errors w; time_reads := time_reads w;
     polls := S (polls w) |}.

(** ** Running the program: results, panics, and loops that do not end *)

Inductive PanicValue : Type :=
| PanicError (e : error)          (* panic(err) *)
| NilDereference                  (* a method called on a nil interface *)
| NegativeRepeat.                 (* strings.Repeat with a negative count *)

Inductive Result (A : Type) : Type :=
| Ok (a : A) (w : World)
| Panic (p : PanicValue) (w : World)
| Running (w : World).            (* the bound on loop iterations was reached *)
Arguments Ok {A} a w.
Arguments Panic {A} p w.
Arguments Running {A} w.

Definition IO (A : Type) : Type := World -> Result A.

#[global] Instance IO_ret : MRet IO := fun A a w => Ok a w.

#[global] Instance IO_bind : MBind IO := fun A B f m w =>
  match m w with
  | Ok a w' => f a w'
  | Panic p w' => Panic p w'
  | Running w' => Running w'
  end.

Definition panic {A : Type} (p : PanicValue) : IO A := fun w => Panic p w.

(** A side effect on the world that returns nothing. *)
Definition effect (f : World -> World) : IO unit := fun w => Ok tt (f w).

Definition world_of {A : Type} (r : Result A) : World :=
  match r with
  | Ok _ w | Panic _ w | Running w => w
  end.


(** [defer f; body]: [f] runs when [body] returns and when it panics. *)
Definition defer {A : Type} (f : World -> World) (body : IO A) : IO A :=
  fun w =>
    match body w with
    | Ok a w' => Ok a (f w')
    | Panic p w' => Panic p (f w')
    | Running w' => Running w'
    end.

(** [for !cond { body }], cut off after [fuel] iterations. *)
Fixpoint for_not (fuel : nat) (cond : IO bool) (body : IO unit) : IO unit :=
  match fuel with
  | O => fun w => Running w
  | S fuel' =>
      c ← cond;
      if c : bool then mret tt
      else body ;; for_not fuel' cond body
  end.

(** ** The libraries: Go's standard packages, OpenGL and GLFW

    Each operation records its call and answers from the environment.  The
    names are those of the packages the source imports. *)

Module fmt.

(** [fmt.Errorf(format, args...)] for formats whose only verb is [%v] and
    whose arguments are strings: each [%v] is replaced by the next
    argument. *)
Fixpoint Sprintf (format : string) (args : list string) : string :=
  match format with
  | String "%" (String "v" rest) =>
      match args with
      | a :: args' => a +:+ Sprintf rest args'
      | [] => "%!v(MISSING)" +:+ Sprintf rest []
      end
  | String c rest => String c (Sprintf rest args)
  | EmptyString => EmptyString
  end.

Definition Errorf (format : string) (args : list string) : error :=
  Sprintf format args.

End fmt.

Module strings.

(** [strings.Repeat(s, count)]; it panics when [count] is negative. *)
Definition Repeat (s : string) (count : Z) : IO string :=
  if count <? 0 then panic NegativeRepeat
  else mret (Nat.iter (Z.to_nat count) (fun acc => s +:+ acc) EmptyString).

End strings.

Module ioutil.

Definition ReadFile (env : Env) (file : string) : IO (string * option error) :=
  fun w =>
    match read_file env file with
    | inl bytes => Ok (bytes, None) (emit (Trace.ReadFile file) w)
    | inr e => Ok (EmptyString, Some e) (emit (Trace.ReadFile file) w)
    end.

End ioutil.

Module os.

(** The open file is known by its name. *)
Definition Open (env : Env) (file : string) : IO (string * option error) :=
  fun w => Ok (file, open_err env file) (emit (os_Open file) w).

End os.

Module image.

(** [image.Decode]: the image, the name of its format and the error.  The
    image is nil when decoding fails. *)
Definition Decode (env : Env) (imgFile : string)
  : IO (option Image * string * option error) :=
  fun w =>
    match decode env imgFile with
    | inl img => Ok (Some img, "png", None) (emit (image_Decode imgFile) w)
    | inr e => Ok (None, EmptyString, Some e) (emit (image_Decode imgFile) w)
    end.

(** [img.Bounds()] on an [image.Image] interface value. *)
Definition Bounds (img : option Image) : IO Rectangle :=
  match img with
  | Some i => mret (Bounds i)
  | None => panic NilDereference
  end.

Definition NewRGBA (env : Env) (r : Rectangle) : RGBA := NewRGBA env r.

Definition ZP : Point := {| X := 0; Y := 0 |}.

End image.

Module draw.

(** [draw.Draw(dst, dst.Bounds(), src, image.ZP, draw.Src)]: the pixels of
    [dst] are replaced. *)
Definition Draw (env : Env) (dst : RGBA) (src : option Image) : IO RGBA :=
  match src with
  | Some i =>
      mret {| Pix := Draw_Src env dst i; Stride := Stride dst; Rect := Rect dst |}
  | None => panic NilDereference
  end.

End draw.

Module gl.

(** The constants of the binding that the program names. *)
Definition FALSE : Z := 0.
Definition TRUE : Z := 1.
Definition TRIANGLES : Z := 0x0004.
Definition DEPTH_BUFFER_BIT : Z := 0x00000100.
Definition COLOR_BUFFER_BIT : Z := 0x00004000.
Definition INVALID_VALUE : Z := 0x0501.
Definition DEPTH_TEST : Z := 0x0B71.
Definition TEXTURE_2D : Z := 0x0DE1.
Definition UNSIGNED_BYTE : Z := 0x1401.
Definition FLOAT : Z := 0x1406.
Definition RGBA : Z := 0x1908.
Definition LINEAR : Z := 0x2601.
Definition TEXTURE_MAG_FILTER : Z := 0x2800.
Definition TEXTURE_MIN_FILTER : Z := 0x2801.
Definition TEXTURE0 : Z := 0x84C0.
Definition ARRAY_BUFFER : Z := 0x8892.
Definition STATIC_DRAW : Z := 0x88E4.
Definition FRAGMENT_SHADER : Z := 0x8B30.
Definition VERTEX_SHADER : Z := 0x8B31.
Definition COMPILE_STATUS : Z := 0x8B81.
Definition LINK_STATUS : Z := 0x8B82.
Definition INFO_LOG_LENGTH : Z := 0x8B84.

(** [gl.Str(s)]: the address of a Go string that ends in a zero byte.  The
    model passes the string itself. *)
Definition Str (s : string) : string := s.

(** What a C function reads from such an address: the bytes before the
    first zero byte. *)
Fixpoint c_string (s : string) : string :=
  match s with
  | EmptyString => EmptyString
  | String c rest =>
      if Ascii.eqb c GoString.NUL then EmptyString else String c (c_string rest)
  end.

Definition PtrOffset (offset : Z) : Z := offset.

Definition Init (env : Env) : IO (option error) :=
  fun w => Ok (gl_init_err env) (emit gl_Init w).

(** *** Shader and program objects *)

Definition CreateShader (kind : Z) : IO Z :=
  fun w =>
    let shader := fresh w in
    let obj := {| sh_kind := kind; sh_source := EmptyString;
                  sh_compiled := false; sh_flagged := false |} in
    Ok shader
       (emit (Trace.CreateShader kind shader)
          (set_shaders (<[shader := obj]> (shaders w)) (take_name w))).

Definition ShaderSource (shader : Z) (csource : string) : IO unit :=
  effect (fun w =>
    let store o := {| sh_kind := sh_kind o; sh_source := c_string csource;
                      sh_compiled := sh_compiled o;
                      sh_flagged := sh_flagged o |} in
    emit (Trace.ShaderSource shader (c_string csource))
      (set_shaders (alter store shader (shaders w)) w)).

Definition CompileShader (env : Env) (shader : Z) : IO unit :=
  effect (fun w =>
    let compile o :=
      {| sh_kind := sh_kind o; sh_source := sh_source o;
         sh_compiled := compile_status env (sh_kind o) (sh_source o);
         sh_flagged := sh_flagged o |} in
    emit (Trace.CompileShader shader)
      (set_shaders (alter compile shader (shaders w)) w)).

(** [INFO_LOG_LENGTH]: the length of the log with its terminating zero
    byte, and 0 when there is no log. *)
Definition info_log_length (log : string) : Z :=
  match log with
  | EmptyString => 0
  | _ => GoInt.to_int32 (Z.of_nat (String.length log) + 1)
  end.

(** [GetShaderInfoLog] and [GetProgramInfoLog] write at most [bufSize]
    bytes at the address they are given, the last of them a zero byte. *)
Definition write_info_log (log : string) (bufSize : Z) (buf : string) : string :=
  if bufSize <=? 0 then buf
  else
    let n := Nat.min (String.length log) (Z.to_nat (bufSize - 1)) in
    GoString.take n log +:+ String GoString.NUL (GoString.drop (S n) buf).

Definition GetShaderiv (env : Env) (shader pname : Z) : IO Z :=
  fun w =>
    let result :=
      match shaders w !! shader with
      | Some o =>
          if pname =? COMPILE_STATUS then
            if sh_compiled o then TRUE else FALSE
          else if pname =? INFO_LOG_LENGTH then
            info_log_length (shader_info_log env (sh_kind o) (sh_source o))
          else 0
      | None => 0
      end in
    Ok result (emit (Trace.GetShaderiv shader pname result) w).

Definition GetShaderInfoLog (env : Env) (shader bufSize : Z) (infoLog : string)
  : IO string :=
  fun w =>
    let written :=
      match shaders w !! shader with
      | Some o =>
          write_info_log (shader_info_log env (sh_kind o) (sh_source o))
            bufSize infoLog
      | None => infoLog
      end in
    Ok written (emit (Trace.GetShaderInfoLog shader bufSize) w).

Definition CreateProgram : IO Z :=
  fun w =>
    let program := fresh w in
    let obj := {| pr_attached := []; pr_linked := false |} in
    Ok program
       (emit (Trace.CreateProgram program)
          (set_programs (<[program := obj]> (programs w)) (take_name w))).

Definition AttachShader (program shader : Z) : IO unit :=
  effect (fun w =>
    let attach o := {| pr_attached := pr_attached o ++ [shader];
                       pr_linked := pr_linked o |} in
    emit (Trace.AttachShader program shader)
      (set_programs (alter attach program (programs w)) w)).

(** The kind and source of the shaders attached to a program. *)
Definition attached_sources (w : World) (o : ProgramObj) : list (Z * string) :=
  omap (fun s => (fun so => (sh_kind so, sh_source so)) <$> shaders w !! s)
       (pr_attached o).

Definition LinkProgram (env : Env) (program : Z) : IO unit :=
  effect (fun w =>
    let link o := {| pr_attached := pr_attached o;
                     pr_linked := link_status env (attached_sources w o) |} in
    emit (Trace.LinkProgram program)
      (set_programs (alter link program (programs w)) w)).

Definition GetProgramiv (env : Env) (program pname : Z) : IO Z :=
  fun w =>
    let result :=
      match programs w !! program with
      | Some o =>
          if pname =? LINK_STATUS then
            if pr_linked o then TRUE else FALSE
          else if pname =? INFO_LOG_LENGTH then
            info_log_length (program_info_log env (attached_sources w o))
          else 0
      | None => 0
      end in
    Ok result (emit (Trace.GetProgramiv program pname result) w).

Definition GetProgramInfoLog (env : Env) (program bufSize : Z) (infoLog : string)
  : IO string :=
  fun w =>
    let written :=
      match programs w !! program with
      | Some o =>
          write_info_log (program_info_log env (attached_sources w o))
            bufSize infoLog
      | None => infoLog
      end in
    Ok written (emit (Trace.GetProgramInfoLog program bufSize) w).

(** [shader] is attached to some program object. *)
Definition is_attached (w : World) (shader : Z) : bool :=
  bool_decide (map_Exists (fun _ o => shader ∈ pr_attached o) (programs w)).

(** A shader that is attached to a program is flagged for deletion and
    kept; any other shader is deleted at once. *)
Definition DeleteShader (shader : Z) : IO unit :=
  effect (fun w =>
    let flag o := {| sh_kind := sh_kind o; sh_source := sh_source o;
                     sh_compiled := sh_compiled o; sh_flagged := true |} in
    emit (Trace.DeleteShader shader)
      (set_shaders
         (if is_attached w shader then alter flag shader (shaders w)
          else delete shader (shaders w))
         w)).

Definition UseProgram (program : Z) : IO unit :=
  effect (emit (Trace.UseProgram program)).

(** *** Vertex arrays, buffers and attributes *)

Definition GenVertexArrays : IO Z :=
  fun w => Ok (fresh w) (emit (Trace.GenVertexArrays (fresh w)) (take_name w)).

Definition BindVertexArray (array : Z) : IO unit :=
  effect (emit (Trace.BindVertexArray array)).

Definition GenBuffers : IO Z :=
  fun w => Ok (fresh w) (emit (Trace.GenBuffers (fresh w)) (take_name w)).

Definition BindBuffer (target buffer : Z) : IO unit :=
  effect (emit (Trace.BindBuffer target buffer)).

Definition BufferData (target size : Z) (data : list Q) (usage : Z) : IO unit :=
  effect (emit (Trace.BufferData target size data usage)).

Definition GetAttribLocation (env : Env) (program : Z) (name : string) : IO Z :=
  fun w =>
    let result := attrib_location env (c_string name) in
    Ok result (emit (Trace.GetAttribLocation program (c_string name) result) w).

(** An index that is not below [MAX_VERTEX_ATTRIBS] raises
    [INVALID_VALUE] and the command is ignored. *)
Definition VertexAttribPointer (env : Env) (index size type : Z)
    (normalized : bool) (stride offset : Z) : IO unit :=
  effect (fun w =>
    let enabled :=
      match attribs w !! index with
      | Some a => va_enabled a
      | None => false
      end in
    let a := {| va_size := size; va_type := type;
                va_normalized := normalized; va_stride := stride;
                va_offset := offset; va_enabled := enabled |} in
    emit (Trace.VertexAttribPointer index size type normalized stride offset)
      (if index <? max_vertex_attribs env
       then set_attribs (<[index := a]> (attribs w)) w
       else raise_gl_error INVALID_VALUE w)).

Definition EnableVertexAttribArray (env : Env) (index : Z) : IO unit :=
  effect (fun w =>
    let a :=
      match attribs w !! index with
      | Some a =>
          {| va_size := va_size a; va_type := va_type a;
             va_normalized := va_normalized a; va_stride := va_stride a;
             va_offset := va_offset a; va_enabled := true |}
      | None =>
          {| va_size := 4; va_type := FLOAT; va_normalized := false;
             va_stride := 0; va_offset := 0; va_enabled := true |}
      end in
    emit (Trace.EnableVertexAttribArray index)
      (if index <? max_vertex_attribs env
       then set_attribs (<[index := a]> (attribs w)) w
       else raise_gl_error INVALID_VALUE w)).

(** *** Uniforms *)

Definition GetUniformLocation (env : Env) (program : Z) (name : string) : IO Z :=
  fun w =>
    let result := uniform_location env (c_string name) in
    Ok result (emit (Trace.GetUniformLocation program (c_string name) result) w).

(** A write to location -1 is silently ignored. *)
Definition UniformMatrix4fv (location count : Z) (transpose : bool)
    (value : Mat4) : IO unit :=
  effect (fun w =>
    emit (Trace.UniformMatrix4fv location count transpose value)
      (set_uniforms
         (if location =? -1 then uniforms w
          else <[location := value]> (uniforms w))
         w)).

(** *** Textures *)

Definition GenTextures : IO Z :=
  fun w => Ok (fresh w) (emit (Trace.GenTextures (fresh w)) (take_name w)).

Definition ActiveTexture (texture : Z) : IO unit :=
  effect (emit (Trace.ActiveTexture texture)).

Definition BindTexture (target texture : Z) : IO unit :=
  effect (emit (Trace.BindTexture target texture)).

Definition TexParameteri (target pname param : Z) : IO unit :=
  effect (emit (Trace.TexParameteri target pname param)).

Definition TexImage2D (target level internalformat width height border
    format type : Z) (pixels : list Z) : IO unit :=
  effect (emit (Trace.TexImage2D target level internalformat width height
                  border format type pixels)).

(** *** Drawing *)

Definition Enable (cap : Z) : IO unit := effect (emit (Trace.Enable cap)).

Definition ClearColor (r g b a : Q) : IO unit :=
  effect (emit (Trace.ClearColor r g b a)).

Definition Clear (mask : Z) : IO unit := effect (emit (Trace.Clear mask)).

Definition DrawArrays (mode first count : Z) : IO unit :=
  effect (emit (Trace.DrawArrays mode first count)).

End gl.

Module glfw.

Definition True : Z := 1.
Definition ContextVersionMajor : Z := 0x00022002.
Definition ContextVersionMinor : Z := 0x00022003.
Definition OpenGLForwardCompatible : Z := 0x00022006.
Definition OpenGLProfile : Z := 0x00022008.
Definition OpenGLCoreProfile : Z := 0x00032001.

Definition Init (env : Env) : IO (option error) :=
  fun w => Ok (glfw_init_err env) (emit glfw_Init w).

Definition Terminate : World -> World := emit glfw_Terminate.

Definition WindowHint (hint value : Z) : IO unit :=
  effect (emit (glfw_WindowHint hint value)).

(** The program opens one window; the model does not name it. *)
Definition CreateWindow (env : Env) (width height : Z) (title : string)
  : IO (unit * option error) :=
  fun w =>
    Ok (tt, create_window_err env) (emit (glfw_CreateWindow width height title) w).

Definition GetTime (env : Env) : IO Float.float64 :=
  fun w =>
    let t := clock env (time_reads w) in
    Ok t (emit (Trace.GetTime t) (tick w)).

Definition PollEvents : IO unit :=
  effect (fun w => emit Trace.PollEvents (polled w)).

End glfw.

Module window.

Definition MakeContextCurrent (window : unit) : IO unit :=
  effect (emit Trace.MakeContextCurrent).

Definition ShouldClose (env : Env) (window : unit) : IO bool :=
  fun w =>
    let c := should_close env (polls w) in
    Ok c (emit (Trace.ShouldClose c) w).

Definition SwapBuffers (window : unit) : IO unit :=
  effect (emit Trace.SwapBuffers).

End window.

(** ** The program *)

(** The vertex table: eight [float32] for each vertex (position, colour,
    texture coordinate).  Every literal is a dyadic rational, which
    [float32] holds exactly. *)
Definition vertices : list Q := [
  -0.5; -0.5; -0.5; 1.0; 1.0; 1.0; 0.0; 0.0;
  0.5; -0.5; -0.5; 1.0; 1.0; 1.0; 1.0; 0.0;
  0.5; 0.5; -0.5; 1.0; 1.0; 1.0; 1.0; 1.0;
  0.5; 0.5; -0.5; 1.0; 1.0; 1.0; 1.0; 1.0;
  -0.5; 0.5; -0.5; 1.0; 1.0; 1.0; 0.0; 1.0;
  -0.5; -0.5; -0.5; 1.0; 1.0; 1.0; 0.0; 0.0;

  -0.5; -0.5; 0.5; 1.0; 1.0; 1.0; 0.0; 0.0;
  0.5; -0.5; 0.5; 1.0; 1.0; 1.0; 1.0; 0.0;
  0.5; 0.5; 0.5; 1.0; 1.0; 1.0; 1.0; 1.0;
  0.5; 0.5; 0.5; 1.0; 1.0; 1.0; 1.0; 1.0;
  -0.5; 0.5; 0.5; 1.0; 1.0; 1.0; 0.0; 1.0;
  -0.5; -0.5; 0.5; 1.0; 1.0; 1.0; 0.0; 0.0;

  -0.5; 0.5; 0.5; 1.0; 1.0; 1.0; 1.0; 0.0;
  -0.5; 0.5; -0.5; 1.0; 1.0; 1.0; 1.0; 1.0;
  -0.5; -0.5; -0.5; 1.0; 1.0; 1.0; 0.0; 1.0;
  -0.5; -0.5; -0.5; 1.0; 1.0; 1.0; 0.0; 1.0;
  -0.5; -0.5; 0.5; 1.0; 1.0; 1.0; 0.0; 0.0;
  -0.5; 0.5; 0.5; 1.0; 1.0; 1.0; 1.0; 0.0;

  0.5; 0.5; 0.5; 1.0; 1.0; 1.0; 1.0; 0.0;
  0.5; 0.5; -0.5; 1.0; 1.0; 1.0; 1.0; 1.0;
  0.5; -0.5; -0.5; 1.0; 1.0; 1.0; 0.0; 1.0;
  0.5; -0.5; -0.5; 1.0; 1.0; 1.0; 0.0; 1.0;
  0.5; -0.5; 0.5; 1.0; 1.0; 1.0; 0.0; 0.0;
  0.5; 0.5; 0.5; 1.0; 1.0; 1.0; 1.0; 0.0;

  -0.5; -0.5; -0.5; 1.0; 1.0; 1.0; 0.0; 1.0;
  0.5; -0.5; -0.5; 1.0; 1.0; 1.0; 1.0; 1.0;
  0.5; -0.5; 0.5; 1.0; 1.0; 1.0; 1.0; 0.0;
  0.5; -0.5; 0.5; 1.0; 1.0; 1.0; 1.0; 0.0;
  -0.5; -0.5; 0.5; 1.0; 1.0; 1.0; 0.0; 0.0;
  -0.5; -0.5; -0.5; 1.0; 1.0; 1.0; 0.0; 1.0;

  -0.5; 0.5; -0.5; 1.0; 1.0; 1.0; 0.0; 1.0;
  0.5; 0.5; -0.5; 1.0; 1.0; 1.0; 1.0; 1.0;
  0.5; 0.5; 0.5; 1.0; 1.0; 1.0; 1.0; 0.0;
  0.5; 0.5; 0.5; 1.0; 1.0; 1.0; 1.0; 0.0;
  -0.5; 0.5; 0.5; 1.0; 1.0; 1.0; 0.0; 0.0;
  -0.5; 0.5; -0.5; 1.0; 1.0; 1.0; 0.0; 1.0;

  -1.0; -1.0; -0.5; 0.0; 0.0; 0.0; 0.0; 0.0;
  1.0; -1.0; -0.5; 0.0; 0.0; 0.0; 1.0; 0.0;
  1.0; 1.0; -0.5; 0.0; 0.0; 0.0; 1.0; 1.0;
  1.0; 1.0; -0.5; 0.0; 0.0; 0.0; 1.0; 1.0;
  -1.0; 1.0; -0.5; 0.0; 0.0; 0.0; 0.0; 1.0;
  -1.0; -1.0; -0.5; 0.0; 0.0; 0.0; 0.0; 0.0
]%Q.

Section Program.

Variable env : Env.

Definition compileShader (sourceFile : string) (shaderType : Z)
  : IO (Z * option error) :=
  (* read shader source from file *)
  '(sourceBytes, err) ← ioutil.ReadFile env sourceFile;
  match err with
  | Some e => mret (0, Some e)
  | None =>
      (* allow use as a C string *)
      let csource := gl.Str (sourceBytes +:+ String GoString.NUL EmptyString) in
      (* load into OpenGL *)
      shader ← gl.CreateShader shaderType;
      gl.ShaderSource shader csource;;
      gl.CompileShader env shader;;
      (* error handling *)
      status ← gl.GetShaderiv env shader gl.COMPILE_STATUS;
      if status =? gl.FALSE then
        logLength ← gl.GetShaderiv env shader gl.INFO_LOG_LENGTH;
        log ← strings.Repeat (String GoString.NUL EmptyString)
                (GoInt.add_int32 logLength 1);
        log ← gl.GetShaderInfoLog env shader logLength (gl.Str log);
        mret (0, Some (fmt.Errorf "failed to compile %v: %v" [sourceFile; log]))
      else
        mret (shader, None)
  end.

Definition newProgram (vertexShaderFile fragmentShaderFile : string)
  : IO (Z * option error) :=
  (* create shaders *)
  '(vertexShader, err) ← compileShader vertexShaderFile gl.VERTEX_SHADER;
  match err with
  | Some e => mret (0, Some e)
  | None =>
      '(fragmentShader, err) ← compileShader fragmentShaderFile gl.FRAGMENT_SHADER;
      match err with
      | Some e => mret (0, Some e)
      | None =>
          (* link shaders into program *)
          program ← gl.CreateProgram;
          gl.AttachShader program vertexShader;;
          gl.AttachShader program fragmentShader;;
          gl.LinkProgram env program;;
          (* error handling *)
          status ← gl.GetProgramiv env program gl.LINK_STATUS;
          if status =? gl.FALSE then
            logLength ← gl.GetProgramiv env program gl.INFO_LOG_LENGTH;
            log ← strings.Repeat (String GoString.NUL EmptyString)
                    (GoInt.add_int32 logLength 1);
            log ← gl.GetProgramInfoLog env program logLength (gl.Str log);
            mret (0, Some (fmt.Errorf "failed to link program: %v" [log]))
          else
            (* clean up *)
            gl.DeleteShader vertexShader;;
            gl.DeleteShader fragmentShader;;
            mret (program, None)
      end
  end.

Definition newTexture (file : string) (texNum : Z) : IO (Z * option error) :=
  '(imgFile, err) ← os.Open env file;
  match err with
  | Some e => mret (0, Some e)
  | None =>
      (* err is assigned here and not read again *)
      '(img, _, err) ← image.Decode env imgFile;
      bounds ← image.Bounds img;
      let rgba := image.NewRGBA env bounds in
      if negb (Stride rgba =? X (Rectangle_Size (Rect rgba)) * 4) then
        mret (0, Some (fmt.Errorf "unsupported stride" []))
      else
        rgba ← draw.Draw env rgba img;
        texture ← gl.GenTextures;
        gl.ActiveTexture texNum;;
        gl.BindTexture gl.TEXTURE_2D texture;;
        gl.TexParameteri gl.TEXTURE_2D gl.TEXTURE_MIN_FILTER gl.LINEAR;;
        gl.TexParameteri gl.TEXTURE_2D gl.TEXTURE_MAG_FILTER gl.LINEAR;;
        gl.TexImage2D gl.TEXTURE_2D 0 gl.RGBA
          (GoInt.to_int32 (X (Rectangle_Size (Rect rgba))))
          (GoInt.to_int32 (Y (Rectangle_Size (Rect rgba))))
          0 gl.RGBA gl.UNSIGNED_BYTE (Pix rgba);;
        mret (texture, None)
  end.

(** [if err != nil { panic(err) }] *)
Definition panic_on (err : option error) : IO unit :=
  match err with
  | Some e => panic (PanicError e)
  | None => mret tt
  end.

(** One pass through the body of the render loop. *)
Definition frame (window : unit) (uniModel : Z) (startTime : Float.float64)
  : IO unit :=
  (* clear buffer *)
  gl.Clear (Z.lor gl.COLOR_BUFFER_BIT gl.DEPTH_BUFFER_BIT);;
  now ← glfw.GetTime env;
  let matRot := HomogRotate3DZ (Float.to_float32 (Float.sub64 now startTime)) in
  gl.UniformMatrix4fv uniModel 1 false matRot;;
  gl.DrawArrays gl.TRIANGLES 0 36;;
  window.SwapBuffers window;;
  glfw.PollEvents.

(** The three vertex attributes: each name is looked up in the program and
    its location, converted to [uint32], is given the layout of the
    vertex table and enabled. *)
Definition attributes (program : Z) : IO unit :=
  (* set up position attribute with layout of vertices *)
  loc ← gl.GetAttribLocation env program
          (gl.Str ("position" +:+ String GoString.NUL EmptyString));
  let posAttrib := GoInt.to_uint32 loc in
  gl.VertexAttribPointer env posAttrib 3 gl.FLOAT false (8 * 4) (gl.PtrOffset 0);;
  gl.EnableVertexAttribArray env posAttrib;;
  (* vertex colour attribute *)
  loc ← gl.GetAttribLocation env program
          (gl.Str ("color" +:+ String GoString.NUL EmptyString));
  let colAttrib := GoInt.to_uint32 loc in
  gl.VertexAttribPointer env colAttrib 3 gl.FLOAT false (8 * 4)
    (gl.PtrOffset (3 * 4));;
  gl.EnableVertexAttribArray env colAttrib;;
  (* vertex texture coordinate attribute *)
  loc ← gl.GetAttribLocation env program
          (gl.Str ("texCoord" +:+ String GoString.NUL EmptyString));
  let texAttrib := GoInt.to_uint32 loc in
  gl.VertexAttribPointer env texAttrib 2 gl.FLOAT false (8 * 4)
    (gl.PtrOffset (6 * 4));;
  gl.EnableVertexAttribArray env texAttrib.

Definition matView : Mat4 := LookAt 2.0 2.0 2.0 0.0 0.0 0.0 0.0 0.0 1.0.
Definition matProj : Mat4 := Perspective 45.0 (640.0 / 480.0) 1.0 10.0.

(** Everything [main] does between creating the window and entering the
    render loop.  It returns what the loop uses: the window, the location
    of the model uniform and the start time. *)
Definition startup : IO (unit * Z * Float.float64) :=
  (* set opengl core profile 3.3 *)
  glfw.WindowHint glfw.ContextVersionMajor 3;;
  glfw.WindowHint glfw.ContextVersionMinor 3;;
  glfw.WindowHint glfw.OpenGLProfile glfw.OpenGLCoreProfile;;
  glfw.WindowHint glfw.OpenGLForwardCompatible glfw.True;;
  '(window, err) ← glfw.CreateWindow env 640 480 "GOPenGL";
  panic_on err;;
  window.MakeContextCurrent window;;
  (* initialise OpenGL library *)
  err ← gl.Init env;
  panic_on err;;
  (* link program from shaders *)
  '(program, err) ← newProgram "vertex.glsl" "fragment.glsl";
  panic_on err;;
  gl.UseProgram program;;
  (* vertex attribute object holds links between attributes and vbo *)
  vao ← gl.GenVertexArrays;
  gl.BindVertexArray vao;;
  (* vertex buffer with per-vertex data *)
  vbo ← gl.GenBuffers;
  gl.BindBuffer gl.ARRAY_BUFFER vbo;;
  gl.BufferData gl.ARRAY_BUFFER (Z.of_nat (length vertices) * 4) vertices
    gl.STATIC_DRAW;;
  attributes program;;
  '(_, err) ← newTexture "kitten.png" gl.TEXTURE0;
  panic_on err;;
  uniModel ← gl.GetUniformLocation env program
               (gl.Str ("model" +:+ String GoString.NUL EmptyString));
  uniView ← gl.GetUniformLocation env program
              (gl.Str ("view" +:+ String GoString.NUL EmptyString));
  uniProj ← gl.GetUniformLocation env program
              (gl.Str ("proj" +:+ String GoString.NUL EmptyString));
  gl.UniformMatrix4fv uniView 1 false matView;;
  gl.UniformMatrix4fv uniProj 1 false matProj;;
  startTime ← glfw.GetTime env;
  gl.Enable gl.DEPTH_TEST;;
  gl.ClearColor 1.0 1.0 1.0 1.0;;
  mret (window, uniModel, startTime).

(** The render loop, cut off after [fuel] iterations. *)
Definition render_loop (fuel : nat) (window : unit) (uniModel : Z)
    (startTime : Float.float64) : IO unit :=
  for_not fuel (window.ShouldClose env window) (frame window uniModel startTime).

(** [main]: GLFW is initialised, [glfw.Terminate] is deferred, and the
    start-up is followed by the render loop. *)
Definition main (fuel : nat) : IO unit :=
  (* initialize GLFW *)
  err ← glfw.Init env;
  panic_on err;;
  defer glfw.Terminate (
    '(window, uniModel, startTime) ← startup;
    render_loop fuel window uniModel startTime).

End Program.

(** * Facts about the program *)

(** ** Running a sequence of operations *)

Lemma bind_unfold {A B : Type} (m : IO A) (k : A -> IO B) (w : World) :
  (m ≫= k) w =
  match m w with
  | Ok a w' => k a w'
  | Panic p w' => Panic p w'
  | Running w' => Running w'
  end.
Proof. reflexivity. Qed.

Lemma bind_Ok {A B : Type} (m : IO A) (k : A -> IO B) (w w' : World) (a : A) :
  m w = Ok a w' -> (m ≫= k) w = k a w'.
Proof. intros H. now rewrite bind_unfold, H. Qed.

Lemma bind_Panic {A B : Type} (m : IO A) (k : A -> IO B) (w w' : World) p :
  m w = Panic p w' -> (m ≫= k) w = Panic p w'.
Proof. intros H. now rewrite bind_unfold, H. Qed.

(** ** The information log read back into a Go string *)

Definition nul : string := String GoString.NUL EmptyString.

(** What [compileShader] and [newProgram] hold in [log] after the driver has
    written its text [text] into the buffer of zero bytes: the text and the
    zero bytes left over. *)
Definition log_buffer (text : string) : string :=
  match text with
  | EmptyString => nul
  | _ => text +:+ nul +:+ nul
  end.

Lemma Repeat_nul (n : nat) :
  Nat.iter n (fun acc => nul +:+ acc) EmptyString = GoString.repeat_char GoString.NUL n.
Proof. induction n as [|n IH]; [reflexivity|]. simpl. now rewrite IH. Qed.

Lemma c_string_app_nul (s : string) : gl.c_string (s +:+ nul) = gl.c_string s.
Proof.
  induction s as [|c s IH]; [reflexivity|].
  rewrite GoString.app_cons. simpl. now rewrite IH.
Qed.



Lemma log_buffer_length (text : string) :
  String.length (log_buffer text) =
  match text with
  | EmptyString => 1%nat
  | _ => (String.length text + 2)%nat
  end.
Proof.
  destruct text as [|c t]; [reflexivity|].
  unfold log_buffer. rewrite !GoString.length_app. simpl. lia.
Qed.

(** The buffer of [logLength + 1] zero bytes, after the driver wrote the log
    into it with [bufSize = logLength]. *)
Lemma read_info_log (text : string) :
  Z.of_nat (String.length text) + 2 < 2 ^ 31 ->
  let logLength := gl.info_log_length text in
  let count := GoInt.add_int32 logLength 1 in
  (count <? 0) = false /\
  gl.write_info_log text logLength
    (gl.Str (Nat.iter (Z.to_nat count) (fun acc => nul +:+ acc) EmptyString))
  = log_buffer text.
Proof.
  intros Hlen. destruct text as [|c t].
  - split; reflexivity.
  - cbv zeta. set (text := String c t) in *.
    assert (Hl : gl.info_log_length text = Z.of_nat (String.length text) + 1).
    { unfold gl.info_log_length, text. fold text.
      apply GoInt.to_int32_id. unfold GoInt.is_int32. lia. }
    rewrite Hl.
    assert (Hc : GoInt.add_int32 (Z.of_nat (String.length text) + 1) 1
                 = Z.of_nat (String.length text) + 2).
    { unfold GoInt.add_int32. rewrite GoInt.to_int32_id; [lia|].
      unfold GoInt.is_int32. lia. }
    rewrite Hc. split; [lia|].
    unfold gl.write_info_log, gl.Str.
    replace (Z.of_nat (String.length text) + 1 <=? 0) with false by lia.
    replace (Z.to_nat (Z.of_nat (String.length text) + 1 - 1))
      with (String.length text) by lia.
    rewrite Nat.min_id, GoString.take_all, Repeat_nul, GoString.drop_repeat.
    replace (Z.to_nat (Z.of_nat (String.length text) + 2) - S (String.length text))%nat
      with 1%nat by lia.
    unfold log_buffer, text. fold text. reflexivity.
Qed.

(** ** What each function of the program does to the world *)

Lemma world_ext (w1 w2 : World) :
  trace w1 = trace w2 -> fresh w1 = fresh w2 -> shaders w1 = shaders w2 ->
  programs w1 = programs w2 -> attribs w1 = attribs w2 ->
  uniforms w1 = uniforms w2 -> gl_errors w1 = gl_errors w2 ->
  time_reads w1 = time_reads w2 -> polls w1 = polls w2 -> w1 = w2.
Proof. destruct w1, w2; simpl; intros; subst; reflexivity. Qed.

(** Reads the fields of a world that was built by a chain of updates, one
    field at a time. *)
Ltac world_fields :=
  cbn [trace fresh shaders programs attribs uniforms gl_errors time_reads polls
       emit set_shaders set_programs set_attribs set_uniforms raise_gl_error
       take_name tick polled glfw.Terminate].

Ltac world_eq :=
  apply world_ext; world_fields; rewrite <- ?app_assoc; try reflexivity.

(** Runs a sequence of operations whose definitions have been unfolded, as
    far as the answers of the environment are known. *)
Ltac io_run :=
  repeat first
    [ rewrite bind_unfold
    | progress cbv beta iota
    | progress world_fields
    | rewrite alter_insert_eq
    | rewrite lookup_insert_eq
    | progress cbn [sh_kind sh_source sh_compiled sh_flagged
                    pr_attached pr_linked fst snd panic_on]
    | progress unfold mret, IO_ret, panic ].

Section Facts.

Variable env : Env.

(** The shader object that [compileShader] leaves behind. *)
Definition compiled_shader (kind : Z) (src : string) : ShaderObj :=
  {| sh_kind := kind;
     sh_source := gl.c_string (src +:+ nul);
     sh_compiled := compile_status env kind (gl.c_string (src +:+ nul));
     sh_flagged := false |}.

Definition compile_calls (file : string) (kind shader : Z) (src : string)
  : list Call :=
  [ReadFile file; CreateShader kind shader;
   ShaderSource shader (gl.c_string (src +:+ nul)); CompileShader shader;
   GetShaderiv shader gl.COMPILE_STATUS
     (if compile_status env kind (gl.c_string (src +:+ nul))
      then gl.TRUE else gl.FALSE)].

Definition log_calls_shader (kind shader : Z) (src : string) : list Call :=
  let text := shader_info_log env kind (gl.c_string (src +:+ nul)) in
  [GetShaderiv shader gl.INFO_LOG_LENGTH (gl.info_log_length text);
   GetShaderInfoLog shader (gl.info_log_length text)].

(** The world after [compileShader] has read [src] from [file]: one more
    shader object, whether or not it compiled. *)
Definition after_compile (file : string) (kind : Z) (src : string) (w : World)
  : World :=
  {| trace :=
       trace w ++ compile_calls file kind (fresh w) src ++
       (if compile_status env kind (gl.c_string (src +:+ nul)) then []
        else log_calls_shader kind (fresh w) src);
     fresh := fresh w + 1;
     shaders := <[fresh w := compiled_shader kind src]> (shaders w);
     programs := programs w; attribs := attribs w; uniforms := uniforms w;
     gl_errors := gl_errors w; time_reads := time_reads w;
     polls := polls w |}.



Lemma compileShader_unreadable file kind e w :
  read_file env file = inr e ->
  compileShader env file kind w = Ok (0, Some e) (emit (ReadFile file) w).
Proof.
  intros Hr. unfold compileShader.
  rewrite bind_unfold. unfold ioutil.ReadFile. rewrite Hr. reflexivity.
Qed.

Lemma compileShader_compiled file kind src w :
  read_file env file = inl src ->
  compile_status env kind (gl.c_string (src +:+ nul)) = true ->
  compileShader env file kind w =
  Ok (fresh w, None) (after_compile file kind src w).
Proof.
  intros Hr Hc. unfold compileShader.
  rewrite bind_unfold. unfold ioutil.ReadFile. rewrite Hr.
  unfold gl.CreateShader, gl.ShaderSource, gl.CompileShader, gl.GetShaderiv,
    effect.
  unfold after_compile, compile_calls, compiled_shader.
  unfold gl.Str, nul in *.
  io_run. rewrite Hc.
  cbn [Z.eqb gl.TRUE gl.FALSE]. unfold mret, IO_ret. f_equal. world_eq.
Qed.


(** *** [newProgram] *)

(** A failure of either compilation is returned as it is. *)
Lemma newProgram_vertex_error vfile ffile w h e w' :
  compileShader env vfile gl.VERTEX_SHADER w = Ok (h, Some e) w' ->
  newProgram env vfile ffile w = Ok (0, Some e) w'.
Proof. intros H. unfold newProgram. now rewrite (bind_Ok _ _ _ _ _ H). Qed.

Lemma newProgram_fragment_error vfile ffile w vs w1 h e w' :
  compileShader env vfile gl.VERTEX_SHADER w = Ok (vs, None) w1 ->
  compileShader env ffile gl.FRAGMENT_SHADER w1 = Ok (h, Some e) w' ->
  newProgram env vfile ffile w = Ok (0, Some e) w'.
Proof.
  intros Hv Hf. unfold newProgram.
  rewrite (bind_Ok _ _ _ _ _ Hv). cbv beta iota.
  now rewrite (bind_Ok _ _ _ _ _ Hf).
Qed.

(** What the linker is given when both shaders compiled. *)
Definition linked_sources (vsrc fsrc : string) : list (Z * string) :=
  [(gl.VERTEX_SHADER, gl.c_string (vsrc +:+ nul));
   (gl.FRAGMENT_SHADER, gl.c_string (fsrc +:+ nul))].

Definition link_error (vsrc fsrc : string) : error :=
  "failed to link program: " +:+
  log_buffer (program_info_log env (linked_sources vsrc fsrc)).

Definition flag (o : ShaderObj) : ShaderObj :=
  {| sh_kind := sh_kind o; sh_source := sh_source o;
     sh_compiled := sh_compiled o; sh_flagged := true |}.

(** The calls of [newProgram] after the two compilations. *)
Definition link_calls (vs fs program : Z) (vsrc fsrc : string) : list Call :=
  let text := program_info_log env (linked_sources vsrc fsrc) in
  [CreateProgram program; AttachShader program vs; AttachShader program fs;
   LinkProgram program] ++
  (if link_status env (linked_sources vsrc fsrc)
   then [GetProgramiv program gl.LINK_STATUS gl.TRUE;
         DeleteShader vs; DeleteShader fs]
   else [GetProgramiv program gl.LINK_STATUS gl.FALSE;
         GetProgramiv program gl.INFO_LOG_LENGTH (gl.info_log_length text);
         GetProgramInfoLog program (gl.info_log_length text)]).

(** The world after [newProgram] has compiled both shaders and linked, or
    failed to link, the program. *)
Definition after_link (vfile ffile vsrc fsrc : string) (w : World) : World :=
  let vs := fresh w in
  let fs := fresh w + 1 in
  let program := fresh w + 2 in
  let linked := link_status env (linked_sources vsrc fsrc) in
  let release o := if linked then flag o else o in
  {| trace :=
       trace w ++ compile_calls vfile gl.VERTEX_SHADER vs vsrc ++
       compile_calls ffile gl.FRAGMENT_SHADER fs fsrc ++
       link_calls vs fs program vsrc fsrc;
     fresh := fresh w + 3;
     shaders :=
       <[fs := release (compiled_shader gl.FRAGMENT_SHADER fsrc)]>
         (<[vs := release (compiled_shader gl.VERTEX_SHADER vsrc)]> (shaders w));
     programs :=
       <[program := {| pr_attached := [vs; fs]; pr_linked := linked |}]>
         (programs w);
     attribs := attribs w; uniforms := uniforms w;
     gl_errors := gl_errors w; time_reads := time_reads w;
     polls := polls w |}.

Lemma Errorf_link (log : string) :
  fmt.Errorf "failed to link program: %v" [log]
  = "failed to link program: " +:+ log.
Proof.
  unfold fmt.Errorf. cbn [fmt.Sprintf].
  rewrite GoString.app_nil_r. reflexivity.
Qed.

(** Both shaders are read and compile. *)
Definition compiles (vfile ffile vsrc fsrc : string) : Prop :=
  (read_file env vfile = inl vsrc) /\
  (read_file env ffile = inl fsrc) /\
  (compile_status env gl.VERTEX_SHADER (gl.c_string (vsrc +:+ nul)) = true) /\
  (compile_status env gl.FRAGMENT_SHADER (gl.c_string (fsrc +:+ nul)) = true).

Lemma is_attached_insert (w : World) (p : Z) (o : ProgramObj) (s : Z) m :
  programs w = <[p := o]> m -> s ∈ pr_attached o -> gl.is_attached w s = true.
Proof.
  intros Hp Hs. unfold gl.is_attached. apply bool_decide_eq_true_2.
  rewrite Hp. exists p, o. split; [apply lookup_insert_eq | exact Hs].
Qed.

Lemma newProgram_compiled vfile ffile vsrc fsrc w :
  compiles vfile ffile vsrc fsrc ->
  (link_status env (linked_sources vsrc fsrc) = false ->
   Z.of_nat (String.length (program_info_log env (linked_sources vsrc fsrc)))
     + 2 < 2 ^ 31) ->
  newProgram env vfile ffile w =
  Ok (if link_status env (linked_sources vsrc fsrc)
      then (fresh w + 2, None)
      else (0, Some (link_error vsrc fsrc)))
     (after_link vfile ffile vsrc fsrc w).
Proof.
  intros (Hrv & Hrf & Hcv & Hcf) Hlen.
  unfold newProgram.
  rewrite (bind_Ok _ _ _ _ _ (compileShader_compiled _ _ _ w Hrv Hcv)).
  cbv beta iota.
  rewrite (bind_Ok _ _ _ _ _ (compileShader_compiled _ _ _ _ Hrf Hcf)).
  cbv beta iota.
  remember (after_compile ffile gl.FRAGMENT_SHADER fsrc
              (after_compile vfile gl.VERTEX_SHADER vsrc w)) as W2 eqn:HW2.
  assert (Hfresh : fresh W2 = fresh w + 2).
  { subst W2. cbn [fresh after_compile]. lia. }
  assert (Hprog : programs W2 = programs w) by (subst W2; reflexivity).
  assert (Hsh : shaders W2 =
            <[fresh w + 1 := compiled_shader gl.FRAGMENT_SHADER fsrc]>
              (<[fresh w := compiled_shader gl.VERTEX_SHADER vsrc]> (shaders w)))
    by (subst W2; reflexivity).
  assert (Hv : shaders W2 !! fresh w
               = Some (compiled_shader gl.VERTEX_SHADER vsrc)).
  { rewrite Hsh, lookup_insert_ne by lia. apply lookup_insert_eq. }
  assert (Hf : shaders W2 !! (fresh w + 1)
               = Some (compiled_shader gl.FRAGMENT_SHADER fsrc)).
  { rewrite Hsh. apply lookup_insert_eq. }
  change (fresh (after_compile vfile gl.VERTEX_SHADER vsrc w))
    with (fresh w + 1).
  unfold gl.CreateProgram, gl.AttachShader, gl.LinkProgram, gl.GetProgramiv,
    gl.GetProgramInfoLog, strings.Repeat, gl.DeleteShader, effect, panic,
    gl.attached_sources.
  repeat (io_run; cbn [app omap list_omap]; rewrite ?Hv, ?Hf;
          cbn [fmap option_fmap option_map compiled_shader sh_kind sh_source]).
  fold (linked_sources vsrc fsrc).
  rewrite !Z.eqb_refl.
  destruct (link_status env (linked_sources vsrc fsrc)) eqn:Hl.
  - cbn [Z.eqb gl.TRUE gl.FALSE].
    io_run.
    repeat match goal with
    | |- context [gl.is_attached ?W ?s] =>
        rewrite (is_attached_insert W (fresh W2)
                   {| pr_attached := [fresh w; fresh w + 1]; pr_linked := true |}
                   s (programs W2))
          by (world_fields; first [reflexivity | cbn [pr_attached]; set_solver])
    end.
    unfold mret, IO_ret. rewrite Hfresh. f_equal.
    apply world_ext; world_fields; unfold after_link; cbv zeta;
      world_fields; rewrite ?Hl, ?Hfresh, ?Hprog; try (subst W2; reflexivity).
    + subst W2. cbn [trace after_compile]. rewrite Hcv, Hcf.
      unfold link_calls. rewrite Hl. rewrite <- !app_assoc. reflexivity.
    + lia.
    + rewrite Hsh.
      rewrite (alter_insert_ne _ (fresh w) (fresh w + 1)) by lia.
      rewrite !alter_insert_eq. reflexivity.
  - cbn [Z.eqb gl.TRUE gl.FALSE].
    destruct (read_info_log _ (Hlen eq_refl)) as [Hneg Hbuf].
    cbv zeta in Hneg, Hbuf. unfold gl.Str in *. unfold nul in Hbuf.
    repeat (io_run; cbn [app omap list_omap]; rewrite ?Hv, ?Hf;
            cbn [fmap option_fmap option_map compiled_shader sh_kind sh_source]).
    fold (linked_sources vsrc fsrc).
    cbn [Z.eqb gl.INFO_LOG_LENGTH gl.LINK_STATUS Pos.eqb].
    rewrite Hneg. unfold mret, IO_ret.
    repeat (io_run; cbn [app omap list_omap]; rewrite ?Hv, ?Hf;
            cbn [fmap option_fmap option_map compiled_shader sh_kind sh_source]).
    fold (linked_sources vsrc fsrc).
    rewrite Hbuf, Errorf_link. fold (link_error vsrc fsrc). f_equal.
    apply world_ext; world_fields; unfold after_link; cbv zeta;
      world_fields; rewrite ?Hl, ?Hfresh, ?Hprog; try (subst W2; reflexivity).
    + subst W2. cbn [trace after_compile]. rewrite Hcv, Hcf.
      unfold link_calls. rewrite Hl. rewrite <- !app_assoc. reflexivity.
    + lia.
Qed.

(** *** [newTexture] *)

(** The RGBA buffer [newTexture] allocates for a decoded image. *)
Definition texture_buffer (img : Image) : RGBA := NewRGBA env (Bounds img).

(** Its rows are contiguous: the check that [newTexture] makes. *)
Definition contiguous (rgba : RGBA) : bool :=
  Stride rgba =? X (Rectangle_Size (Rect rgba)) * 4.

Definition texture_calls (texNum texture : Z) (img : Image) : list Call :=
  let rgba := texture_buffer img in
  [GenTextures texture; ActiveTexture texNum;
   BindTexture gl.TEXTURE_2D texture;
   TexParameteri gl.TEXTURE_2D gl.TEXTURE_MIN_FILTER gl.LINEAR;
   TexParameteri gl.TEXTURE_2D gl.TEXTURE_MAG_FILTER gl.LINEAR;
   TexImage2D gl.TEXTURE_2D 0 gl.RGBA
     (GoInt.to_int32 (X (Rectangle_Size (Rect rgba))))
     (GoInt.to_int32 (Y (Rectangle_Size (Rect rgba))))
     0 gl.RGBA gl.UNSIGNED_BYTE (Draw_Src env rgba img)].

Definition after_texture (file : string) (texNum : Z) (img : Image)
    (w : World) : World :=
  {| trace :=
       trace w ++ [os_Open file; image_Decode file] ++
       texture_calls texNum (fresh w) img;
     fresh := fresh w + 1;
     shaders := shaders w; programs := programs w; attribs := attribs w;
     uniforms := uniforms w; gl_errors := gl_errors w;
     time_reads := time_reads w; polls := polls w |}.

Lemma newTexture_unopened file texNum e w :
  open_err env file = Some e ->
  newTexture env file texNum w = Ok (0, Some e) (emit (os_Open file) w).
Proof.
  intros Ho. unfold newTexture, os.Open.
  rewrite bind_unfold, Ho. reflexivity.
Qed.

Lemma newTexture_undecoded file texNum e w :
  open_err env file = None ->
  decode env file = inr e ->
  newTexture env file texNum w =
  Panic NilDereference (emit (image_Decode file) (emit (os_Open file) w)).
Proof.
  intros Ho Hd. unfold newTexture, os.Open, image.Decode.
  rewrite bind_unfold, Ho. cbv beta iota.
  rewrite bind_unfold, Hd. reflexivity.
Qed.

Lemma newTexture_stride file texNum img w :
  open_err env file = None ->
  decode env file = inl img ->
  contiguous (texture_buffer img) = false ->
  newTexture env file texNum w =
  Ok (0, Some "unsupported stride")
     (emit (image_Decode file) (emit (os_Open file) w)).
Proof.
  intros Ho Hd Hs. unfold newTexture, os.Open, image.Decode.
  rewrite bind_unfold, Ho. cbv beta iota.
  rewrite bind_unfold, Hd. cbv beta iota.
  unfold image.Bounds, image.NewRGBA. rewrite bind_unfold.
  unfold mret at 1, IO_ret at 1. cbv beta iota.
  unfold contiguous, texture_buffer in Hs. rewrite Hs. reflexivity.
Qed.

Lemma newTexture_loaded file texNum img w :
  open_err env file = None ->
  decode env file = inl img ->
  contiguous (texture_buffer img) = true ->
  newTexture env file texNum w =
  Ok (fresh w, None) (after_texture file texNum img w).
Proof.
  intros Ho Hd Hs. unfold newTexture, os.Open, image.Decode.
  rewrite bind_unfold, Ho. cbv beta iota.
  rewrite bind_unfold, Hd. cbv beta iota.
  unfold image.Bounds, image.NewRGBA. rewrite bind_unfold.
  unfold mret at 1, IO_ret at 1. cbv beta iota.
  unfold contiguous, texture_buffer in Hs. rewrite Hs.
  unfold draw.Draw, gl.GenTextures, gl.ActiveTexture, gl.BindTexture,
    gl.TexParameteri, gl.TexImage2D, effect, negb, mret, IO_ret.
  io_run. f_equal. unfold after_texture, texture_calls, texture_buffer.
  cbn [Pix Stride Rect]. world_eq.
Qed.

(** *** The vertex attributes *)

(** The index [main] passes for an attribute name: the location, which is
    an [int32], converted to [uint32]. *)
Definition attrib_index (name : string) : Z :=
  GoInt.to_uint32 (attrib_location env name).

(** The state of a generic vertex attribute after [VertexAttribPointer]
    and [EnableVertexAttribArray]. *)
Definition attrib_state (size offset : Z) : VertexAttrib :=
  {| va_size := size; va_type := gl.FLOAT; va_normalized := false;
     va_stride := 8 * 4; va_offset := offset; va_enabled := true |}.

(** The effect of the two calls for one attribute: nothing when the index
    is not below [MAX_VERTEX_ATTRIBS]. *)
Definition set_attrib (name : string) (size offset : Z)
    (m : gmap Z VertexAttrib) : gmap Z VertexAttrib :=
  if attrib_index name <? max_vertex_attribs env
  then <[attrib_index name := attrib_state size offset]> m
  else m.

Definition attrib_errors (name : string) : list Z :=
  if attrib_index name <? max_vertex_attribs env then []
  else [gl.INVALID_VALUE; gl.INVALID_VALUE].

Definition attrib_calls (program : Z) (name : string) (size offset : Z)
  : list Call :=
  [GetAttribLocation program name (attrib_location env name);
   VertexAttribPointer (attrib_index name) size gl.FLOAT false (8 * 4) offset;
   EnableVertexAttribArray (attrib_index name)].

(** The world after the three calls for one attribute. *)
Definition after_attrib (program : Z) (name : string) (size offset : Z)
    (w : World) : World :=
  {| trace := trace w ++ attrib_calls program name size offset;
     fresh := fresh w; shaders := shaders w; programs := programs w;
     attribs := set_attrib name size offset (attribs w);
     uniforms := uniforms w;
     gl_errors := gl_errors w ++ attrib_errors name;
     time_reads := time_reads w; polls := polls w |}.

Definition after_attributes (program : Z) (w : World) : World :=
  after_attrib program "texCoord" 2 24
    (after_attrib program "color" 3 12
       (after_attrib program "position" 3 0 w)).

(** The pair of calls that sets up one attribute never fails. *)
Lemma attrib_pair_run (index size offset : Z) (w : World) :
  (gl.VertexAttribPointer env index size gl.FLOAT false (8 * 4) offset;;
   gl.EnableVertexAttribArray env index) w =
  Ok tt
    {| trace :=
         trace w ++
         [VertexAttribPointer index size gl.FLOAT false (8 * 4) offset;
          EnableVertexAttribArray index];
       fresh := fresh w; shaders := shaders w; programs := programs w;
       attribs :=
         if index <? max_vertex_attribs env
         then <[index := attrib_state size offset]> (attribs w)
         else attribs w;
       uniforms := uniforms w;
       gl_errors :=
         gl_errors w ++
         (if index <? max_vertex_attribs env then []
          else [gl.INVALID_VALUE; gl.INVALID_VALUE]);
       time_reads := time_reads w; polls := polls w |}.
Proof.
  unfold gl.VertexAttribPointer, gl.EnableVertexAttribArray, effect.
  rewrite bind_unfold. cbv beta iota.
  destruct (index <? max_vertex_attribs env) eqn:Hi; f_equal.
  - apply world_ext; world_fields; rewrite <- ?app_assoc;
      rewrite ?app_nil_r; try reflexivity.
    rewrite lookup_insert_eq, insert_insert_eq. reflexivity.
  - apply world_ext; world_fields; rewrite <- ?app_assoc; reflexivity.
Qed.

(** One attribute block of [main], followed by the rest of the program. *)
Lemma attribute_then {A : Type} (program : Z) (cname name : string)
    (size offset : Z) (rest : IO A) (w : World) :
  gl.c_string cname = name ->
  (loc ← gl.GetAttribLocation env program (gl.Str cname);
   gl.VertexAttribPointer env (GoInt.to_uint32 loc) size gl.FLOAT false
     (8 * 4) offset;;
   gl.EnableVertexAttribArray env (GoInt.to_uint32 loc);;
   rest) w
  = rest (after_attrib program name size offset w).
Proof.
  intros <-.
  unfold gl.GetAttribLocation, gl.VertexAttribPointer,
    gl.EnableVertexAttribArray, effect, gl.Str.
  rewrite !bind_unfold. cbv beta iota.
  f_equal. unfold after_attrib, set_attrib, attrib_errors, attrib_calls,
    attrib_index.
  destruct (GoInt.to_uint32 (attrib_location env (gl.c_string cname))
            <? max_vertex_attribs env) eqn:Hi.
  - apply world_ext; world_fields; rewrite <- ?app_assoc;
      rewrite ?app_nil_r; try reflexivity.
    rewrite lookup_insert_eq, insert_insert_eq. reflexivity.
  - apply world_ext; world_fields; rewrite <- ?app_assoc; reflexivity.
Qed.

Lemma attributes_run (program : Z) (w : World) :
  attributes env program w = Ok tt (after_attributes program w).
Proof.
  unfold attributes, after_attributes.
  rewrite (attribute_then program _ "position") by reflexivity.
  rewrite (attribute_then program _ "color") by reflexivity.
  unfold gl.GetAttribLocation, gl.Str. rewrite bind_unfold. cbv beta iota.
  rewrite attrib_pair_run. f_equal.
  change (gl.c_string ("texCoord" +:+ String GoString.NUL EmptyString))
    with "texCoord".
  fold (attrib_index "texCoord").
  apply world_ext;
    cbn [after_attrib trace fresh shaders programs attribs uniforms gl_errors
         time_reads polls emit];
    unfold set_attrib, attrib_errors, attrib_calls;
    rewrite <- ?app_assoc; reflexivity.
Qed.

(** *** Start-up *)

(** GLFW, the window and the OpenGL binding all initialise. *)
Definition starts : Prop :=
  glfw_init_err env = None /\ create_window_err env = None /\
  gl_init_err env = None.

Definition opening_calls : list Call :=
  [glfw_Init;
   glfw_WindowHint glfw.ContextVersionMajor 3;
   glfw_WindowHint glfw.ContextVersionMinor 3;
   glfw_WindowHint glfw.OpenGLProfile glfw.OpenGLCoreProfile;
   glfw_WindowHint glfw.OpenGLForwardCompatible glfw.True;
   glfw_CreateWindow 640 480 "GOPenGL"; MakeContextCurrent; gl_Init].

(** The world in which [main] calls [newProgram]. *)
Definition opened : World :=
  {| trace := opening_calls; fresh := 1; shaders := ∅; programs := ∅;
     attribs := ∅; uniforms := ∅; gl_errors := []; time_reads := 0;
     polls := 0 |}.

(** An error of [newProgram] is fatal: [main] panics with it, and the
    deferred [glfw.Terminate] is the last call. *)
Lemma main_newProgram_error (fuel : nat) (h : Z) (e : error) (w' : World) :
  starts ->
  newProgram env "vertex.glsl" "fragment.glsl" opened = Ok (h, Some e) w' ->
  main env fuel init_world = Panic (PanicError e) (glfw.Terminate w').
Proof.
  intros (Hi & Hc & Hg) Hnp.
  unfold main, defer, startup.
  unfold glfw.Init, glfw.WindowHint, glfw.CreateWindow,
    window.MakeContextCurrent, gl.Init, effect.
  rewrite Hi, Hc, Hg. io_run.
  match goal with
  | |- context [newProgram env _ _ ?W] =>
      replace W with opened by (unfold opened, opening_calls; world_eq)
  end.
  rewrite Hnp. io_run. reflexivity.
Qed.

(** The calls between the linked program and the attributes. *)
Definition upload_calls (program vao vbo : Z) : list Call :=
  [UseProgram program; GenVertexArrays vao; BindVertexArray vao;
   GenBuffers vbo; BindBuffer gl.ARRAY_BUFFER vbo;
   BufferData gl.ARRAY_BUFFER (Z.of_nat (length vertices) * 4) vertices
     gl.STATIC_DRAW].

Definition after_upload (program : Z) (w : World) : World :=
  {| trace := trace w ++ upload_calls program (fresh w) (fresh w + 1);
     fresh := fresh w + 2; shaders := shaders w; programs := programs w;
     attribs := attribs w; uniforms := uniforms w; gl_errors := gl_errors w;
     time_reads := time_reads w; polls := polls w |}.

(** A write of a matrix uniform: ignored at location -1. *)
Definition write_uniform (location : Z) (value : Mat4) (m : gmap Z Mat4)
  : gmap Z Mat4 :=
  if location =? -1 then m else <[location := value]> m.

Definition uniModel : Z := uniform_location env "model".
Definition uniView : Z := uniform_location env "view".
Definition uniProj : Z := uniform_location env "proj".

(** The calls from the uniform look-ups to the render loop. *)
Definition uniform_calls (program : Z) (startTime : Float.float64) : list Call :=
  [GetUniformLocation program "model" uniModel;
   GetUniformLocation program "view" uniView;
   GetUniformLocation program "proj" uniProj;
   UniformMatrix4fv uniView 1 false matView;
   UniformMatrix4fv uniProj 1 false matProj;
   GetTime startTime; Enable gl.DEPTH_TEST; ClearColor 1.0 1.0 1.0 1.0].

Definition after_uniforms (program : Z) (w : World) : World :=
  {| trace := trace w ++ uniform_calls program (clock env (time_reads w));
     fresh := fresh w; shaders := shaders w; programs := programs w;
     attribs := attribs w;
     uniforms := write_uniform uniProj matProj
                   (write_uniform uniView matView (uniforms w));
     gl_errors := gl_errors w;
     time_reads := S (time_reads w); polls := polls w |}.

(** Everything the start-up needs from the environment: the libraries
    initialise, both shaders compile and link, and the texture loads. *)
Definition good_start (vsrc fsrc : string) (img : Image) : Prop :=
  starts /\
  compiles "vertex.glsl" "fragment.glsl" vsrc fsrc /\
  link_status env (linked_sources vsrc fsrc) = true /\
  open_err env "kitten.png" = None /\
  decode env "kitten.png" = inl img /\
  contiguous (texture_buffer img) = true.

(** The world in which the render loop begins.  The program is object 3:
    the two shaders are 1 and 2. *)
Definition started (vsrc fsrc : string) (img : Image) : World :=
  after_uniforms 3
    (after_texture "kitten.png" gl.TEXTURE0 img
       (after_attributes 3
          (after_upload 3
             (after_link "vertex.glsl" "fragment.glsl" vsrc fsrc opened)))).

Ltac facts_fields :=
  cbn [trace fresh shaders programs attribs uniforms gl_errors time_reads
       polls emit set_shaders set_programs set_attribs set_uniforms
       raise_gl_error take_name tick polled glfw.Terminate
       after_compile after_attrib after_attributes after_texture
       after_upload after_uniforms].

Lemma startup_good (vsrc fsrc : string) (img : Image) :
  good_start vsrc fsrc img ->
  startup env (emit glfw_Init init_world) =
  Ok (tt, uniModel, clock env 0) (started vsrc fsrc img).
Proof.
  intros ((Hi & Hc & Hg) & Hcomp & Hl & Ho & Hd & Hs).
  unfold startup.
  unfold glfw.WindowHint, glfw.CreateWindow, window.MakeContextCurrent,
    gl.Init, effect.
  rewrite Hc, Hg. io_run.
  match goal with
  | |- context [newProgram env _ _ ?W] =>
      replace W with opened by (unfold opened, opening_calls; world_eq)
  end.
  rewrite (newProgram_compiled _ _ _ _ _ Hcomp) by congruence.
  rewrite Hl. change (fresh opened + 2) with 3.
  set (W1 := after_link "vertex.glsl" "fragment.glsl" vsrc fsrc opened).
  unfold gl.UseProgram, gl.GenVertexArrays, gl.BindVertexArray, gl.GenBuffers,
    gl.BindBuffer, gl.BufferData, effect.
  io_run.
  match goal with
  | |- context [attributes env 3 ?W] =>
      replace W with (after_upload 3 W1)
        by (unfold after_upload, upload_calls; world_eq)
  end.
  rewrite attributes_run. io_run.
  rewrite (newTexture_loaded _ _ _ _ Ho Hd Hs). io_run.
  unfold gl.GetUniformLocation, gl.UniformMatrix4fv, glfw.GetTime, gl.Enable,
    gl.ClearColor, effect, gl.Str.
  change (gl.c_string ("model" +:+ String GoString.NUL EmptyString))
    with "model".
  change (gl.c_string ("view" +:+ String GoString.NUL EmptyString))
    with "view".
  change (gl.c_string ("proj" +:+ String GoString.NUL EmptyString))
    with "proj".
  fold uniModel uniView uniProj.
  io_run. f_equal.
  unfold started. fold W1.
  set (W2 := after_texture "kitten.png" gl.TEXTURE0 img
               (after_attributes 3 (after_upload 3 W1))).
  unfold after_uniforms, uniform_calls, write_uniform.
  apply world_ext; world_fields; rewrite <- ?app_assoc; try reflexivity.
Qed.

(** *** The render loop *)

(** The rotation that a frame uploads when the clock reads [now]. *)
Definition rotation (startTime now : Float.float64) : Mat4 :=
  HomogRotate3DZ (Float.to_float32 (Float.sub64 now startTime)).

(** The calls of one pass through the loop body. *)
Definition frame_calls (model : Z) (startTime now : Float.float64)
  : list Call :=
  [Clear (Z.lor gl.COLOR_BUFFER_BIT gl.DEPTH_BUFFER_BIT);
   GetTime now;
   UniformMatrix4fv model 1 false (rotation startTime now);
   DrawArrays gl.TRIANGLES 0 36;
   SwapBuffers;
   PollEvents].

Definition after_frame (model : Z) (startTime : Float.float64) (w : World)
  : World :=
  let now := clock env (time_reads w) in
  {| trace := trace w ++ frame_calls model startTime now;
     fresh := fresh w; shaders := shaders w; programs := programs w;
     attribs := attribs w;
     uniforms := write_uniform model (rotation startTime now) (uniforms w);
     gl_errors := gl_errors w;
     time_reads := S (time_reads w); polls := S (polls w) |}.

Lemma frame_run (model : Z) (startTime : Float.float64) (w : World) :
  frame env tt model startTime w = Ok tt (after_frame model startTime w).
Proof.
  unfold frame, gl.Clear, glfw.GetTime, gl.UniformMatrix4fv, gl.DrawArrays,
    window.SwapBuffers, glfw.PollEvents, effect.
  io_run. f_equal.
  unfold after_frame, frame_calls, write_uniform, rotation. cbv zeta.
  world_eq.
Qed.

(** One iteration: the window is asked, answers no, and a frame follows. *)
Definition iteration (model : Z) (startTime : Float.float64) (w : World)
  : World :=
  after_frame model startTime (emit (ShouldClose false) w).

(** The world after [n] iterations. *)
Fixpoint iterations (n : nat) (model : Z) (startTime : Float.float64)
    (w : World) : World :=
  match n with
  | O => w
  | S n' => iterations n' model startTime (iteration model startTime w)
  end.

Lemma iterations_polls n model startTime w :
  polls (iterations n model startTime w) = (polls w + n)%nat.
Proof.
  revert w. induction n as [|n IH]; intros w; simpl; [lia|].
  rewrite IH. cbn. lia.
Qed.

Lemma iterations_time_reads n model startTime w :
  time_reads (iterations n model startTime w) = (time_reads w + n)%nat.
Proof.
  revert w. induction n as [|n IH]; intros w; simpl; [lia|].
  rewrite IH. cbn. lia.
Qed.

Lemma iterations_S n model startTime w :
  iterations (S n) model startTime w =
  iteration model startTime (iterations n model startTime w).
Proof.
  revert w. induction n as [|n IH]; intros w; [reflexivity|].
  change (iterations (S (S n)) model startTime w)
    with (iterations (S n) model startTime (iteration model startTime w)).
  rewrite IH. reflexivity.
Qed.

(** The loop runs as long as the window stays open and the bound allows. *)
Lemma render_loop_open (fuel : nat) model startTime w :
  (forall i, (i < fuel)%nat -> should_close env (polls w + i) = false) ->
  render_loop env fuel tt model startTime w =
  Running (iterations fuel model startTime w).
Proof.
  revert w. induction fuel as [|fuel IH]; intros w Hopen; [reflexivity|].
  unfold render_loop. cbn [for_not].
  rewrite bind_unfold. unfold window.ShouldClose at 1.
  rewrite <- (Nat.add_0_r (polls w)), Hopen by lia.
  rewrite bind_unfold, frame_run.
  fold (render_loop env fuel tt model startTime).
  rewrite ?Nat.add_0_r. fold (iteration model startTime w).
  rewrite IH; [reflexivity|].
  intros i Hi. cbn [polls iteration after_frame emit].
  replace (S (polls w) + i)%nat with (polls w + S i)%nat by lia.
  apply Hopen. lia.
Qed.

(** The loop ends when the window asks to close. *)
Lemma render_loop_closed (n fuel : nat) model startTime w :
  (forall i, (i < n)%nat -> should_close env (polls w + i) = false) ->
  should_close env (polls w + n) = true ->
  (n < fuel)%nat ->
  render_loop env fuel tt model startTime w =
  Ok tt (emit (ShouldClose true) (iterations n model startTime w)).
Proof.
  revert fuel w. induction n as [|n IH]; intros fuel w Hopen Hclose Hfuel.
  - destruct fuel as [|fuel]; [lia|].
    unfold render_loop. cbn [for_not].
    rewrite bind_unfold. unfold window.ShouldClose at 1.
    rewrite Nat.add_0_r in Hclose. rewrite Hclose. reflexivity.
  - destruct fuel as [|fuel]; [lia|].
    unfold render_loop. cbn [for_not].
    rewrite bind_unfold. unfold window.ShouldClose at 1.
    rewrite <- (Nat.add_0_r (polls w)), Hopen by lia.
    rewrite bind_unfold, frame_run.
    fold (render_loop env fuel tt model startTime).
    rewrite ?Nat.add_0_r. fold (iteration model startTime w).
    cbn [iterations].
    apply IH; [| |lia].
    + intros i Hi. cbn [polls iteration after_frame emit].
      replace (S (polls w) + i)%nat with (polls w + S i)%nat by lia.
      apply Hopen. lia.
    + cbn [polls iteration after_frame emit].
      replace (S (polls w) + n)%nat with (polls w + S n)%nat by lia.
      exact Hclose.
Qed.

(** The calls of the first [n] iterations, the clock having been read
    [t] times before. *)
Definition loop_calls (model : Z) (startTime : Float.float64) (t n : nat)
  : list Call :=
  flat_map
    (fun i => ShouldClose false ::
              frame_calls model startTime (clock env (t + i)))
    (seq 0 n).

Lemma iterations_trace n model startTime w :
  trace (iterations n model startTime w) =
  trace w ++ loop_calls model startTime (time_reads w) n.
Proof.
  induction n as [|n IH].
  - unfold loop_calls. cbn. now rewrite app_nil_r.
  - rewrite iterations_S. unfold iteration at 1.
    cbn [trace time_reads after_frame emit]. rewrite IH, iterations_time_reads.
    unfold loop_calls. rewrite seq_S, flat_map_app. cbn [flat_map].
    rewrite app_nil_r, <- !app_assoc. reflexivity.
Qed.

(** *** [main] *)

(** The window closes when it is asked for the [n]-th time, counting
    from 0, and not before. *)
Definition closes_after (n : nat) : Prop :=
  (forall i, (i < n)%nat -> should_close env i = false) /\
  should_close env n = true.

Lemma started_counters vsrc fsrc img :
  polls (started vsrc fsrc img) = 0%nat /\
  time_reads (started vsrc fsrc img) = 1%nat.
Proof. split; reflexivity. Qed.

Lemma main_good_closed (vsrc fsrc : string) (img : Image) (n fuel : nat) :
  good_start vsrc fsrc img -> closes_after n -> (n < fuel)%nat ->
  main env fuel init_world =
  Ok tt (glfw.Terminate
           (emit (ShouldClose true)
              (iterations n uniModel (clock env 0) (started vsrc fsrc img)))).
Proof.
  intros Hgood [Hopen Hclose] Hfuel.
  pose proof Hgood as ((Hi & _) & _).
  unfold main, glfw.Init. rewrite Hi. io_run.
  unfold defer. rewrite bind_unfold, (startup_good _ _ _ Hgood).
  cbv beta iota.
  rewrite (render_loop_closed n); [reflexivity| | |exact Hfuel].
  - intros i Hlt. apply Hopen, Hlt.
  - exact Hclose.
Qed.

Lemma main_good_open (vsrc fsrc : string) (img : Image) (fuel : nat) :
  good_start vsrc fsrc img ->
  (forall i, (i < fuel)%nat -> should_close env i = false) ->
  main env fuel init_world =
  Running (iterations fuel uniModel (clock env 0) (started vsrc fsrc img)).
Proof.
  intros Hgood Hopen.
  pose proof Hgood as ((Hi & _) & _).
  unfold main, glfw.Init. rewrite Hi. io_run.
  unfold defer. rewrite bind_unfold, (startup_good _ _ _ Hgood).
  cbv beta iota.
  rewrite render_loop_open; [reflexivity|].
  intros i Hlt. apply Hopen, Hlt.
Qed.

(** The calls of a successful start-up, in order. *)
Definition startup_calls (vsrc fsrc : string) (img : Image) : list Call :=
  opening_calls ++
  compile_calls "vertex.glsl" gl.VERTEX_SHADER 1 vsrc ++
  compile_calls "fragment.glsl" gl.FRAGMENT_SHADER 2 fsrc ++
  [CreateProgram 3; AttachShader 3 1; AttachShader 3 2; LinkProgram 3;
   GetProgramiv 3 gl.LINK_STATUS gl.TRUE; DeleteShader 1; DeleteShader 2] ++
  upload_calls 3 4 5 ++
  attrib_calls 3 "position" 3 0 ++
  attrib_calls 3 "color" 3 12 ++
  attrib_calls 3 "texCoord" 2 24 ++
  [os_Open "kitten.png"; image_Decode "kitten.png"] ++
  texture_calls gl.TEXTURE0 6 img ++
  uniform_calls 3 (clock env 0).

Lemma started_trace (vsrc fsrc : string) (img : Image) :
  good_start vsrc fsrc img ->
  trace (started vsrc fsrc img) = startup_calls vsrc fsrc img.
Proof.
  intros (_ & (_ & _ & Hcv & Hcf) & Hl & _).
  unfold started, startup_calls.
  cbn [trace after_uniforms after_texture after_attributes after_attrib
       after_upload after_link time_reads fresh opened].
  unfold link_calls. rewrite Hl.
  rewrite <- !app_assoc. reflexivity.
Qed.

(** An error of [newTexture] is fatal as well. *)
Lemma main_newTexture_error (fuel : nat) (vsrc fsrc : string) (h : Z)
    (e : error) (w' : World) :
  starts ->
  compiles "vertex.glsl" "fragment.glsl" vsrc fsrc ->
  link_status env (linked_sources vsrc fsrc) = true ->
  newTexture env "kitten.png" gl.TEXTURE0
    (after_attributes 3
       (after_upload 3
          (after_link "vertex.glsl" "fragment.glsl" vsrc fsrc opened)))
  = Ok (h, Some e) w' ->
  main env fuel init_world = Panic (PanicError e) (glfw.Terminate w').
Proof.
  intros (Hi & Hc & Hg) Hcomp Hl Htex.
  unfold main, glfw.Init. rewrite Hi. io_run.
  unfold defer, startup.
  unfold glfw.WindowHint, glfw.CreateWindow, window.MakeContextCurrent,
    gl.Init, effect.
  rewrite Hc, Hg. io_run.
  match goal with
  | |- context [newProgram env _ _ ?W] =>
      replace W with opened by (unfold opened, opening_calls; world_eq)
  end.
  rewrite (newProgram_compiled _ _ _ _ _ Hcomp) by congruence.
  rewrite Hl. change (fresh opened + 2) with 3.
  set (W1 := after_link "vertex.glsl" "fragment.glsl" vsrc fsrc opened) in *.
  unfold gl.UseProgram, gl.GenVertexArrays, gl.BindVertexArray, gl.GenBuffers,
    gl.BindBuffer, gl.BufferData, effect.
  io_run.
  match goal with
  | |- context [attributes env 3 ?W] =>
      replace W with (after_upload 3 W1)
        by (unfold after_upload, upload_calls; world_eq)
  end.
  rewrite attributes_run. io_run.
  rewrite Htex. io_run. reflexivity.
Qed.

(** *** Counting calls in a trace *)

Definition is_draw (c : Call) : bool :=
  match c with
  | DrawArrays _ _ _ => true
  | _ => false
  end.

Definition is_upload (c : Call) : bool :=
  match c with
  | BufferData _ _ _ _ => true
  | _ => false
  end.

(** A write of a matrix uniform at [location]. *)
Definition writes (location : Z) (c : Call) : bool :=
  match c with
  | UniformMatrix4fv l _ _ _ => l =? location
  | _ => false
  end.

Lemma startup_draws vsrc fsrc img :
  List.filter is_draw (startup_calls vsrc fsrc img) = [].
Proof. reflexivity. Qed.

Lemma startup_uploads vsrc fsrc img :
  List.filter is_upload (startup_calls vsrc fsrc img) =
  [BufferData gl.ARRAY_BUFFER (Z.of_nat (length vertices) * 4) vertices
     gl.STATIC_DRAW].
Proof. reflexivity. Qed.

Lemma loop_draws model startTime t n :
  List.filter is_draw (loop_calls model startTime t n) =
  repeat (DrawArrays gl.TRIANGLES 0 36) n.
Proof.
  unfold loop_calls. generalize 0%nat as s.
  induction n as [|n IH]; intros s; [reflexivity|].
  cbn [seq flat_map]. rewrite List.filter_app, IH. reflexivity.
Qed.

Lemma loop_uploads model startTime t n :
  List.filter is_upload (loop_calls model startTime t n) = [].
Proof.
  unfold loop_calls. generalize 0%nat as s.
  induction n as [|n IH]; intros s; [reflexivity|].
  cbn [seq flat_map]. rewrite List.filter_app, IH. reflexivity.
Qed.

Lemma loop_writes model location startTime t n :
  model <> location ->
  List.filter (writes location) (loop_calls model startTime t n) = [].
Proof.
  intros Hne. unfold loop_calls. generalize 0%nat as s.
  induction n as [|n IH]; intros s; [reflexivity|].
  cbn [seq flat_map]. rewrite List.filter_app, IH.
  cbn [List.filter frame_calls writes app].
  replace (model =? location) with false by lia. reflexivity.
Qed.

(** Within any bound the window either stays open or closes at a first
    moment. *)
Lemma first_close (fuel : nat) :
  (forall i, (i < fuel)%nat -> should_close env i = false) \/
  (exists n, (n < fuel)%nat /\ closes_after n).
Proof.
  induction fuel as [|fuel IH].
  - left. intros i Hi. lia.
  - destruct IH as [Hopen | (n & Hn & Hc)].
    + destruct (should_close env fuel) eqn:Hf.
      * right. exists fuel. split; [lia|]. split; assumption.
      * left. intros i Hi.
        destruct (Nat.eq_dec i fuel) as [->|Hne]; [exact Hf|].
        apply Hopen. lia.
    + right. exists n. split; [lia | exact Hc].
Qed.

(** Every run of [main] after a good start: the start-up, some number of
    whole iterations, and then either nothing (the bound was reached) or
    the closing query and the deferred [glfw.Terminate]. *)
Lemma main_good_trace (vsrc fsrc : string) (img : Image) (fuel : nat) :
  good_start vsrc fsrc img ->
  exists (n : nat) (closing : list Call),
    (n <= fuel)%nat /\
    (closing = [] \/ closing = [ShouldClose true; glfw_Terminate]) /\
    trace (world_of (main env fuel init_world)) =
      startup_calls vsrc fsrc img ++
      loop_calls uniModel (clock env 0) 1 n ++ closing /\
    uniforms (world_of (main env fuel init_world)) =
      uniforms (iterations n uniModel (clock env 0) (started vsrc fsrc img)).
Proof.
  intros Hgood.
  destruct (first_close fuel) as [Hopen | (n & Hn & Hc)].
  - exists fuel, []. split; [lia|]. split; [now left|].
    rewrite (main_good_open _ _ _ _ Hgood Hopen). cbn [world_of].
    rewrite iterations_trace, (started_trace _ _ _ Hgood), app_nil_r.
    split; reflexivity.
  - exists n, [ShouldClose true; glfw_Terminate]. split; [lia|].
    split; [now right|].
    rewrite (main_good_closed _ _ _ _ _ Hgood Hc Hn).
    cbn [world_of trace uniforms glfw.Terminate emit].
    rewrite iterations_trace, (started_trace _ _ _ Hgood).
    rewrite <- !app_assoc. split; reflexivity.
Qed.

Lemma write_uniform_other (location other : Z) (v : Mat4) (m : gmap Z Mat4) :
  location <> other -> write_uniform location v m !! other = m !! other.
Proof.
  intros Hne. unfold write_uniform.
  destruct (location =? -1); [reflexivity|].
  now apply lookup_insert_ne.
Qed.

Lemma write_uniform_same (location : Z) (v : Mat4) (m : gmap Z Mat4) :
  location <> -1 -> write_uniform location v m !! location = Some v.
Proof.
  intros Hne. unfold write_uniform.
  replace (location =? -1) with false by lia.
  apply lookup_insert_eq.
Qed.

(** The loop leaves every uniform but the model matrix as it was. *)
Lemma iterations_uniforms n model startTime w (location : Z) :
  model <> location ->
  uniforms (iterations n model startTime w) !! location
  = uniforms w !! location.
Proof.
  intros Hne. revert w. induction n as [|n IH]; intros w; [reflexivity|].
  cbn [iterations]. rewrite IH.
  cbn [uniforms iteration after_frame emit].
  now apply write_uniform_other.
Qed.

End Facts.

(** ** A log whose length an [int32] cannot hold with one more byte

    [INFO_LOG_LENGTH] counts the zero byte that ends the log, so the
    longest log it can report has [2^31 - 2] bytes.  For that log
    [logLength + 1] wraps around to [-2^31] and [strings.Repeat] panics. *)





(** * Example environments *)

Module Demo.

Definition picture : Image :=
  {| Bounds := {| Min := {| X := 0; Y := 0 |}; Max := {| X := 2; Y := 2 |} |};
     At := fun _ _ => [255; 255; 255; 255] |}.

Definition vertex_source : string := "void main() { gl_Position = vec4(0); }".
Definition fragment_source : string := "void main() { outColor = vec4(1); }".

(** Half a second for each reading of the clock. *)
Definition half_seconds (n : nat) : Float.float64 :=
  binary_normalize Float.prec64 Float.emax64 (Z.of_nat n) (-1) false.

(** An environment in which the vertex shader, the fragment shader and
    the linker succeed or fail as told, with the given information log;
    the image decodes or not; its rows carry [padding] extra bytes; the
    attribute [color] has location [color]; and the window closes at the
    query number [frames]. *)
Definition env (vertex_ok fragment_ok link_ok : bool) (log : string)
    (decodes : bool) (padding color : Z) (frames : nat) : Env :=
  {| glfw_init_err := None;
     create_window_err := None;
     gl_init_err := None;
     read_file := fun file =>
       if String.eqb file "vertex.glsl" then inl vertex_source
       else if String.eqb file "fragment.glsl" then inl fragment_source
       else inr "open: no such file or directory";
     compile_status := fun kind _ =>
       if kind =? gl.VERTEX_SHADER then vertex_ok else fragment_ok;
     shader_info_log := fun kind _ =>
       if (if kind =? gl.VERTEX_SHADER then vertex_ok else fragment_ok)
       then EmptyString else log;
     link_status := fun _ => link_ok;
     program_info_log := fun _ => if link_ok then EmptyString else log;
     attrib_location := fun name =>
       if String.eqb name "position" then 0
       else if String.eqb name "color" then color
       else if String.eqb name "texCoord" then 2
       else -1;
     uniform_location := fun name =>
       if String.eqb name "model" then 0
       else if String.eqb name "view" then 1
       else if String.eqb name "proj" then 2
       else -1;
     max_vertex_attribs := 16;
     open_err := fun _ => None;
     decode := fun _ =>
       if decodes then inl picture else inr "image: unknown format";
     NewRGBA := fun r =>
       {| Pix := repeat 0 (Z.to_nat ((4 * X (Rectangle_Size r) + padding)
                                      * Y (Rectangle_Size r)));
          Stride := 4 * X (Rectangle_Size r) + padding;
          Rect := r |};
     Draw_Src := fun dst _ => repeat 255 (length (Pix dst));
     clock := half_seconds;
     should_close := fun n => (frames <=? n)%nat |}.

(** Everything works and the window closes after two frames. *)
Definition good : Env := env true true true EmptyString true 0 1 2.

Lemma good_starts :
  good_start good vertex_source fragment_source picture.
Proof. repeat split. Defined.

Lemma good_closes : closes_after good 2.
Proof.
  split; [|reflexivity].
  intros i Hi. destruct i as [|[|i]]; [reflexivity|reflexivity|lia].
Defined.

End Demo.

(** * The claims of the specification *)

(** ** C1: the order of a frame, and one draw of 36 vertices for each *)

(** C1.  After a good start, when the window closes at its [n]-th query,
    [main] returns without a panic and its trace is the start-up followed
    by [n] iterations, each of them exactly: the close query, the clear of
    the colour and depth buffers, the reading of the clock, the upload to
    the model uniform of the rotation about Z by
    [float32(now - startTime)], one [DrawArrays(TRIANGLES, 0, 36)], the
    buffer swap and the event poll.  The draw calls of the whole run are
    [n] in number and each is [DrawArrays(TRIANGLES, 0, 36)]. *)
Theorem frame_order_and_draw_count (env : Env) (vsrc fsrc : string)
    (img : Image) (n fuel : nat) :
  good_start env vsrc fsrc img ->
  closes_after env n ->
  (n < fuel)%nat ->
  exists w : World,
    main env fuel init_world = Ok tt w /\
    trace w =
      startup_calls env vsrc fsrc img ++
      flat_map
        (fun i =>
           let now := clock env (1 + i) in
           [ShouldClose false;
            Clear (Z.lor gl.COLOR_BUFFER_BIT gl.DEPTH_BUFFER_BIT);
            GetTime now;
            UniformMatrix4fv (uniform_location env "model") 1 false
              (HomogRotate3DZ
                 (Float.to_float32 (Float.sub64 now (clock env 0))));
            DrawArrays gl.TRIANGLES 0 36;
            SwapBuffers;
            PollEvents])
        (seq 0 n) ++
      [ShouldClose true; glfw_Terminate] /\
    List.filter is_draw (trace w) = repeat (DrawArrays gl.TRIANGLES 0 36) n.
Proof.
  intros Hgood Hclose Hfuel.
  eexists. split; [apply (main_good_closed env _ _ _ _ _ Hgood Hclose Hfuel)|].
  cbn [trace glfw.Terminate emit].
  rewrite iterations_trace, (started_trace env _ _ _ Hgood).
  destruct (started_counters env vsrc fsrc img) as [_ ->].
  split.
  - rewrite <- !app_assoc. reflexivity.
  - rewrite !List.filter_app, startup_draws, loop_draws. cbn.
    now rewrite !app_nil_r.
Qed.

Lemma frame_order_and_draw_count_witness :
  good_start Demo.good Demo.vertex_source Demo.fragment_source Demo.picture /\
  closes_after Demo.good 2 /\
  (2 < 5)%nat /\
  exists w : World,
    main Demo.good 5 init_world = Ok tt w /\
    List.filter is_draw (trace w) =
      [DrawArrays gl.TRIANGLES 0 36; DrawArrays gl.TRIANGLES 0 36].
Proof.
  split; [exact Demo.good_starts|].
  split; [exact Demo.good_closes|].
  split; [lia|].
  destruct (frame_order_and_draw_count Demo.good _ _ _ 2 5
              Demo.good_starts Demo.good_closes) as (w & Hmain & _ & Hdraws);
    [lia|].
  exists w. split; [exact Hmain | exact Hdraws].
Defined.
(** ** C2: a shader that does not compile *)

Module CompileFailure.


(** The vertex shader fails to compile with a diagnostic. *)
Definition vertex_broken : Env :=
  Demo.env false true true "0:1: syntax error" true 0 1 2.

End CompileFailure.




(** ** C3: a program that does not link *)

Module LinkFailure.

(** Both shaders compile and the linker fails with a diagnostic. *)
Definition unlinked : Env :=
  Demo.env true true false "error: undefined main" true 0 1 2.

Lemma compiles_both :
  compiles unlinked "vertex.glsl" "fragment.glsl"
    Demo.vertex_source Demo.fragment_source.
Proof. repeat split. Defined.




End LinkFailure.




(** ** C4: what [newProgram] releases *)

(** After a successful link both shader objects have been passed to
    [DeleteShader]; being attached to the program they are flagged for
    deletion, and the two calls end the trace. *)
Lemma newProgram_success_releases (env : Env) (vfile ffile vsrc fsrc : string)
    (w : World) :
  compiles env vfile ffile vsrc fsrc ->
  link_status env (linked_sources vsrc fsrc) = true ->
  exists w',
    newProgram env vfile ffile w = Ok (fresh w + 2, None) w' /\
    (exists calls,
       trace w' = calls ++ [DeleteShader (fresh w); DeleteShader (fresh w + 1)]) /\
    sh_flagged <$> shaders w' !! fresh w = Some true /\
    sh_flagged <$> shaders w' !! (fresh w + 1) = Some true.
Proof.
  intros Hcomp Hl. eexists. split.
  - rewrite (newProgram_compiled env _ _ _ _ w Hcomp) by congruence.
    rewrite Hl. reflexivity.
  - cbn [after_link trace shaders]. unfold link_calls. rewrite Hl.
    split; [|split].
    + eexists. rewrite !app_assoc.
      change [GetProgramiv (fresh w + 2) gl.LINK_STATUS gl.TRUE;
              DeleteShader (fresh w); DeleteShader (fresh w + 1)]
        with ([GetProgramiv (fresh w + 2) gl.LINK_STATUS gl.TRUE] ++
              [DeleteShader (fresh w); DeleteShader (fresh w + 1)]).
      rewrite app_assoc. reflexivity.
    + rewrite lookup_insert_ne by lia. rewrite lookup_insert_eq. reflexivity.
    + rewrite lookup_insert_eq. reflexivity.
Qed.

(** C4, at a failing link: [newProgram] returns the error and leaves the
    two shader objects and the program object allocated.  Neither shader
    is flagged for deletion and no [DeleteShader] call was made. *)
Theorem link_failure_keeps_objects (env : Env) (vfile ffile vsrc fsrc : string)
    (w : World) :
  compiles env vfile ffile vsrc fsrc ->
  link_status env (linked_sources vsrc fsrc) = false ->
  Z.of_nat (String.length (program_info_log env (linked_sources vsrc fsrc)))
    + 2 < 2 ^ 31 ->
  exists (e : error) (w' : World) (calls : list Call),
    newProgram env vfile ffile w = Ok (0, Some e) w' /\
    shaders w' !! fresh w = Some (compiled_shader env gl.VERTEX_SHADER vsrc) /\
    shaders w' !! (fresh w + 1)
      = Some (compiled_shader env gl.FRAGMENT_SHADER fsrc) /\
    programs w' !! (fresh w + 2)
      = Some {| pr_attached := [fresh w; fresh w + 1]; pr_linked := false |} /\
    trace w' = trace w ++ calls /\
    Forall (fun c => forall s, c <> DeleteShader s) calls.
Proof.
  intros Hcomp Hl Hlen. eexists. eexists. eexists. split.
  - rewrite (newProgram_compiled env _ _ _ _ w Hcomp (fun _ => Hlen)).
    rewrite Hl. reflexivity.
  - cbn [after_link trace shaders programs]. unfold link_calls. rewrite Hl.
    split; [|split; [|split; [|split]]].
    + rewrite lookup_insert_ne by lia. apply lookup_insert_eq.
    + apply lookup_insert_eq.
    + apply lookup_insert_eq.
    + reflexivity.
    + unfold compile_calls. cbn [app].
      repeat (constructor; [intros s; discriminate|]).
      constructor.
Qed.

Lemma link_failure_keeps_objects_witness :
  let env := LinkFailure.unlinked in
  let w' := world_of (newProgram env "vertex.glsl" "fragment.glsl" init_world) in
  compiles env "vertex.glsl" "fragment.glsl"
    Demo.vertex_source Demo.fragment_source /\
  link_status env (linked_sources Demo.vertex_source Demo.fragment_source)
    = false /\
  sh_flagged <$> shaders w' !! 1 = Some false /\
  sh_flagged <$> shaders w' !! 2 = Some false /\
  pr_attached <$> programs w' !! 3 = Some [1; 2].
Proof.
  cbv zeta.
  split; [exact LinkFailure.compiles_both|]. split; [reflexivity|].
  destruct (link_failure_keeps_objects LinkFailure.unlinked
              "vertex.glsl" "fragment.glsl"
              Demo.vertex_source Demo.fragment_source init_world
              LinkFailure.compiles_both eq_refl)
    as (e & w' & calls & Hnp & Hv & Hf & Hp & _).
  - vm_compute. reflexivity.
  - rewrite Hnp. cbn [world_of].
    change (fresh init_world) with 1 in Hv.
    change (fresh init_world + 1) with 2 in Hf.
    change (fresh init_world + 2) with 3 in Hp.
    rewrite Hv, Hf, Hp. repeat split.
Defined.
(** ** C5 and C9: the errors of [newTexture] *)

Module TextureFailure.

(** The file opens and is not an image. *)
Definition undecodable : Env := Demo.env true true true EmptyString false 0 1 2.

(** The image decodes and the RGBA buffer has four bytes of padding at
    the end of each row. *)
Definition padded : Env := Demo.env true true true EmptyString true 4 1 2.

End TextureFailure.

(** C5.  The error of [image.Decode] is never returned by [newTexture]:
    when the file opens and does not decode, [newTexture] does not return
    at all, it panics on the nil image; and whenever [newTexture] returns
    an error, that error is the one of [os.Open] or it is
    ["unsupported stride"] for an image that did decode. *)
Theorem decode_error_is_discarded (env : Env) (file : string) (texNum : Z)
    (w : World) :
  (forall e,
     open_err env file = None -> decode env file = inr e ->
     newTexture env file texNum w =
     Panic NilDereference (emit (image_Decode file) (emit (os_Open file) w))) /\
  (forall h err w',
     newTexture env file texNum w = Ok (h, Some err) w' ->
     open_err env file = Some err \/
     (open_err env file = None /\
      exists img,
        decode env file = inl img /\
        contiguous (texture_buffer env img) = false /\
        err = "unsupported stride")).
Proof.
  split.
  - intros e Ho Hd. apply (newTexture_undecoded env file texNum e w Ho Hd).
  - intros h err w' Hret.
    destruct (open_err env file) as [e|] eqn:Ho.
    + rewrite (newTexture_unopened env file texNum e w Ho) in Hret.
      left. congruence.
    + right. split; [reflexivity|].
      destruct (decode env file) as [img|e] eqn:Hd.
      * exists img. split; [reflexivity|].
        destruct (contiguous (texture_buffer env img)) eqn:Hs.
        -- rewrite (newTexture_loaded env file texNum img w Ho Hd Hs) in Hret.
           discriminate.
        -- rewrite (newTexture_stride env file texNum img w Ho Hd Hs) in Hret.
           split; [reflexivity | congruence].
      * rewrite (newTexture_undecoded env file texNum e w Ho Hd) in Hret.
        discriminate.
Qed.

Lemma decode_error_is_discarded_witness :
  let env := TextureFailure.undecodable in
  open_err env "kitten.png" = None /\
  decode env "kitten.png" = inr "image: unknown format" /\
  newTexture env "kitten.png" gl.TEXTURE0 init_world =
  Panic NilDereference
    (emit (image_Decode "kitten.png") (emit (os_Open "kitten.png") init_world)).
Proof.
  cbv zeta. split; [reflexivity|]. split; [reflexivity|].
  apply (proj1 (decode_error_is_discarded TextureFailure.undecodable
                  "kitten.png" gl.TEXTURE0 init_world)
           "image: unknown format");
    reflexivity.
Defined.

(** C9.  When the RGBA buffer allocated for the decoded image has a stride
    other than four times its width, [newTexture] returns handle 0 and the
    error ["unsupported stride"]; it has made no OpenGL call, so no texture
    was uploaded; and [main], which loads [kitten.png] after the program
    has been built, panics with that error. *)
Theorem stride_mismatch_is_fatal (env : Env) (file : string) (texNum : Z)
    (img : Image) (w : World) :
  open_err env file = None ->
  decode env file = inl img ->
  Stride (texture_buffer env img)
    <> X (Rectangle_Size (Rect (texture_buffer env img))) * 4 ->
  (exists w',
     newTexture env file texNum w = Ok (0, Some "unsupported stride") w' /\
     trace w' = trace w ++ [os_Open file; image_Decode file]) /\
  (file = "kitten.png" -> texNum = gl.TEXTURE0 -> starts env ->
   forall vsrc fsrc,
     compiles env "vertex.glsl" "fragment.glsl" vsrc fsrc ->
     link_status env (linked_sources vsrc fsrc) = true ->
     forall fuel, exists w',
       main env fuel init_world = Panic (PanicError "unsupported stride") w').
Proof.
  intros Ho Hd Hstride.
  assert (Hs : contiguous (texture_buffer env img) = false).
  { unfold contiguous. apply Z.eqb_neq, Hstride. }
  split.
  - eexists. split; [apply (newTexture_stride env file texNum img w Ho Hd Hs)|].
    cbn [trace emit]. rewrite <- app_assoc. reflexivity.
  - intros -> -> Hstarts vsrc fsrc Hcomp Hl fuel.
    eexists.
    eapply (main_newTexture_error env fuel vsrc fsrc 0); try eassumption.
    apply (newTexture_stride env _ _ img _ Ho Hd Hs).
Qed.

Lemma stride_mismatch_is_fatal_witness :
  let env := TextureFailure.padded in
  open_err env "kitten.png" = None /\
  decode env "kitten.png" = inl Demo.picture /\
  Stride (texture_buffer env Demo.picture) = 12 /\
  X (Rectangle_Size (Rect (texture_buffer env Demo.picture))) * 4 = 8 /\
  exists w',
    main env 5 init_world = Panic (PanicError "unsupported stride") w'.
Proof.
  cbv zeta. split; [reflexivity|]. split; [reflexivity|].
  split; [reflexivity|]. split; [reflexivity|].
  destruct (stride_mismatch_is_fatal TextureFailure.padded "kitten.png"
              gl.TEXTURE0 Demo.picture init_world eq_refl eq_refl)
    as [_ Hmain].
  - vm_compute. discriminate.
  - apply (Hmain eq_refl eq_refl) with
      (vsrc := Demo.vertex_source) (fsrc := Demo.fragment_source);
      repeat split.
Defined.
(** ** C6: an attribute that the program does not use *)

(** The attributes that [main] sets up: name, number of components and
    byte offset within a vertex. *)
Definition attribute_layout : list (string * Z * Z) :=
  [("position", 3, 0); ("color", 3, 12); ("texCoord", 2, 24)].

(** The same environment with other attribute locations. *)
Definition with_attrib_location (env : Env) (location : string -> Z) : Env :=
  {| glfw_init_err := glfw_init_err env;
     create_window_err := create_window_err env;
     gl_init_err := gl_init_err env;
     read_file := read_file env;
     compile_status := compile_status env;
     shader_info_log := shader_info_log env;
     link_status := link_status env;
     program_info_log := program_info_log env;
     attrib_location := location;
     uniform_location := uniform_location env;
     max_vertex_attribs := max_vertex_attribs env;
     open_err := open_err env;
     decode := decode env;
     NewRGBA := NewRGBA env;
     Draw_Src := Draw_Src env;
     clock := clock env;
     should_close := should_close env |}.

Module InactiveAttribute.

(** The program does not use [color]: its location is -1. *)
Definition colourless : Env := Demo.env true true true EmptyString true 0 (-1) 2.

Lemma colourless_starts :
  good_start colourless Demo.vertex_source Demo.fragment_source Demo.picture.
Proof. repeat split. Defined.

Lemma colourless_closes : closes_after colourless 2.
Proof.
  split; [|reflexivity].
  intros i Hi. destruct i as [|[|i]]; [reflexivity|reflexivity|lia].
Defined.

End InactiveAttribute.

(** C6.  For an attribute of the layout whose location query answers -1:
    the index that [main] passes is [uint32(-1) = 2^32 - 1]; the attribute
    set-up returns without a panic, having passed that index to
    [VertexAttribPointer] and to [EnableVertexAttribArray]; both calls
    change no attribute state (the index is not below
    [MAX_VERTEX_ATTRIBS], they raise [INVALID_VALUE] and are ignored);
    [newProgram] does not depend on the attribute locations, so linking
    succeeds as it would otherwise; and after a good start [main] runs to
    its end. *)
Theorem inactive_attribute_is_ignored (env : Env) (name : string)
    (size offset : Z) :
  In (name, size, offset) attribute_layout ->
  attrib_location env name = -1 ->
  max_vertex_attribs env <= 2 ^ 32 - 1 ->
  attrib_index env name = 2 ^ 32 - 1 /\
  (forall program w,
     let w' := after_attributes env program w in
     attributes env program w = Ok tt w' /\
     In (VertexAttribPointer (2 ^ 32 - 1) size gl.FLOAT false 32 offset)
        (trace w') /\
     In (EnableVertexAttribArray (2 ^ 32 - 1)) (trace w')) /\
  (forall m, set_attrib env name size offset m = m) /\
  attrib_errors env name = [gl.INVALID_VALUE; gl.INVALID_VALUE] /\
  (forall location vfile ffile w,
     newProgram (with_attrib_location env location) vfile ffile w =
     newProgram env vfile ffile w) /\
  (forall vsrc fsrc img n fuel,
     good_start env vsrc fsrc img -> closes_after env n -> (n < fuel)%nat ->
     exists w, main env fuel init_world = Ok tt w).
Proof.
  intros Hin Hloc Hmax.
  assert (Hidx : attrib_index env name = 2 ^ 32 - 1).
  { unfold attrib_index. rewrite Hloc. reflexivity. }
  assert (Hhigh : (attrib_index env name <? max_vertex_attribs env) = false).
  { rewrite Hidx. lia. }
  split; [exact Hidx|].
  split.
  { intros program w w'. split; [apply attributes_run|].
    subst w'. unfold after_attributes.
    cbn [trace after_attrib]. unfold attrib_calls.
    rewrite <- Hidx.
    cbn [In] in Hin.
    destruct Hin as [H | [H | [H | []]]]; inversion H; subst; clear H;
      change (8 * 4) with 32; split; rewrite !in_app_iff; cbn [In]; tauto. }
  split.
  { intros m. unfold set_attrib. now rewrite Hhigh. }
  split.
  { unfold attrib_errors. now rewrite Hhigh. }
  split; [reflexivity|].
  intros vsrc fsrc img n fuel Hgood Hclose Hfuel.
  eexists. apply (main_good_closed env _ _ _ _ _ Hgood Hclose Hfuel).
Qed.

Lemma inactive_attribute_is_ignored_witness :
  let env := InactiveAttribute.colourless in
  In ("color", 3, 12) attribute_layout /\
  attrib_location env "color" = -1 /\
  max_vertex_attribs env <= 2 ^ 32 - 1 /\
  attrib_index env "color" = 4294967295 /\
  attribs (world_of (attributes env 3 init_world)) !! 4294967295 = None /\
  exists w, main env 5 init_world = Ok tt w.
Proof.
  cbv zeta.
  split; [right; left; reflexivity|]. split; [reflexivity|].
  split; [vm_compute; discriminate|].
  destruct (inactive_attribute_is_ignored InactiveAttribute.colourless
              "color" 3 12)
    as (Hidx & Hrun & Hnoop & _ & _ & Hmain).
  - right; left; reflexivity.
  - reflexivity.
  - vm_compute. discriminate.
  - split; [exact Hidx|]. split.
    + destruct (Hrun 3 init_world) as [-> _]. reflexivity.
    + apply (Hmain _ _ _ 2%nat 5%nat InactiveAttribute.colourless_starts
               InactiveAttribute.colourless_closes). lia.
Defined.
(** ** C7: the view and projection uniforms are written once *)

(** The calls that write a matrix uniform all go to [location]. *)
Definition only_writes (location : Z) (calls : list Call) : Prop :=
  Forall (fun c => match c with
                   | UniformMatrix4fv l _ _ _ => l = location
                   | _ => True
                   end) calls.

Lemma loop_only_writes (env : Env) (model : Z) (startTime : Float.float64)
    (t n : nat) :
  only_writes model (loop_calls env model startTime t n).
Proof.
  unfold only_writes, loop_calls. generalize 0%nat as s.
  induction n as [|n IH]; intros s; [constructor|].
  cbn [seq flat_map]. apply Forall_app. split; [|apply IH].
  unfold frame_calls. repeat constructor.
Qed.

(** C7.  In every run of [main] after a good start, whatever the bound on
    the iterations and whenever the window closes, and provided the three
    uniforms have distinct locations: the trace is the start-up followed by
    whole iterations and possibly the closing calls; the view matrix and
    the projection matrix are each written exactly once, in the start-up,
    and not in any iteration; every uniform write of an iteration goes to
    the model matrix; and the values stored for view and projection are
    still the ones of the start-up. *)
Theorem view_and_proj_written_once (env : Env) (vsrc fsrc : string)
    (img : Image) (fuel : nat) :
  good_start env vsrc fsrc img ->
  uniModel env <> uniView env ->
  uniModel env <> uniProj env ->
  uniView env <> uniProj env ->
  let w := world_of (main env fuel init_world) in
  let view_write := UniformMatrix4fv (uniView env) 1 false matView in
  let proj_write := UniformMatrix4fv (uniProj env) 1 false matProj in
  exists (n : nat) (closing : list Call),
    let loop := loop_calls env (uniModel env) (clock env 0) 1 n ++ closing in
    trace w = startup_calls env vsrc fsrc img ++ loop /\
    List.filter (writes (uniView env)) (startup_calls env vsrc fsrc img)
      = [view_write] /\
    List.filter (writes (uniProj env)) (startup_calls env vsrc fsrc img)
      = [proj_write] /\
    List.filter (writes (uniView env)) loop = [] /\
    List.filter (writes (uniProj env)) loop = [] /\
    only_writes (uniModel env) loop /\
    List.filter (writes (uniView env)) (trace w) = [view_write] /\
    List.filter (writes (uniProj env)) (trace w) = [proj_write] /\
    (uniView env <> -1 -> uniforms w !! uniView env = Some matView) /\
    (uniProj env <> -1 -> uniforms w !! uniProj env = Some matProj).
Proof.
  intros Hgood Hmv Hmp Hvp w view_write proj_write.
  destruct (main_good_trace env vsrc fsrc img fuel Hgood)
    as (n & closing & _ & Hclosing & Htrace & Huni).
  exists n, closing. cbv zeta.
  assert (Hsv : List.filter (writes (uniView env))
                  (startup_calls env vsrc fsrc img) = [view_write]).
  { change (List.filter (writes (uniView env))
              (startup_calls env vsrc fsrc img))
      with (List.filter (writes (uniView env)) [view_write; proj_write]).
    cbn [List.filter writes view_write proj_write].
    rewrite Z.eqb_refl. replace (uniProj env =? uniView env) with false by lia.
    reflexivity. }
  assert (Hsp : List.filter (writes (uniProj env))
                  (startup_calls env vsrc fsrc img) = [proj_write]).
  { change (List.filter (writes (uniProj env))
              (startup_calls env vsrc fsrc img))
      with (List.filter (writes (uniProj env)) [view_write; proj_write]).
    cbn [List.filter writes view_write proj_write].
    rewrite Z.eqb_refl. replace (uniView env =? uniProj env) with false by lia.
    reflexivity. }
  assert (Hc : forall l, List.filter (writes l) closing = []).
  { intros l. destruct Hclosing as [-> | ->]; reflexivity. }
  assert (Hlv : List.filter (writes (uniView env))
                  (loop_calls env (uniModel env) (clock env 0) 1 n ++ closing)
                = []).
  { rewrite List.filter_app, loop_writes, Hc by exact Hmv. reflexivity. }
  assert (Hlp : List.filter (writes (uniProj env))
                  (loop_calls env (uniModel env) (clock env 0) 1 n ++ closing)
                = []).
  { rewrite List.filter_app, loop_writes, Hc by exact Hmp. reflexivity. }
  split; [exact Htrace|].
  split; [exact Hsv|]. split; [exact Hsp|].
  split; [exact Hlv|]. split; [exact Hlp|].
  split.
  { apply Forall_app. split; [apply loop_only_writes|].
    destruct Hclosing as [-> | ->]; repeat constructor. }
  split.
  { unfold w. rewrite Htrace, List.filter_app, Hsv, Hlv. reflexivity. }
  split.
  { unfold w. rewrite Htrace, List.filter_app, Hsp, Hlp. reflexivity. }
  split.
  - intros Hv. unfold w. rewrite Huni, iterations_uniforms by exact Hmv.
    cbn [started uniforms after_uniforms].
    rewrite write_uniform_other by (intros E; apply Hvp; now rewrite E).
    now apply write_uniform_same.
  - intros Hp. unfold w. rewrite Huni, iterations_uniforms by exact Hmp.
    cbn [started uniforms after_uniforms].
    now apply write_uniform_same.
Qed.

Lemma view_and_proj_written_once_witness :
  let env := Demo.good in
  let w := world_of (main env 1 init_world) in
  good_start env Demo.vertex_source Demo.fragment_source Demo.picture /\
  uniModel env <> uniView env /\
  uniModel env <> uniProj env /\
  uniView env <> uniProj env /\
  List.filter (writes 1) (trace w) = [UniformMatrix4fv 1 1 false matView] /\
  List.filter (writes 2) (trace w) = [UniformMatrix4fv 2 1 false matProj] /\
  uniforms w !! 1 = Some matView /\
  uniforms w !! 2 = Some matProj.
Proof.
  cbv zeta.
  assert (Hmv : uniModel Demo.good <> uniView Demo.good) by discriminate.
  assert (Hmp : uniModel Demo.good <> uniProj Demo.good) by discriminate.
  assert (Hvp : uniView Demo.good <> uniProj Demo.good) by discriminate.
  split; [exact Demo.good_starts|].
  split; [exact Hmv|]. split; [exact Hmp|]. split; [exact Hvp|].
  destruct (view_and_proj_written_once Demo.good Demo.vertex_source
              Demo.fragment_source Demo.picture 1 Demo.good_starts
              Hmv Hmp Hvp)
    as (n & closing & _ & _ & _ & _ & _ & _ & Hv & Hp & Huv & Hup).
  split; [exact Hv|]. split; [exact Hp|].
  split; [apply Huv | apply Hup]; intros E; discriminate E.
Defined.
(** ** C10: the vertex table, its upload and the vertices drawn *)

(** A vertex as the shaders read it: eight consecutive floats. *)
Record VertexRecord : Type := {
  position : Q * Q * Q;
  color : Q * Q * Q;
  texCoord : Q * Q
}.

Fixpoint records (l : list Q) : list VertexRecord :=
  match l with
  | x :: y :: z :: r :: g :: b :: u :: v :: rest =>
      {| position := (x, y, z); color := (r, g, b); texCoord := (u, v) |}
      :: records rest
  | _ => []
  end.

Definition is_either (a b q : Q) : bool := Qeq_bool q a || Qeq_bool q b.

(** A corner of the cube of side 1 around the origin, in white. *)
Definition is_cube_vertex (v : VertexRecord) : bool :=
  let '(x, y, z) := position v in
  let '(r, g, b) := color v in
  is_either (-0.5) 0.5 x && is_either (-0.5) 0.5 y && is_either (-0.5) 0.5 z &&
  Qeq_bool r 1 && Qeq_bool g 1 && Qeq_bool b 1.

(** A corner of the square of side 2 in the plane [z = -0.5], in black. *)
Definition is_ground_vertex (v : VertexRecord) : bool :=
  let '(x, y, z) := position v in
  let '(r, g, b) := color v in
  is_either (-1) 1 x && is_either (-1) 1 y && Qeq_bool z (-0.5) &&
  Qeq_bool r 0 && Qeq_bool g 0 && Qeq_bool b 0.

(** The indices of the vertices that a call draws. *)
Definition drawn (c : Call) : list nat :=
  match c with
  | DrawArrays _ first count => seq (Z.to_nat first) (Z.to_nat count)
  | _ => []
  end.

Lemma filter_repeat_all {A : Type} (f : A -> bool) (l : list A) (x : A) (n : nat) :
  List.filter f l = repeat x n ->
  forall c, In c l -> f c = true -> c = x.
Proof.
  intros Hf c Hin Hc.
  assert (Hc' : In c (List.filter f l)) by (apply filter_In; split; assumption).
  rewrite Hf in Hc'. now apply repeat_spec in Hc'.
Qed.

(** C10.  The vertex table has 336 floats, that is 42 vertices of 8 floats:
    36 corners of the cube followed by 6 corners of the ground square.  In
    every run of [main] after a good start the table is uploaded by exactly
    one [BufferData] call, whole (1344 bytes, [STATIC_DRAW]); every draw
    call is [DrawArrays(TRIANGLES, 0, 36)]; so no call ever draws a vertex
    of index 36 or more, and the ground square is uploaded and not drawn. *)
Theorem vertex_table_upload_and_draw (env : Env) (vsrc fsrc : string)
    (img : Image) (fuel : nat) :
  good_start env vsrc fsrc img ->
  let w := world_of (main env fuel init_world) in
  length vertices = 336%nat /\
  length (records vertices) = 42%nat /\
  (42 * 8 = 336)%nat /\
  forallb is_cube_vertex (firstn 36 (records vertices)) = true /\
  forallb is_ground_vertex (skipn 36 (records vertices)) = true /\
  length (skipn 36 (records vertices)) = 6%nat /\
  List.filter is_upload (trace w) =
    [BufferData gl.ARRAY_BUFFER 1344 vertices gl.STATIC_DRAW] /\
  Forall (fun c => c = DrawArrays gl.TRIANGLES 0 36)
    (List.filter is_draw (trace w)) /\
  Forall (fun c => forall i, In i (drawn c) -> (i < 36)%nat) (trace w).
Proof.
  intros Hgood w.
  destruct (main_good_trace env vsrc fsrc img fuel Hgood)
    as (n & closing & _ & Hclosing & Htrace & _).
  assert (Hdraws : List.filter is_draw (trace w)
                   = repeat (DrawArrays gl.TRIANGLES 0 36) n).
  { unfold w. rewrite Htrace, !List.filter_app, startup_draws, loop_draws.
    destruct Hclosing as [-> | ->]; cbn [List.filter is_draw app];
      now rewrite app_nil_r. }
  split; [reflexivity|]. split; [reflexivity|]. split; [reflexivity|].
  split; [vm_compute; reflexivity|]. split; [vm_compute; reflexivity|].
  split; [reflexivity|].
  split.
  { unfold w. rewrite Htrace, !List.filter_app, startup_uploads, loop_uploads.
    destruct Hclosing as [-> | ->]; reflexivity. }
  split.
  { rewrite Hdraws. apply Forall_forall. intros c Hc.
    apply list_elem_of_In in Hc. now apply repeat_spec in Hc. }
  apply Forall_forall. intros c Hc i Hi.
  destruct (is_draw c) eqn:Hd.
  - rewrite (filter_repeat_all is_draw _ _ _ Hdraws c) in Hi.
    + cbn [drawn] in Hi. apply in_seq in Hi. lia.
    + apply list_elem_of_In. exact Hc.
    + exact Hd.
  - destruct c; cbn [drawn] in Hi; try contradiction. discriminate Hd.
Qed.

Lemma vertex_table_upload_and_draw_witness :
  let w := world_of (main Demo.good 5 init_world) in
  good_start Demo.good Demo.vertex_source Demo.fragment_source Demo.picture /\
  List.filter is_upload (trace w) =
    [BufferData gl.ARRAY_BUFFER 1344 vertices gl.STATIC_DRAW] /\
  Forall (fun c => c = DrawArrays gl.TRIANGLES 0 36)
    (List.filter is_draw (trace w)).
Proof.
  cbv zeta. split; [exact Demo.good_starts|].
  destruct (vertex_table_upload_and_draw Demo.good Demo.vertex_source
              Demo.fragment_source Demo.picture 5 Demo.good_starts)
    as (_ & _ & _ & _ & _ & _ & Hup & Hdraw & _).
  split; [exact Hup | exact Hdraw].
Defined.

(** * Rounding to nearest, ties to even *)

Module Rounding.

(** [rne X N]: the integer nearest to [X / 2 ^ N], the even one at a tie. *)
Definition rne (X N : Z) : Z :=
  let q := X / 2 ^ N in
  let r := X mod 2 ^ N in
  match 2 * r ?= 2 ^ N with
  | Lt => q
  | Gt => q + 1
  | Eq => if Z.even q then q else q + 1
  end.

Lemma pow2_pos (n : Z) : 0 <= n -> 0 < 2 ^ n.
Proof. intros H. apply Z.pow_pos_nonneg; lia. Qed.

Lemma rne_bounds (X N : Z) : 0 <= N -> X / 2 ^ N <= rne X N <= X / 2 ^ N + 1.
Proof.
  intros HN. unfold rne.
  destruct (2 * (X mod 2 ^ N) ?= 2 ^ N); [destruct (Z.even _)| |]; lia.
Qed.

Lemma rne_exact (q N : Z) : 0 <= N -> rne (q * 2 ^ N) N = q.
Proof.
  intros HN. pose proof (pow2_pos N HN) as Hp. unfold rne.
  rewrite Z.mod_mul, Z.div_mul by lia.
  assert (E : (2 * 0 ?= 2 ^ N) = Lt) by (apply Z.compare_lt_iff; lia).
  rewrite E. reflexivity.
Qed.

Lemma rne_0 (X : Z) : rne X 0 = X.
Proof.
  unfold rne. change (2 ^ 0) with 1.
  rewrite Z.div_1_r, Z.mod_1_r. reflexivity.
Qed.

Lemma rne_mono (X1 X2 N : Z) : 0 <= N -> X1 <= X2 -> rne X1 N <= rne X2 N.
Proof.
  intros HN HX. pose proof (pow2_pos N HN) as Hp.
  pose proof (Z.div_le_mono X1 X2 (2 ^ N) Hp HX) as Hq.
  pose proof (rne_bounds X1 N HN) as [_ H1].
  pose proof (rne_bounds X2 N HN) as [H2 _].
  destruct (Z.eq_dec (X1 / 2 ^ N) (X2 / 2 ^ N)) as [Heq | Hne]; [|lia].
  assert (Hr : X1 mod 2 ^ N <= X2 mod 2 ^ N).
  { pose proof (Z.div_mod X1 (2 ^ N)). pose proof (Z.div_mod X2 (2 ^ N)). nia. }
  unfold rne. rewrite Heq.
  destruct (2 * (X1 mod 2 ^ N) ?= 2 ^ N) eqn:C1;
    destruct (2 * (X2 mod 2 ^ N) ?= 2 ^ N) eqn:C2;
    try destruct (Z.even (X2 / 2 ^ N));
    rewrite ?Z.compare_eq_iff, ?Z.compare_lt_iff, ?Z.compare_gt_iff in *; lia.
Qed.

Lemma rne_ge (X N k : Z) : 0 <= N -> k * 2 ^ N <= X -> k <= rne X N.
Proof.
  intros HN H. rewrite <- (rne_exact k N HN). now apply rne_mono.
Qed.

Lemma rne_le (X N k : Z) : 0 <= N -> X <= k * 2 ^ N -> rne X N <= k.
Proof.
  intros HN H. rewrite <- (rne_exact k N HN). now apply rne_mono.
Qed.

(** Scaling the number and the grid together changes nothing. *)
Lemma rne_scale (X N k : Z) :
  0 <= N -> 0 <= k -> rne (X * 2 ^ k) (N + k) = rne X N.
Proof.
  intros HN Hk. pose proof (pow2_pos N HN) as HpN.
  pose proof (pow2_pos k Hk) as Hpk. unfold rne.
  rewrite Z.pow_add_r by lia.
  rewrite Z.div_mul_cancel_r by lia.
  rewrite Zmult_mod_distr_r.
  assert (E : (2 * (X mod 2 ^ N * 2 ^ k) ?= 2 ^ N * 2 ^ k)
              = (2 * (X mod 2 ^ N) ?= 2 ^ N)).
  { destruct (2 * (X mod 2 ^ N) ?= 2 ^ N) eqn:C;
      rewrite ?Z.compare_eq_iff, ?Z.compare_lt_iff, ?Z.compare_gt_iff in *; nia. }
  rewrite E. reflexivity.
Qed.

(** ** The number of binary digits *)

Lemma digits2_size (p : positive) : digits2_pos p = Pos.size p.
Proof. induction p as [p IH|p IH|]; simpl; now rewrite ?IH. Qed.

Lemma digits_log2 (X : Z) : 0 < X -> Zdigits2 X = Z.log2 X + 1.
Proof.
  intros HX. destruct X as [|p|p]; try lia.
  unfold Zdigits2. rewrite digits2_size.
  destruct p as [p|p|]; simpl; lia.
Qed.

Lemma digits_spec (X : Z) :
  0 < X -> 2 ^ (Zdigits2 X - 1) <= X < 2 ^ Zdigits2 X.
Proof.
  intros HX. rewrite digits_log2 by lia.
  replace (Z.log2 X + 1 - 1) with (Z.log2 X) by lia.
  apply (Z.log2_spec X HX).
Qed.

Lemma digits_pos (X : Z) : 0 < X -> 1 <= Zdigits2 X.
Proof.
  intros HX. rewrite digits_log2 by lia.
  pose proof (Z.log2_nonneg X). lia.
Qed.

Lemma digits_mono (X1 X2 : Z) : 0 < X1 -> X1 <= X2 -> Zdigits2 X1 <= Zdigits2 X2.
Proof.
  intros H1 H2. rewrite !digits_log2 by lia.
  pose proof (Z.log2_le_mono X1 X2 H2). lia.
Qed.

Lemma digits_mul_pow2 (X k : Z) :
  0 < X -> 0 <= k -> Zdigits2 (X * 2 ^ k) = Zdigits2 X + k.
Proof.
  intros HX Hk. pose proof (pow2_pos k Hk).
  rewrite !digits_log2 by nia. rewrite Z.log2_mul_pow2 by lia. lia.
Qed.

(** [X] has more than [k] digits as soon as it reaches [2 ^ k]. *)
Lemma digits_gt (X k : Z) : 0 <= k -> 2 ^ k <= X -> k + 1 <= Zdigits2 X.
Proof.
  intros Hk H. pose proof (pow2_pos k Hk).
  rewrite digits_log2 by lia.
  pose proof (proj1 (Z.log2_le_pow2 X k ltac:(lia)) H). lia.
Qed.

Lemma digits_le (X k : Z) : 0 < X -> X < 2 ^ k -> Zdigits2 X <= k.
Proof.
  intros HX H.
  destruct (Z.le_gt_cases (Zdigits2 X) k) as [Hle|Hgt]; [exact Hle|].
  pose proof (digits_spec X HX) as [Hlow _].
  assert (0 <= k).
  { destruct (Z.le_gt_cases 0 k); [assumption|].
    rewrite Z.pow_neg_r in H by lia. lia. }
  assert (2 ^ k <= 2 ^ (Zdigits2 X - 1)) by (apply Z.pow_le_mono_r; lia).
  lia.
Qed.

(** ** Shifting a mantissa to the right *)

Lemma iter_pos_nat {A : Type} (f : A -> A) (p : positive) (x : A) :
  SpecFloat.iter_pos f p x = Nat.iter (Pos.to_nat p) f x.
Proof.
  revert x. induction p as [p IH|p IH|]; intros x; cbn [SpecFloat.iter_pos].
  - rewrite !IH, Pos2Nat.inj_xI.
    rewrite Nat.iter_succ_r.
    replace (2 * Pos.to_nat p)%nat with (Pos.to_nat p + Pos.to_nat p)%nat by lia.
    now rewrite Nat.iter_add.
  - rewrite !IH, Pos2Nat.inj_xO.
    replace (2 * Pos.to_nat p)%nat with (Pos.to_nat p + Pos.to_nat p)%nat by lia.
    now rewrite Nat.iter_add.
  - reflexivity.
Qed.

Lemma shr_1_nonneg (m : Z) (r s : bool) :
  0 <= m ->
  shr_1 {| shr_m := m; shr_r := r; shr_s := s |} =
  {| shr_m := m / 2; shr_r := Z.odd m; shr_s := r || s |}.
Proof.
  intros Hm. rewrite <- Z.div2_div.
  destruct m as [|[p|p|]|p]; try lia; reflexivity.
Qed.

(** [k + 1] shifts of an exact mantissa: the quotient, the last bit shifted
    out, and whether any bit below it was set. *)
Lemma shifted (m : Z) (k : nat) :
  0 <= m ->
  Nat.iter (S k) shr_1 {| shr_m := m; shr_r := false; shr_s := false |} =
  {| shr_m := m / 2 ^ Z.of_nat (S k);
     shr_r := Z.odd (m / 2 ^ Z.of_nat k);
     shr_s := negb (m mod 2 ^ Z.of_nat k =? 0) |}.
Proof.
  intros Hm. induction k as [|k IH].
  - cbn [Nat.iter]. rewrite shr_1_nonneg by lia.
    change (2 ^ Z.of_nat 1) with 2. change (2 ^ Z.of_nat 0) with 1.
    rewrite Z.div_1_r, Z.mod_1_r. reflexivity.
  - change (Nat.iter (S (S k)) shr_1 ?x) with (shr_1 (Nat.iter (S k) shr_1 x)).
    rewrite IH.
    assert (Hp : 0 < 2 ^ Z.of_nat k) by (apply pow2_pos; lia).
    assert (Hq : 0 <= m / 2 ^ Z.of_nat (S k)).
    { apply Z.div_pos; [lia | apply pow2_pos; lia]. }
    rewrite shr_1_nonneg by exact Hq.
    assert (E1 : 2 ^ Z.of_nat (S k) = 2 ^ Z.of_nat k * 2).
    { rewrite Nat2Z.inj_succ, Z.pow_succ_r by lia. lia. }
    assert (E2 : 2 ^ Z.of_nat (S (S k)) = 2 ^ Z.of_nat (S k) * 2).
    { rewrite (Nat2Z.inj_succ (S k)), Z.pow_succ_r by lia. lia. }
    f_equal.
    + rewrite E2, <- Z.div_div by lia. reflexivity.
    + rewrite E1, Z.rem_mul_r by lia.
      rewrite Zmod_odd.
      destruct (Z.odd (m / 2 ^ Z.of_nat k)) eqn:Hodd;
        pose proof (Z.mod_pos_bound m (2 ^ Z.of_nat k) Hp);
        destruct (m mod 2 ^ Z.of_nat k =? 0) eqn:Hz;
        cbn [orb negb]; symmetry; lia.
Qed.

(** Rounding the shifted mantissa with the bits that were shifted out. *)
Lemma round_shifted (m : Z) (k : nat) :
  0 <= m ->
  let mrs := Nat.iter (S k) shr_1
               {| shr_m := m; shr_r := false; shr_s := false |} in
  round_nearest_even (shr_m mrs) (loc_of_shr_record mrs)
  = rne m (Z.of_nat (S k)).
Proof.
  intros Hm mrs. subst mrs. rewrite shifted by exact Hm.
  cbn [shr_m]. unfold rne.
  assert (Hp : 0 < 2 ^ Z.of_nat k) by (apply pow2_pos; lia).
  assert (E1 : 2 ^ Z.of_nat (S k) = 2 ^ Z.of_nat k * 2).
  { rewrite Nat2Z.inj_succ, Z.pow_succ_r by lia. lia. }
  pose proof (Z.mod_pos_bound m (2 ^ Z.of_nat k) Hp) as Hlow.
  assert (Hr : m mod 2 ^ Z.of_nat (S k)
               = m mod 2 ^ Z.of_nat k
                 + 2 ^ Z.of_nat k * (if Z.odd (m / 2 ^ Z.of_nat k) then 1 else 0)).
  { rewrite E1, Z.rem_mul_r by lia. now rewrite Zmod_odd. }
  rewrite Hr.
  destruct (Z.odd (m / 2 ^ Z.of_nat k)) eqn:Hodd;
    destruct (m mod 2 ^ Z.of_nat k =? 0) eqn:Hz;
    cbn [negb loc_of_shr_record round_nearest_even].
  - assert (C : (2 * (m mod 2 ^ Z.of_nat k + 2 ^ Z.of_nat k * 1)
                 ?= 2 ^ Z.of_nat (S k)) = Eq) by (apply Z.compare_eq_iff; lia).
    rewrite C. reflexivity.
  - assert (C : (2 * (m mod 2 ^ Z.of_nat k + 2 ^ Z.of_nat k * 1)
                 ?= 2 ^ Z.of_nat (S k)) = Gt) by (apply Z.compare_gt_iff; lia).
    rewrite C. reflexivity.
  - assert (C : (2 * (m mod 2 ^ Z.of_nat k + 2 ^ Z.of_nat k * 0)
                 ?= 2 ^ Z.of_nat (S k)) = Lt) by (apply Z.compare_lt_iff; lia).
    rewrite C. reflexivity.
  - assert (C : (2 * (m mod 2 ^ Z.of_nat k + 2 ^ Z.of_nat k * 0)
                 ?= 2 ^ Z.of_nat (S k)) = Lt) by (apply Z.compare_lt_iff; lia).
    rewrite C. reflexivity.
Qed.

(** [shr] on an exact mantissa, for a shift that may be zero. *)
Lemma shr_exact (m e n : Z) :
  0 <= m -> 0 <= n ->
  let '(mrs, e') := shr {| shr_m := m; shr_r := false; shr_s := false |} e n in
  e' = e + n /\
  shr_m mrs = m / 2 ^ n /\
  round_nearest_even (shr_m mrs) (loc_of_shr_record mrs) = rne m n.
Proof.
  intros Hm Hn. destruct n as [|p|p]; [| |lia].
  - cbn [shr shr_m loc_of_shr_record round_nearest_even].
    change (2 ^ 0) with 1. rewrite Z.div_1_r.
    split; [lia|]. split; [reflexivity|].
    now rewrite rne_0.
  - cbn [shr]. rewrite iter_pos_nat.
    destruct (Pos2Nat.is_succ p) as [k Hk]. rewrite Hk.
    assert (Hp : Z.pos p = Z.of_nat (S k)) by lia.
    split; [reflexivity|]. split.
    + rewrite shifted by exact Hm. cbn [shr_m]. now rewrite Hp.
    + rewrite Hp. apply (round_shifted m k Hm).
Qed.

(** ** Shifting a mantissa to the left *)

Lemma iter_xO (m : positive) (d : positive) :
  Z.pos (Pos.iter xO m d) = Z.pos m * 2 ^ Z.pos d.
Proof.
  rewrite Pos2Nat.inj_iter.
  rewrite <- (positive_nat_Z d).
  induction (Pos.to_nat d) as [|k IH]; [cbn; lia|].
  cbn [nat_rect]. rewrite Pos2Z.inj_xO, IH.
  rewrite Nat2Z.inj_succ, Z.pow_succ_r by lia. lia.
Qed.

Lemma shl_align_spec (m : positive) (e e' : Z) :
  let '(mz, ez) := shl_align m e e' in
  ez = Z.min e e' /\ Z.pos mz = Z.pos m * 2 ^ (e - ez).
Proof.
  unfold shl_align. destruct (e' - e) as [|d|d] eqn:Hd.
  - split; [lia|]. rewrite Z.sub_diag. cbn. lia.
  - split; [lia|]. rewrite Z.sub_diag. cbn. lia.
  - split; [lia|]. rewrite iter_xO. f_equal. f_equal. lia.
Qed.

(** ** A format: precision, exponent range, and a floor for exponents *)

Section Format.

Variables prec emax E0 : Z.
Hypothesis Hprec : 0 < prec.
Hypothesis HE0 : E0 <= emin prec emax.

Lemma fexp_ge (d : Z) : E0 <= fexp prec emax d.
Proof. unfold fexp. lia. Qed.

Lemma fexp_mono (d1 d2 : Z) : d1 <= d2 -> fexp prec emax d1 <= fexp prec emax d2.
Proof. unfold fexp. lia. Qed.

Lemma fexp_succ (d : Z) : fexp prec emax (d + 1) <= fexp prec emax d + 1.
Proof. unfold fexp. lia. Qed.

Lemma fexp_above (d1 d2 : Z) :
  fexp prec emax d1 < fexp prec emax d2 ->
  d1 < d2 /\ fexp prec emax d2 = d2 - prec.
Proof. unfold fexp. lia. Qed.

Lemma fexp_idem (d : Z) : fexp prec emax (fexp prec emax d) <= fexp prec emax d.
Proof. unfold fexp. lia. Qed.

(** The value of mantissa [M] at exponent [e], in units of [2 ^ E0]. *)
Definition value (M e : Z) : Z := M * 2 ^ (e - E0).

(** The exponent of the grid on which a number of value [X] is rounded,
    counted from [E0]. *)
Definition grid (X : Z) : Z := fexp prec emax (Zdigits2 X + E0) - E0.

(** The value [X] rounded to the format. *)
Definition rounded (X : Z) : Z := rne X (grid X) * 2 ^ grid X.

Lemma grid_nonneg (X : Z) : 0 <= grid X.
Proof. unfold grid. pose proof (fexp_ge (Zdigits2 X + E0)). lia. Qed.

Lemma grid_mono (X1 X2 : Z) : 0 < X1 -> X1 <= X2 -> grid X1 <= grid X2.
Proof.
  intros H1 H2. unfold grid.
  pose proof (digits_mono X1 X2 H1 H2).
  pose proof (fexp_mono (Zdigits2 X1 + E0) (Zdigits2 X2 + E0)). lia.
Qed.

(** Rounding is monotone. *)
Lemma rounded_mono (X1 X2 : Z) : 0 < X1 -> X1 <= X2 -> rounded X1 <= rounded X2.
Proof.
  intros H1 H2. unfold rounded.
  pose proof (grid_nonneg X1) as HN1. pose proof (grid_nonneg X2) as HN2.
  pose proof (grid_mono X1 X2 H1 H2) as HN.
  destruct (Z.eq_dec (grid X1) (grid X2)) as [Heq|Hne].
  - rewrite Heq. pose proof (rne_mono X1 X2 (grid X2) HN2 H2).
    pose proof (pow2_pos (grid X2) HN2). nia.
  - assert (Hlt : fexp prec emax (Zdigits2 X1 + E0)
                  < fexp prec emax (Zdigits2 X2 + E0)).
    { unfold grid in *. lia. }
    apply fexp_above in Hlt. destruct Hlt as [Hd Hf].
    set (K := Zdigits2 X2 - 1).
    assert (HK2 : grid X2 <= K) by (unfold grid, K; lia).
    assert (HK1 : grid X1 <= K) by lia.
    pose proof (digits_spec X1 H1) as [_ Hup1].
    pose proof (digits_spec X2 ltac:(lia)) as [Hlow2 _]. fold K in Hlow2.
    assert (Hpow : 2 ^ Zdigits2 X1 <= 2 ^ K).
    { apply Z.pow_le_mono_r; unfold K; lia. }
    assert (Hs1 : 2 ^ K = 2 ^ (K - grid X1) * 2 ^ grid X1).
    { rewrite <- Z.pow_add_r by lia. f_equal. lia. }
    assert (Hs2 : 2 ^ K = 2 ^ (K - grid X2) * 2 ^ grid X2).
    { rewrite <- Z.pow_add_r by lia. f_equal. lia. }
    pose proof (rne_le X1 (grid X1) (2 ^ (K - grid X1)) HN1 ltac:(lia)).
    pose proof (rne_ge X2 (grid X2) (2 ^ (K - grid X2)) HN2 ltac:(lia)).
    pose proof (pow2_pos (grid X1) HN1). pose proof (pow2_pos (grid X2) HN2).
    nia.
Qed.

(** A mantissa is canonical at exponent [e] when [e] is the exponent the
    format gives to its magnitude. *)
Definition canonical (M e : Z) : Prop := fexp prec emax (Zdigits2 M + e) = e.

Lemma canonical_ge (M e : Z) : canonical M e -> E0 <= e.
Proof. unfold canonical. intros <-. apply fexp_ge. Qed.

(** A canonical number is its own rounding. *)
Lemma rounded_canonical (M e : Z) :
  0 < M -> canonical M e -> rounded (value M e) = value M e.
Proof.
  intros HM Hc. pose proof (canonical_ge M e Hc) as He.
  unfold rounded, value, grid.
  rewrite digits_mul_pow2 by lia.
  replace (Zdigits2 M + (e - E0) + E0) with (Zdigits2 M + e) by lia.
  rewrite Hc. rewrite rne_exact by lia. reflexivity.
Qed.

(** Canonical numbers are ordered by exponent first. *)
Lemma canonical_lt (M1 e1 M2 e2 : Z) :
  0 < M1 -> 0 < M2 -> canonical M1 e1 -> canonical M2 e2 ->
  e1 < e2 -> value M1 e1 < value M2 e2.
Proof.
  intros H1 H2 Hc1 Hc2 He.
  pose proof (canonical_ge M1 e1 Hc1). pose proof (canonical_ge M2 e2 Hc2).
  unfold canonical in *.
  assert (Hd : Zdigits2 M1 + e1 < Zdigits2 M2 + e2).
  { destruct (Z.lt_ge_cases (Zdigits2 M1 + e1) (Zdigits2 M2 + e2)); [assumption|].
    pose proof (fexp_mono (Zdigits2 M2 + e2) (Zdigits2 M1 + e1)). lia. }
  pose proof (digits_spec M1 H1) as [_ Hu].
  pose proof (digits_spec M2 H2) as [Hl _].
  pose proof (digits_pos M2 H2).
  unfold value.
  assert (Ha : M1 * 2 ^ (e1 - E0) < 2 ^ (Zdigits2 M1 + (e1 - E0))).
  { rewrite Z.pow_add_r by (pose proof (digits_pos M1 H1); lia).
    pose proof (pow2_pos (e1 - E0)). nia. }
  assert (Hb : 2 ^ (Zdigits2 M2 - 1 + (e2 - E0)) <= M2 * 2 ^ (e2 - E0)).
  { rewrite Z.pow_add_r by lia. pose proof (pow2_pos (e2 - E0)). nia. }
  assert (Hc : 2 ^ (Zdigits2 M1 + (e1 - E0))
               <= 2 ^ (Zdigits2 M2 - 1 + (e2 - E0))).
  { apply Z.pow_le_mono_r; lia. }
  lia.
Qed.

Lemma canonical_le (M1 e1 M2 e2 : Z) :
  0 < M1 -> 0 < M2 -> canonical M1 e1 -> canonical M2 e2 ->
  value M1 e1 <= value M2 e2 ->
  e1 < e2 \/ (e1 = e2 /\ M1 <= M2).
Proof.
  intros H1 H2 Hc1 Hc2 Hv.
  destruct (Z.lt_trichotomy e1 e2) as [Hlt | [Heq | Hgt]].
  - now left.
  - right. split; [exact Heq|]. subst e2. unfold value in Hv.
    pose proof (canonical_ge M1 e1 Hc1).
    pose proof (pow2_pos (e1 - E0)). nia.
  - pose proof (canonical_lt M2 e2 M1 e1 H2 H1 Hc2 Hc1 Hgt). lia.
Qed.

(** *** What the rounding of the standard library computes *)

(** A mantissa and an exponent as a float: zero, finite, or infinite when
    the exponent is beyond the format. *)
Definition pack (M e : Z) : spec_float :=
  match M with
  | Zpos p =>
      if e <=? emax - prec then S754_finite false p e else S754_infinity false
  | _ => S754_zero false
  end.

(** The second shift of [binary_round_aux]: it renormalises a mantissa that
    the rounding carried to one more digit. *)
Lemma renormalise (M f d : Z) :
  0 <= M ->
  f = fexp prec emax d ->
  (f < d -> 2 ^ (d - f - 1) <= M <= 2 ^ (d - f)) ->
  (d <= f -> M <= 1) ->
  let '(mrs, e'') := shr_fexp prec emax M f loc_Exact in
  0 <= shr_m mrs /\
  (0 < shr_m mrs -> canonical (shr_m mrs) e'') /\
  value (shr_m mrs) e'' = value M f /\
  f <= e''.
Proof.
  intros HM Hf Hnormal Hsub.
  unfold shr_fexp. cbn [shr_record_of_loc].
  set (n := fexp prec emax (Zdigits2 M + f) - f).
  destruct (Z.le_gt_cases n 0) as [Hn | Hn].
  - (* no shift *)
    assert (Hshr : shr {| shr_m := M; shr_r := false; shr_s := false |} f n
                   = ({| shr_m := M; shr_r := false; shr_s := false |}, f)).
    { destruct n; try reflexivity. lia. }
    rewrite Hshr. cbn [shr_m].
    split; [exact HM|]. split; [|split; [reflexivity | lia]].
    intros Hpos. unfold canonical.
    apply Z.le_antisymm; [unfold n in Hn; lia|].
    destruct (Z.lt_ge_cases f d) as [Hfd | Hfd].
    + destruct (Hnormal Hfd) as [Hlow _].
      pose proof (digits_gt M (d - f - 1) ltac:(lia) Hlow).
      rewrite Hf at 1. apply fexp_mono. lia.
    + unfold fexp in *. lia.
  - (* the mantissa was carried to a power of two *)
    assert (Hgt : fexp prec emax d < fexp prec emax (Zdigits2 M + f))
      by (unfold n in Hn; lia).
    destruct (fexp_above _ _ Hgt) as [HdM HfM].
    assert (Hpos : 0 < M).
    { destruct (Z.eq_dec M 0) as [-> | ]; [|lia].
      exfalso. cbn [Zdigits2] in *. unfold fexp in *. lia. }
    assert (Hfd : f < d).
    { destruct (Z.lt_ge_cases f d) as [H | H]; [exact H|]. exfalso.
      assert (M = 1) by (pose proof (Hsub H); lia). subst M.
      cbn [Zdigits2 digits2_pos] in *. unfold fexp in *. lia. }
    destruct (Hnormal Hfd) as [Hlow Hup].
    assert (Hdig : Zdigits2 M = d - f + 1).
    { assert (M < 2 ^ (d - f + 1)).
      { rewrite Z.pow_add_r by lia. pose proof (pow2_pos (d - f)). lia. }
      pose proof (digits_le M (d - f + 1) Hpos ltac:(lia)). lia. }
    assert (HM2 : M = 2 ^ (d - f)).
    { pose proof (digits_spec M Hpos) as [Hl _]. rewrite Hdig in Hl.
      replace (d - f + 1 - 1) with (d - f) in Hl by lia. lia. }
    assert (Ed : Zdigits2 M + f = d + 1) by lia.
    rewrite Ed in HfM, Hgt.
    pose proof (fexp_succ d) as Hsucc.
    assert (Hprec' : d - f = prec) by lia.
    assert (Hn1 : n = 1) by (unfold n; rewrite Ed; lia).
    rewrite Hn1.
    pose proof (shr_exact M f 1 HM ltac:(lia)) as Hshr.
    destruct (shr {| shr_m := M; shr_r := false; shr_s := false |} f 1)
      as [mrs e''].
    destruct Hshr as (He & Hm & _).
    assert (Hhalf : shr_m mrs = 2 ^ (prec - 1)).
    { rewrite Hm, HM2, Hprec'. change (2 ^ 1) with 2.
      replace prec with (prec - 1 + 1) at 1 by lia.
      rewrite Z.pow_add_r by lia. change (2 ^ 1) with 2.
      now rewrite Z.div_mul by lia. }
    pose proof (pow2_pos (prec - 1) ltac:(lia)) as Hpp.
    split; [lia|]. split; [|split; [|lia]].
    + intros _. unfold canonical. rewrite Hhalf, He.
      assert (Zdigits2 (2 ^ (prec - 1)) = prec).
      { pose proof (digits_gt (2 ^ (prec - 1)) (prec - 1) ltac:(lia) ltac:(lia)).
        pose proof (digits_le (2 ^ (prec - 1)) prec Hpp
                      ltac:(apply Z.pow_lt_mono_r; lia)).
        lia. }
      replace (Zdigits2 (2 ^ (prec - 1)) + (f + 1)) with (d + 1) by lia.
      rewrite HfM. lia.
    + unfold value. rewrite Hhalf, He, HM2, Hprec'.
      pose proof (fexp_ge d).
      rewrite <- !Z.pow_add_r by lia. f_equal. lia.
Qed.

(** [binary_round] on a positive mantissa: the result is the packing of a
    canonical mantissa whose value is the rounding of the value given. *)
Lemma binary_round_spec (m : positive) (e : Z) :
  E0 <= e ->
  exists M' e',
    binary_round prec emax false m e = pack M' e' /\
    0 <= M' /\
    (0 < M' -> canonical M' e') /\
    value M' e' = rounded (value (Z.pos m) e) /\
    fexp prec emax (Zdigits2 (Z.pos m) + e) <= e'.
Proof.
  intros He.
  set (d := Zdigits2 (Z.pos m) + e).
  set (f := fexp prec emax d).
  set (X := value (Z.pos m) e).
  pose proof (fexp_ge d) as Hfge. fold f in Hfge.
  assert (HX : 0 < X).
  { unfold X, value. pose proof (pow2_pos (e - E0) ltac:(lia)). nia. }
  assert (HdX : Zdigits2 X + E0 = d).
  { unfold X, value, d. rewrite digits_mul_pow2 by lia. lia. }
  assert (Hgrid : grid X = f - E0) by (unfold grid; rewrite HdX; reflexivity).
  unfold binary_round.
  change (Z.pos (digits2_pos m)) with (Zdigits2 (Z.pos m)). fold d. fold f.
  pose proof (shl_align_spec m e f) as Hshl.
  destruct (shl_align m e f) as [mz ez]. destruct Hshl as [Hez Hmz].
  assert (Hdz : Zdigits2 (Z.pos mz) + ez = d).
  { rewrite Hmz, digits_mul_pow2 by lia. unfold d. lia. }
  assert (HXz : X = Z.pos mz * 2 ^ (ez - E0)).
  { unfold X, value. rewrite Hmz, <- Z.mul_assoc, <- Z.pow_add_r by lia.
    f_equal. f_equal. lia. }
  unfold binary_round_aux.
  (* the first shift, and the rounding *)
  unfold shr_fexp at 1. cbn [shr_record_of_loc]. rewrite Hdz. fold f.
  pose proof (shr_exact (Z.pos mz) ez (f - ez) ltac:(lia) ltac:(lia)) as Hshr.
  destruct (shr {| shr_m := Z.pos mz; shr_r := false; shr_s := false |}
              ez (f - ez)) as [mrs1 e1].
  destruct Hshr as (He1 & _ & Hround). rewrite Hround.
  replace e1 with f by lia.
  set (M := rne (Z.pos mz) (f - ez)).
  assert (HM : M = rne X (grid X)).
  { unfold M. rewrite Hgrid, HXz.
    replace (f - E0) with (f - ez + (ez - E0)) by lia.
    now rewrite rne_scale by lia. }
  assert (HM0 : 0 <= M).
  { pose proof (rne_bounds (Z.pos mz) (f - ez) ltac:(lia)) as [Hb _].
    pose proof (Z.div_pos (Z.pos mz) (2 ^ (f - ez)) ltac:(lia)
                  (pow2_pos (f - ez) ltac:(lia))).
    unfold M. lia. }
  pose proof (digits_spec X HX) as [HXlow HXup].
  assert (Hnormal : f < d -> 2 ^ (d - f - 1) <= M <= 2 ^ (d - f)).
  { intros Hfd. rewrite HM, Hgrid. split.
    - apply rne_ge; [lia|]. rewrite <- Z.pow_add_r by lia.
      replace (d - f - 1 + (f - E0)) with (Zdigits2 X - 1) by lia. exact HXlow.
    - apply rne_le; [lia|]. rewrite <- Z.pow_add_r by lia.
      replace (d - f + (f - E0)) with (Zdigits2 X) by lia. lia. }
  assert (Hsub : d <= f -> M <= 1).
  { intros Hdf. rewrite HM, Hgrid. apply rne_le; [lia|].
    rewrite Z.mul_1_l.
    assert (2 ^ Zdigits2 X <= 2 ^ (f - E0)) by (apply Z.pow_le_mono_r; lia).
    lia. }
  (* the second shift *)
  pose proof (renormalise M f d HM0 eq_refl Hnormal Hsub) as Hren.
  destruct (shr_fexp prec emax M f loc_Exact) as [mrs2 e2].
  destruct Hren as (Hm2 & Hcanon & Hval & Hf2).
  exists (shr_m mrs2), e2.
  split; [|split; [exact Hm2|split; [exact Hcanon|split; [|exact Hf2]]]].
  - unfold pack. destruct (shr_m mrs2) as [|p|p]; try reflexivity. lia.
  - rewrite Hval. unfold rounded, value. rewrite <- HM, Hgrid. reflexivity.
Qed.

Lemma rounded_0 : rounded 0 = 0.
Proof.
  unfold rounded, rne. rewrite Z.div_0_l, Z.mod_0_l
    by (pose proof (pow2_pos (grid 0) (grid_nonneg 0)); lia).
  assert (E : (2 * 0 ?= 2 ^ grid 0) = Lt).
  { apply Z.compare_lt_iff. pose proof (pow2_pos (grid 0) (grid_nonneg 0)). lia. }
  rewrite E. reflexivity.
Qed.

Lemma rounded_nonneg (X : Z) : 0 <= X -> 0 <= rounded X.
Proof.
  intros HX. unfold rounded.
  pose proof (grid_nonneg X) as HN. pose proof (pow2_pos (grid X) HN) as Hp.
  pose proof (rne_bounds X (grid X) HN) as [Hb _].
  pose proof (Z.div_pos X (2 ^ grid X) HX Hp). nia.
Qed.

Lemma rounded_monotone (X1 X2 : Z) :
  0 <= X1 -> X1 <= X2 -> rounded X1 <= rounded X2.
Proof.
  intros H1 H2. destruct (Z.eq_dec X1 0) as [-> | Hne].
  - rewrite rounded_0. apply rounded_nonneg. lia.
  - apply rounded_mono; lia.
Qed.

(** A number with digits to spare above the grid does not round to zero. *)
Lemma rounded_pos (X : Z) :
  0 < X -> fexp prec emax (Zdigits2 X + E0) < Zdigits2 X + E0 -> 0 < rounded X.
Proof.
  intros HX Hf. unfold rounded.
  pose proof (grid_nonneg X) as HN. pose proof (pow2_pos (grid X) HN) as Hp.
  pose proof (digits_spec X HX) as [Hlow _].
  assert (Hk : 0 <= Zdigits2 X - 1 - grid X) by (unfold grid; lia).
  pose proof (rne_ge X (grid X) (2 ^ (Zdigits2 X - 1 - grid X)) HN) as Hge.
  rewrite <- Z.pow_add_r in Hge by lia.
  replace (Zdigits2 X - 1 - grid X + grid X) with (Zdigits2 X - 1) in Hge by lia.
  specialize (Hge Hlow).
  pose proof (pow2_pos (Zdigits2 X - 1 - grid X) Hk). nia.
Qed.

(** [d] is a float of the format that is not negative and has value [V]: a
    zero of either sign, or the packing of a canonical mantissa. *)
Definition represents (d : spec_float) (V : Z) : Prop :=
  (V = 0 /\ exists s, d = S754_zero s) \/
  (exists M e, 0 < M /\ canonical M e /\ d = pack M e /\ V = value M e).

Lemma value_pos (M e : Z) : 0 < M -> canonical M e -> 0 < value M e.
Proof.
  intros HM Hc. pose proof (canonical_ge M e Hc).
  unfold value. pose proof (pow2_pos (e - E0) ltac:(lia)). nia.
Qed.

(** The comparison of the standard library agrees with the values. *)
Lemma represents_le (d1 d2 : spec_float) (V1 V2 : Z) :
  represents d1 V1 -> represents d2 V2 -> V1 <= V2 -> SFleb d1 d2 = true.
Proof.
  intros [[-> [s1 ->]] | (M1 & e1 & HM1 & Hc1 & -> & ->)]
         [[-> [s2 ->]] | (M2 & e2 & HM2 & Hc2 & -> & ->)] Hle.
  - reflexivity.
  - destruct M2 as [|p2|p2]; try lia. unfold pack.
    destruct (e2 <=? emax - prec); reflexivity.
  - pose proof (value_pos M1 e1 HM1 Hc1). lia.
  - destruct (canonical_le M1 e1 M2 e2 HM1 HM2 Hc1 Hc2 Hle) as [He | [He Hm]];
      destruct M1 as [|p1|p1]; try lia; destruct M2 as [|p2|p2]; try lia;
      unfold pack;
      destruct (e1 <=? emax - prec) eqn:B1; destruct (e2 <=? emax - prec) eqn:B2;
      try reflexivity; try lia; unfold SFleb, SFcompare.
    + replace (e1 ?= e2) with Lt by (symmetry; apply Z.compare_lt_iff; lia).
      reflexivity.
    + subst e2. rewrite Z.compare_refl.
      change (Pos.compare_cont Eq p1 p2) with (p1 ?= p2)%positive.
      destruct (p1 ?= p2)%positive eqn:C; try reflexivity.
      apply Pos.compare_gt_iff in C. lia.
Qed.

(** [binary_normalize] on an integer that is not negative. *)
Lemma normalize_represents (Z0 e : Z) :
  0 <= Z0 -> E0 <= e ->
  represents (binary_normalize prec emax Z0 e false) (rounded (value Z0 e)).
Proof.
  intros HZ He. destruct Z0 as [|p|p]; [| |lia].
  - left. split; [|exists false; reflexivity].
    unfold value. rewrite Z.mul_0_l. apply rounded_0.
  - cbn [binary_normalize].
    destruct (binary_round_spec p e He) as (M' & e' & Hr & HM' & Hc & Hv & _).
    rewrite Hr. destruct (Z.eq_dec M' 0) as [-> | Hne].
    + left. split; [|exists false; reflexivity].
      rewrite <- Hv. unfold value. lia.
    + right. exists M', e'.
      split; [lia|]. split; [apply Hc; lia|]. split; [reflexivity|].
      now rewrite Hv.
Qed.

(** *** The floats given to the program *)

(** The value of a finite float, with its sign. *)
Definition signed_value (x : spec_float) : Z :=
  match x with
  | S754_finite s m e => cond_Zopp s (value (Z.pos m) e)
  | _ => 0
  end.

Definition finite (x : spec_float) : Prop :=
  valid_binary prec emax x = true /\
  match x with
  | S754_zero _ | S754_finite _ _ _ => True
  | _ => False
  end.

Lemma finite_canonical (s : bool) (m : positive) (e : Z) :
  finite (S754_finite s m e) ->
  canonical (Z.pos m) e /\ e <= emax - prec.
Proof.
  intros [Hv _]. cbn [valid_binary] in Hv. unfold bounded in Hv.
  apply andb_prop in Hv. destruct Hv as [Hc Hb].
  unfold canonical_mantissa in Hc. apply Z.eqb_eq in Hc.
  apply Z.leb_le in Hb. split; [exact Hc | exact Hb].
Qed.

(** On finite floats the comparison implies the order of the values. *)
Lemma leb_signed_value (x y : spec_float) :
  finite x -> finite y -> SFleb x y = true -> signed_value x <= signed_value y.
Proof.
  intros Hx Hy Hle.
  destruct x as [sx| | |sx mx ex]; try (exfalso; exact (proj2 Hx));
    destruct y as [sy| | |sy my ey]; try (exfalso; exact (proj2 Hy)).
  - reflexivity.
  - destruct (finite_canonical _ _ _ Hy) as [Hc _].
    pose proof (value_pos _ _ (Pos2Z.is_pos my) Hc).
    destruct sy; [discriminate Hle|]. cbn. lia.
  - destruct (finite_canonical _ _ _ Hx) as [Hc _].
    pose proof (value_pos _ _ (Pos2Z.is_pos mx) Hc).
    destruct sx; [cbn; lia | discriminate Hle].
  - destruct (finite_canonical _ _ _ Hx) as [Hcx _].
    destruct (finite_canonical _ _ _ Hy) as [Hcy _].
    pose proof (value_pos _ _ (Pos2Z.is_pos mx) Hcx).
    pose proof (value_pos _ _ (Pos2Z.is_pos my) Hcy).
    unfold SFleb, SFcompare in Hle. cbn [signed_value].
    destruct sx, sy; cbn [cond_Zopp]; try lia; try discriminate Hle.
    + (* both negative *)
      destruct (ex ?= ey) eqn:C.
      * apply Z.compare_eq_iff in C. subst ey.
        change (Pos.compare_cont Eq mx my) with (mx ?= my)%positive in Hle.
        destruct (mx ?= my)%positive eqn:Cm; try discriminate Hle.
        -- apply Pos.compare_eq_iff in Cm. subst. lia.
        -- apply Pos.compare_gt_iff in Cm. unfold value.
           pose proof (canonical_ge _ _ Hcx).
           pose proof (pow2_pos (ex - E0) ltac:(lia)).
           pose proof (Z.mul_le_mono_nonneg_r (Z.pos my) (Z.pos mx)
                         (2 ^ (ex - E0)) ltac:(lia) ltac:(lia)).
           lia.
      * discriminate Hle.
      * apply Z.compare_gt_iff in C.
        pose proof (canonical_lt _ _ _ _ (Pos2Z.is_pos my) (Pos2Z.is_pos mx)
                      Hcy Hcx C). lia.
    + (* both positive *)
      destruct (ex ?= ey) eqn:C.
      * apply Z.compare_eq_iff in C. subst ey.
        change (Pos.compare_cont Eq mx my) with (mx ?= my)%positive in Hle.
        destruct (mx ?= my)%positive eqn:Cm; try discriminate Hle.
        -- apply Pos.compare_eq_iff in Cm. subst. lia.
        -- change ((mx < my)%positive) in Cm. unfold value.
           pose proof (canonical_ge _ _ Hcx).
           pose proof (pow2_pos (ex - E0) ltac:(lia)).
           pose proof (Z.mul_le_mono_nonneg_r (Z.pos mx) (Z.pos my)
                         (2 ^ (ex - E0)) ltac:(lia) ltac:(lia)).
           lia.
      * apply Z.compare_lt_iff in C.
        pose proof (canonical_lt _ _ _ _ (Pos2Z.is_pos mx) (Pos2Z.is_pos my)
                      Hcx Hcy C). lia.
      * discriminate Hle.
Qed.

(** The value of a finite float has the sign of its sign bit. *)
Lemma signed_value_finite (s : bool) (m : positive) (e : Z) :
  finite (S754_finite s m e) ->
  if s then signed_value (S754_finite s m e) < 0
  else 0 < signed_value (S754_finite s m e).
Proof.
  intros H. destruct (finite_canonical _ _ _ H) as [Hc _].
  pose proof (value_pos _ _ (Pos2Z.is_pos m) Hc).
  destruct s; cbn [signed_value cond_Zopp]; lia.
Qed.

Lemma finite_represents (m : positive) (e : Z) :
  finite (S754_finite false m e) ->
  represents (S754_finite false m e) (rounded (value (Z.pos m) e)).
Proof.
  intros H. destruct (finite_canonical _ _ _ H) as [Hc Hb].
  right. exists (Z.pos m), e.
  split; [lia|]. split; [exact Hc|]. split.
  - unfold pack. apply Z.leb_le in Hb. now rewrite Hb.
  - apply rounded_canonical; [lia | exact Hc].
Qed.

(** The difference of two finite floats is their exact difference, rounded:
    stated here when the difference is not negative. *)
Lemma sub_represents (x y : spec_float) :
  finite x -> finite y -> signed_value y <= signed_value x ->
  represents (SFsub prec emax x y) (rounded (signed_value x - signed_value y)).
Proof.
  intros Hx Hy Hle.
  destruct x as [sx| | |sx mx ex]; try (exfalso; exact (proj2 Hx));
    destruct y as [sy| | |sy my ey]; try (exfalso; exact (proj2 Hy)).
  - left. split; [apply rounded_0|].
    destruct sx, sy; cbn; eexists; reflexivity.
  - pose proof (signed_value_finite _ _ _ Hy) as Hs.
    destruct sy; [|cbn [signed_value] in Hle, Hs; lia].
    cbn [SFsub negb]. cbn [signed_value cond_Zopp].
    replace (0 - - value (Z.pos my) ey) with (value (Z.pos my) ey) by lia.
    apply finite_represents.
    destruct Hy as [Hv _]. split; [exact Hv | exact I].
  - pose proof (signed_value_finite _ _ _ Hx) as Hs.
    destruct sx; [cbn [signed_value] in Hle, Hs; lia|].
    cbn [SFsub]. cbn [signed_value cond_Zopp].
    rewrite Z.sub_0_r. now apply finite_represents.
  - destruct (finite_canonical _ _ _ Hx) as [Hcx _].
    destruct (finite_canonical _ _ _ Hy) as [Hcy _].
    pose proof (canonical_ge _ _ Hcx) as Hex.
    pose proof (canonical_ge _ _ Hcy) as Hey.
    cbn [SFsub].
    pose proof (shl_align_spec mx ex (Z.min ex ey)) as Ax.
    pose proof (shl_align_spec my ey (Z.min ex ey)) as Ay.
    destruct (shl_align mx ex (Z.min ex ey)) as [ax ezx].
    destruct (shl_align my ey (Z.min ex ey)) as [ay ezy].
    destruct Ax as [Ezx Ax], Ay as [Ezy Ay]. cbn [fst].
    set (ez := Z.min ex ey) in *.
    assert (Ezx' : ezx = ez) by lia. assert (Ezy' : ezy = ez) by lia.
    subst ezx ezy.
    set (D := cond_Zopp sx (Z.pos ax) - cond_Zopp sy (Z.pos ay)).
    assert (HD : value D ez
                 = signed_value (S754_finite sx mx ex)
                   - signed_value (S754_finite sy my ey)).
    { unfold D, value. cbn [signed_value]. unfold value.
      assert (Px : Z.pos ax * 2 ^ (ez - E0) = Z.pos mx * 2 ^ (ex - E0)).
      { rewrite Ax, <- Z.mul_assoc, <- Z.pow_add_r by lia.
        f_equal. f_equal. lia. }
      assert (Py : Z.pos ay * 2 ^ (ez - E0) = Z.pos my * 2 ^ (ey - E0)).
      { rewrite Ay, <- Z.mul_assoc, <- Z.pow_add_r by lia.
        f_equal. f_equal. lia. }
      destruct sx, sy; cbn [cond_Zopp]; lia. }
    rewrite <- HD. apply normalize_represents; [|lia].
    assert (0 <= value D ez) by lia.
    unfold value in H. pose proof (pow2_pos (ez - E0) ltac:(lia)). nia.
Qed.

End Format.

End Rounding.

(** * The rotation angle *)

Module Angle.

(** Values of both formats are counted in units of [2 ^ E0], the smallest
    positive [float64]. *)
Definition E0 : Z := -1074.

Definition value64 : Float.float64 -> Z := Rounding.signed_value E0.
Definition rounded64 : Z -> Z := Rounding.rounded Float.prec64 Float.emax64 E0.
Definition rounded32 : Z -> Z := Rounding.rounded Float.prec32 Float.emax32 E0.
Definition represents64 : Float.float64 -> Z -> Prop :=
  Rounding.represents Float.prec64 Float.emax64 E0.
Definition represents32 : Float.float32 -> Z -> Prop :=
  Rounding.represents Float.prec32 Float.emax32 E0.

Lemma prec64_pos : 0 < Float.prec64.
Proof. reflexivity. Qed.

Lemma prec32_pos : 0 < Float.prec32.
Proof. reflexivity. Qed.

Lemma E0_emin64 : E0 <= emin Float.prec64 Float.emax64.
Proof. discriminate. Qed.

Lemma E0_emin32 : E0 <= emin Float.prec32 Float.emax32.
Proof. discriminate. Qed.

(** Converting to [float32] rounds the value once more. *)
Lemma to_float32_represents (d : Float.float64) (V : Z) :
  represents64 d V -> represents32 (Float.to_float32 d) (rounded32 V).
Proof.
  intros [[-> [s ->]] | (M & e & HM & Hc & -> & ->)].
  - left. split; [exact (Rounding.rounded_0 _ _ _ E0_emin32)|]. now exists s.
  - pose proof (Rounding.canonical_ge _ _ _ E0_emin64 _ _ Hc) as He.
    destruct M as [|p|p]; try lia. unfold Rounding.pack.
    destruct (e <=? Float.emax64 - Float.prec64) eqn:B.
    + cbn [Float.to_float32 cond_Zopp].
      apply (Rounding.normalize_represents _ _ _ prec32_pos E0_emin32
               (Z.pos p) e); [lia | exact He].
    + apply Z.leb_gt in B. cbn [Float.to_float32].
      destruct (Rounding.binary_round_spec _ _ _ prec32_pos E0_emin32 p e He)
        as (M' & e' & _ & HM' & Hc' & Hv & He').
      assert (Hd : Zdigits2 (Z.pos p) + e = e + Float.prec64).
      { unfold Rounding.canonical, fexp, emin in Hc.
        unfold Float.emax64, Float.prec64 in *. lia. }
      assert (Hpos : 0 < Rounding.rounded Float.prec32 Float.emax32 E0
                           (Rounding.value E0 (Z.pos p) e)).
      { apply (Rounding.rounded_pos _ _ _ E0_emin32).
        - apply (Rounding.value_pos _ _ _ prec64_pos E0_emin64 _ _ HM Hc).
        - unfold Rounding.value.
          rewrite Rounding.digits_mul_pow2 by lia.
          replace (Zdigits2 (Z.pos p) + (e - E0) + E0)
            with (e + Float.prec64) by lia.
          unfold fexp, emin, Float.emax32, Float.prec32, Float.emax64,
            Float.prec64 in *. lia. }
      right. exists M', e'.
      assert (0 < M').
      { rewrite <- Hv in Hpos. unfold Rounding.value in Hpos.
        destruct (Z.eq_dec M' 0) as [-> | ]; lia. }
      split; [assumption|]. split; [now apply Hc'|]. split.
      * destruct M' as [|p'|p']; try lia. unfold Rounding.pack.
        replace (e' <=? Float.emax32 - Float.prec32) with false;
          [reflexivity|].
        symmetry. apply Z.leb_gt. rewrite Hd in He'.
        unfold fexp, emin, Float.emax32, Float.prec32, Float.emax64,
          Float.prec64 in *. lia.
      * unfold rounded32. now rewrite Hv.
Qed.

(** [float32(now - start)] for finite times [start <= now]. *)
Lemma angle_represents (start now : Float.float64) :
  Float.finite64 start -> Float.finite64 now ->
  value64 start <= value64 now ->
  represents32 (Float.to_float32 (Float.sub64 now start))
    (rounded32 (rounded64 (value64 now - value64 start))).
Proof.
  intros Hs Hn Hle.
  apply to_float32_represents.
  now apply (Rounding.sub_represents _ _ _ prec64_pos E0_emin64).
Qed.

Lemma angle_le (start t1 t2 : Float.float64) :
  Float.finite64 start -> Float.finite64 t1 -> Float.finite64 t2 ->
  Float.le64 start t1 = true -> Float.le64 t1 t2 = true ->
  Float.le32 (Float.to_float32 (Float.sub64 t1 start))
             (Float.to_float32 (Float.sub64 t2 start)) = true.
Proof.
  intros Hs H1 H2 Hs1 H12.
  pose proof (Rounding.leb_signed_value _ _ _ prec64_pos E0_emin64
                _ _ Hs H1 Hs1) as Ls1.
  pose proof (Rounding.leb_signed_value _ _ _ prec64_pos E0_emin64
                _ _ H1 H2 H12) as L12.
  fold value64 in Ls1, L12.
  apply (Rounding.represents_le _ _ _ prec32_pos E0_emin32 _ _
           (rounded32 (rounded64 (value64 t1 - value64 start)))
           (rounded32 (rounded64 (value64 t2 - value64 start)))).
  - apply angle_represents; [assumption..|lia].
  - apply angle_represents; [assumption..|lia].
  - apply (Rounding.rounded_monotone _ _ _ prec32_pos E0_emin32).
    + apply (Rounding.rounded_nonneg _ _ _ E0_emin64). lia.
    + apply (Rounding.rounded_monotone _ _ _ prec64_pos E0_emin64); lia.
Qed.

End Angle.

(** C8. For a fixed start time and sample times [t1 <= t2], both at or
    after the start time, the angle [float32(t1 - startTime)] of the
    rotation uploaded for [t1] is less than or equal to the angle
    [float32(t2 - startTime)] of the rotation uploaded for [t2]: the angle
    is monotonically non-decreasing in the current time.  The times are
    finite [float64] values, as a clock reading is; the subtraction and the
    conversion each round to nearest, ties to even. *)
Theorem angle_is_monotone (startTime t1 t2 : Float.float64) :
  Float.finite64 startTime -> Float.finite64 t1 -> Float.finite64 t2 ->
  Float.le64 startTime t1 = true -> Float.le64 t1 t2 = true ->
  exists a1 a2,
    rotation startTime t1 = HomogRotate3DZ a1 /\
    rotation startTime t2 = HomogRotate3DZ a2 /\
    Float.le32 a1 a2 = true.
Proof.
  intros Hs H1 H2 Hs1 H12.
  exists (Float.to_float32 (Float.sub64 t1 startTime)),
         (Float.to_float32 (Float.sub64 t2 startTime)).
  split; [reflexivity|]. split; [reflexivity|].
  now apply Angle.angle_le.
Qed.

Lemma angle_is_monotone_witness :
  let startTime := Demo.half_seconds 1 in
  let t1 := binary_normalize Float.prec64 Float.emax64
              (2 ^ 39 + 2 ^ 25 + 1) (-40) false in
  let t2 := binary_normalize Float.prec64 Float.emax64
              (2 ^ 39 + 2 ^ 25 + 3) (-40) false in
  Float.finite64 startTime /\ Float.finite64 t1 /\ Float.finite64 t2 /\
  Float.le64 startTime t1 = true /\ Float.le64 t1 t2 = true /\
  exists a1 a2,
    rotation startTime t1 = HomogRotate3DZ a1 /\
    rotation startTime t2 = HomogRotate3DZ a2 /\
    Float.le32 a1 a2 = true.
Proof.
  cbv zeta.
  split; [split; [reflexivity | exact I]|].
  split; [split; [reflexivity | exact I]|].
  split; [split; [reflexivity | exact I]|].
  split; [reflexivity|]. split; [reflexivity|].
  apply angle_is_monotone;
    [split; [reflexivity | exact I] .. | reflexivity | reflexivity].
Defined.

(** * Further properties of the code *)

(** ** The calls a computation can make

    [makes p m]: whatever the world in which [m] starts and however it
    ends, [m] only appends calls to the trace, and each call it appends
    satisfies [p]. *)

Definition makes {A : Type} (p : Call -> bool) (m : IO A) : Prop :=
  forall w, exists calls,
    trace (world_of (m w)) = trace w ++ calls /\
    forallb p calls = true.

Lemma makes_ret {A : Type} (p : Call -> bool) (a : A) : makes p (mret a).
Proof. intros w. exists []. split; [symmetry; apply app_nil_r | reflexivity]. Qed.

Lemma makes_panic {A : Type} (p : Call -> bool) (v : PanicValue) :
  makes p (panic v : IO A).
Proof. intros w. exists []. split; [symmetry; apply app_nil_r | reflexivity]. Qed.

Lemma makes_bind {A B : Type} (p : Call -> bool) (m : IO A) (k : A -> IO B) :
  makes p m -> (forall a, makes p (k a)) -> makes p (m ≫= k).
Proof.
  intros Hm Hk w. rewrite bind_unfold.
  destruct (Hm w) as (c1 & E1 & F1).
  destruct (m w) as [a w1|v w1|w1]; cbn [world_of] in *.
  - destruct (Hk a w1) as (c2 & E2 & F2).
    exists (c1 ++ c2). rewrite E2, E1, <- app_assoc. split; [reflexivity|].
    rewrite forallb_app, F1, F2. reflexivity.
  - exists c1. now split.
  - exists c1. now split.
Qed.

(** An operation that makes one call. *)
Lemma makes_one {A : Type} (p : Call -> bool) (m : IO A) :
  (forall w, exists c, trace (world_of (m w)) = trace w ++ [c] /\ p c = true) ->
  makes p m.
Proof.
  intros H w. destruct (H w) as (c & E & Hc).
  exists [c]. split; [exact E|]. cbn. now rewrite Hc.
Qed.

Lemma makes_defer {A : Type} (p : Call -> bool) (body : IO A) :
  p glfw_Terminate = true -> makes p body ->
  makes p (defer glfw.Terminate body).
Proof.
  intros HT Hb w. unfold defer.
  destruct (Hb w) as (c & E & F).
  destruct (body w) as [a w1|v w1|w1]; cbn [world_of] in *.
  - exists (c ++ [glfw_Terminate]).
    unfold glfw.Terminate. cbn [trace emit]. rewrite E, <- app_assoc.
    split; [reflexivity|]. rewrite forallb_app, F. cbn. now rewrite HT.
  - exists (c ++ [glfw_Terminate]).
    unfold glfw.Terminate. cbn [trace emit]. rewrite E, <- app_assoc.
    split; [reflexivity|]. rewrite forallb_app, F. cbn. now rewrite HT.
  - exists c. now split.
Qed.

Lemma makes_for_not (p : Call -> bool) (fuel : nat) (cond : IO bool)
    (body : IO unit) :
  makes p cond -> makes p body -> makes p (for_not fuel cond body).
Proof.
  intros Hc Hb. induction fuel as [|fuel IH]; cbn [for_not].
  - intros w. exists []. split; [symmetry; apply app_nil_r | reflexivity].
  - apply makes_bind; [exact Hc|]. intros [|]; [apply makes_ret|].
    apply makes_bind; [exact Hb | intros _; exact IH].
Qed.

Lemma makes_weaken {A : Type} (p q : Call -> bool) (m : IO A) :
  (forall c, p c = true -> q c = true) -> makes p m -> makes q m.
Proof.
  intros Hpq Hm w. destruct (Hm w) as (c & E & F). exists c.
  split; [exact E|]. rewrite forallb_forall in *. auto.
Qed.

Lemma makes_ReadFile (p : Call -> bool) (env : Env) (file : string) :
  p (ReadFile file) = true -> makes p (ioutil.ReadFile env file).
Proof.
  intros H. apply makes_one. intros w. exists (ReadFile file).
  unfold ioutil.ReadFile. destruct (read_file env file); now split.
Qed.

Lemma makes_Decode (p : Call -> bool) (env : Env) (file : string) :
  p (image_Decode file) = true -> makes p (image.Decode env file).
Proof.
  intros H. apply makes_one. intros w. exists (image_Decode file).
  unfold image.Decode. destruct (decode env file); now split.
Qed.

(** [os.Open] hands on the name it was given. *)
Lemma makes_Open {B : Type} (p : Call -> bool) (env : Env) (file : string)
    (k : string * option error -> IO B) :
  p (os_Open file) = true ->
  (forall err, makes p (k (file, err))) ->
  makes p (os.Open env file ≫= k).
Proof.
  intros H Hk w. rewrite bind_unfold. unfold os.Open.
  destruct (Hk (open_err env file) (emit (os_Open file) w)) as (c & E & F).
  exists (os_Open file :: c). rewrite E. cbn [trace emit].
  rewrite <- app_assoc. split; [reflexivity|]. cbn. now rewrite H, F.
Qed.

Lemma makes_VertexAttribPointer (p : Call -> bool) (env : Env)
    (index size type : Z) (normalized : bool) (stride offset : Z) :
  p (VertexAttribPointer index size type normalized stride offset) = true ->
  makes p (gl.VertexAttribPointer env index size type normalized stride offset).
Proof.
  intros H. apply makes_one. intros w. eexists. split; [|exact H].
  unfold gl.VertexAttribPointer, effect. cbn [world_of trace emit].
  now destruct (index <? max_vertex_attribs env).
Qed.

Lemma makes_EnableVertexAttribArray (p : Call -> bool) (env : Env) (index : Z) :
  p (EnableVertexAttribArray index) = true ->
  makes p (gl.EnableVertexAttribArray env index).
Proof.
  intros H. apply makes_one. intros w. eexists. split; [|exact H].
  unfold gl.EnableVertexAttribArray, effect. cbn [world_of trace emit].
  now destruct (index <? max_vertex_attribs env).
Qed.

(** Takes apart a computation whose definition has been unfolded: binds,
    returns, panics, the branches on what the environment answered, and the
    operations of the libraries, each of which makes one call. *)
Ltac makes_run :=
  repeat first
    [ apply makes_ret
    | apply makes_panic
    | apply makes_Open; [reflexivity | intros]
    | apply makes_bind; [|intros]
    | match goal with
      | |- makes _ (let '(_, _) := ?x in _) => destruct x
      | |- makes _ (match ?x with _ => _ end) => destruct x
      | |- makes _ (if ?x then _ else _) => destruct x
      end
    | apply makes_ReadFile; reflexivity
    | apply makes_Decode; reflexivity
    | apply makes_VertexAttribPointer; reflexivity
    | apply makes_EnableVertexAttribArray; reflexivity
    | apply makes_one; intros; eexists; split; [reflexivity|reflexivity] ].

(** The files the program names. *)
Definition names_its_files (c : Call) : bool :=
  match c with
  | ReadFile f => String.eqb f "vertex.glsl" || String.eqb f "fragment.glsl"
  | os_Open f | image_Decode f => String.eqb f "kitten.png"
  | _ => true
  end.

Lemma startup_files (env : Env) : makes names_its_files (startup env).
Proof.
  unfold startup, newProgram, compileShader, newTexture, attributes, panic_on,
    strings.Repeat, image.Bounds, draw.Draw.
  makes_run.
Qed.

Lemma main_makes (p : Call -> bool) (env : Env) (fuel : nat) :
  p glfw_Init = true -> p glfw_Terminate = true ->
  makes p (startup env) ->
  (forall b, p (ShouldClose b) = true) ->
  (forall model startTime, makes p (frame env tt model startTime)) ->
  makes p (main env fuel).
Proof.
  intros Hi Ht Hs Hc Hf. unfold main.
  apply makes_bind.
  { apply makes_one. intros w. exists glfw_Init. now split. }
  intros err. apply makes_bind.
  { destruct err; [apply makes_panic | apply makes_ret]. }
  intros _. apply makes_defer; [exact Ht|].
  apply makes_bind; [exact Hs|]. intros [[[] model] startTime].
  unfold render_loop. apply makes_for_not; [|apply Hf].
  apply makes_one. intros w. eexists. split; [reflexivity | apply Hc].
Qed.

Lemma frame_files (env : Env) (model : Z) (startTime : Float.float64) :
  makes names_its_files (frame env tt model startTime).
Proof. unfold frame. makes_run. Qed.

(** The calls of the render loop. *)
Definition in_loop (c : Call) : bool :=
  match c with
  | ShouldClose _ | Clear _ | DrawArrays _ _ _ | SwapBuffers | PollEvents => true
  | _ => false
  end.

Definition before_loop (c : Call) : bool := negb (in_loop c).

Lemma startup_before_loop (env : Env) : makes before_loop (startup env).
Proof.
  unfold startup, newProgram, compileShader, newTexture, attributes, panic_on,
    strings.Repeat, image.Bounds, draw.Draw.
  makes_run.
Qed.

(** The loop body cannot fail, so the loop cannot either. *)
Lemma render_loop_no_panic (env : Env) (fuel : nat) (model : Z)
    (startTime : Float.float64) (w : World) (v : PanicValue) (w' : World) :
  render_loop env fuel tt model startTime w <> Panic v w'.
Proof.
  unfold render_loop. revert w.
  induction fuel as [|fuel IH]; intros w; cbn [for_not]; [discriminate|].
  rewrite bind_unfold. unfold window.ShouldClose at 1. cbv beta iota zeta.
  destruct (should_close env (polls w)); [discriminate|].
  rewrite bind_unfold, frame_run. apply IH.
Qed.

(** When the loop returns, the window has just said it should close. *)
Lemma render_loop_returns (env : Env) (fuel : nat) (model : Z)
    (startTime : Float.float64) (w w' : World) :
  render_loop env fuel tt model startTime w = Ok tt w' ->
  exists calls, trace w' = trace w ++ calls ++ [ShouldClose true].
Proof.
  unfold render_loop. revert w.
  induction fuel as [|fuel IH]; intros w; cbn [for_not]; [discriminate|].
  rewrite bind_unfold. unfold window.ShouldClose at 1. cbv beta iota zeta.
  destruct (should_close env (polls w)).
  - intros [= <-]. exists []. reflexivity.
  - rewrite bind_unfold, frame_run. intros H.
    destruct (IH _ H) as (calls & E).
    exists (ShouldClose false :: frame_calls model startTime
                                   (clock env (time_reads w)) ++ calls).
    rewrite E. cbn [trace after_frame emit time_reads].
    rewrite <- !app_assoc. reflexivity.
Qed.

(** X1.  Whatever the file system, the compiler, the linker, the decoder
    and the window answer, and however long [main] runs, the only files it
    reads are [vertex.glsl] and [fragment.glsl], and the only file it opens
    and decodes is [kitten.png]. *)
Theorem main_names_three_files (env : Env) (fuel : nat) :
  Forall (fun c =>
            match c with
            | ReadFile f => f = "vertex.glsl" \/ f = "fragment.glsl"
            | os_Open f | image_Decode f => f = "kitten.png"
            | _ => True
            end)
         (trace (world_of (main env fuel init_world))).
Proof.
  destruct (main_makes names_its_files env fuel eq_refl eq_refl
              (startup_files env) (fun _ => eq_refl) (frame_files env)
              init_world) as (calls & E & F).
  rewrite E. cbn [trace init_world app].
  rewrite forallb_forall in F. apply Forall_forall. intros c Hc.
  apply list_elem_of_In in Hc. specialize (F c Hc).
  destruct c; try exact I; cbn [names_its_files] in F.
  - apply orb_prop in F. destruct F as [F | F]; apply String.eqb_eq in F; auto.
  - now apply String.eqb_eq in F.
  - now apply String.eqb_eq in F.
Qed.

(** X2.  A panic of [main] comes before the render loop: when [main]
    panics, whatever the environment, it has not asked the window whether
    to close and it has made no [Clear], [DrawArrays], [SwapBuffers] or
    [PollEvents] call; the deferred [glfw.Terminate] is its last call when
    GLFW had initialised, and when GLFW did not initialise [glfw.Init] is
    its only call. *)
Theorem main_panics_before_the_loop (env : Env) (fuel : nat)
    (v : PanicValue) (w : World) :
  main env fuel init_world = Panic v w ->
  Forall (fun c => in_loop c = false) (trace w) /\
  match glfw_init_err env with
  | None => exists calls, trace w = calls ++ [glfw_Terminate]
  | Some e => v = PanicError e /\ trace w = [glfw_Init]
  end.
Proof.
  unfold main. rewrite bind_unfold. unfold glfw.Init at 1. cbv beta iota.
  destruct (glfw_init_err env) as [e|].
  - cbn [panic_on]. rewrite bind_unfold. unfold panic.
    intros [= <- <-]. split; [|now split].
    repeat constructor.
  - cbn [panic_on]. rewrite bind_unfold. unfold mret, IO_ret. cbv beta iota.
    unfold defer. rewrite bind_unfold.
    destruct (startup_before_loop env (emit glfw_Init init_world))
      as (calls & E & F).
    destruct (startup env (emit glfw_Init init_world))
      as [[[[] model] startTime] w1|v1 w1|w1].
    + destruct (render_loop env fuel tt model startTime w1) as [a w2|v2 w2|w2]
        eqn:Hl; try discriminate.
      now apply render_loop_no_panic in Hl.
    + intros [= <- <-]. cbn [world_of] in E. split.
      * unfold glfw.Terminate. cbn [trace emit]. rewrite E.
        cbn [trace emit init_world app].
        apply Forall_forall. intros c Hc. apply list_elem_of_In in Hc.
        rewrite forallb_forall in F.
        destruct Hc as [<- | Hc]; [reflexivity|].
        apply in_app_or in Hc. destruct Hc as [Hc | [<- | []]];
          [|reflexivity].
        specialize (F c Hc). unfold before_loop in F.
        now apply negb_true_iff in F.
      * exists (trace w1). reflexivity.
    + discriminate.
Qed.


Lemma main_panics_before_the_loop_witness :
  exists v w,
    main CompileFailure.vertex_broken 5 init_world = Panic v w /\
    Forall (fun c => in_loop c = false) (trace w).
Proof.
  pose proof (fun v w H =>
                proj1 (main_panics_before_the_loop
                         CompileFailure.vertex_broken 5 v w H)) as T.
  eexists _, _. split; [vm_compute; reflexivity|].
  eapply T. vm_compute. reflexivity.
Defined.

(** ** Every failure of the start-up is fatal *)

(** A compilation that fails gives an error, unless the length of the
    log overflows and [strings.Repeat] panics. *)
Lemma compileShader_not_compiled (env : Env) (file : string) (kind : Z)
    (src : string) (w : World) :
  read_file env file = inl src ->
  compile_status env kind (gl.c_string (src +:+ nul)) = false ->
  (exists w', compileShader env file kind w = Panic NegativeRepeat w') \/
  (exists e w', compileShader env file kind w = Ok (0, Some e) w').
Proof.
  intros Hr Hc. unfold compileShader.
  rewrite bind_unfold. unfold ioutil.ReadFile. rewrite Hr.
  unfold gl.CreateShader, gl.ShaderSource, gl.CompileShader, gl.GetShaderiv,
    gl.GetShaderInfoLog, strings.Repeat, effect, panic.
  unfold gl.Str, nul in *.
  io_run. rewrite Hc.
  cbn [Z.eqb gl.TRUE gl.FALSE Z.eqb gl.COMPILE_STATUS gl.INFO_LOG_LENGTH
         Pos.eqb].
  io_run.
  match goal with
  | |- context [if ?c <? 0 then _ else _] => destruct (c <? 0)
  end.
  - left. eexists. reflexivity.
  - right. unfold mret, IO_ret. io_run. eexists _, _. reflexivity.
Qed.

(** What [compileShader] can do, by what the environment answers. *)
Lemma compileShader_outcome (env : Env) (file : string) (kind : Z) (w : World) :
  (exists src,
     read_file env file = inl src /\
     compile_status env kind (gl.c_string (src +:+ nul)) = true /\
     compileShader env file kind w =
     Ok (fresh w, None) (after_compile env file kind src w)) \/
  (exists v w', compileShader env file kind w = Panic v w') \/
  (exists e w', compileShader env file kind w = Ok (0, Some e) w').
Proof.
  destruct (read_file env file) as [src|e] eqn:Hr.
  - destruct (compile_status env kind (gl.c_string (src +:+ nul))) eqn:Hc.
    + left. exists src. split; [reflexivity|]. split; [exact Hc|].
      now apply compileShader_compiled.
    + right.
      destruct (compileShader_not_compiled env file kind src w Hr Hc)
        as [[w' H] | (e & w' & H)]; [left | right]; eauto.
  - right. right. exists e. eexists. now apply compileShader_unreadable.
Qed.

(** A link that fails gives an error, unless the length of the log
    overflows and [strings.Repeat] panics. *)
Lemma newProgram_not_linked (env : Env) (vfile ffile vsrc fsrc : string)
    (w : World) :
  compiles env vfile ffile vsrc fsrc ->
  link_status env (linked_sources vsrc fsrc) = false ->
  (exists w', newProgram env vfile ffile w = Panic NegativeRepeat w') \/
  (exists e w', newProgram env vfile ffile w = Ok (0, Some e) w').
Proof.
  intros (Hrv & Hrf & Hcv & Hcf) Hl.
  unfold newProgram.
  rewrite (bind_Ok _ _ _ _ _ (compileShader_compiled env _ _ _ w Hrv Hcv)).
  cbv beta iota.
  rewrite (bind_Ok _ _ _ _ _ (compileShader_compiled env _ _ _ _ Hrf Hcf)).
  cbv beta iota.
  remember (after_compile env ffile gl.FRAGMENT_SHADER fsrc
              (after_compile env vfile gl.VERTEX_SHADER vsrc w)) as W2 eqn:HW2.
  assert (Hsh : shaders W2 =
            <[fresh w + 1 := compiled_shader env gl.FRAGMENT_SHADER fsrc]>
              (<[fresh w := compiled_shader env gl.VERTEX_SHADER vsrc]>
                 (shaders w)))
    by (subst W2; reflexivity).
  assert (Hv : shaders W2 !! fresh w
               = Some (compiled_shader env gl.VERTEX_SHADER vsrc)).
  { rewrite Hsh, lookup_insert_ne by lia. apply lookup_insert_eq. }
  assert (Hf : shaders W2 !! (fresh w + 1)
               = Some (compiled_shader env gl.FRAGMENT_SHADER fsrc)).
  { rewrite Hsh. apply lookup_insert_eq. }
  change (fresh (after_compile env vfile gl.VERTEX_SHADER vsrc w))
    with (fresh w + 1).
  unfold gl.CreateProgram, gl.AttachShader, gl.LinkProgram, gl.GetProgramiv,
    gl.GetProgramInfoLog, strings.Repeat, gl.DeleteShader, effect, panic,
    gl.attached_sources.
  repeat (io_run; cbn [app omap list_omap]; rewrite ?Hv, ?Hf;
          cbn [fmap option_fmap option_map compiled_shader sh_kind sh_source]).
  fold (linked_sources vsrc fsrc).
  rewrite !Z.eqb_refl. rewrite Hl.
  cbn [Z.eqb gl.TRUE gl.FALSE].
  repeat (io_run; cbn [app omap list_omap]; rewrite ?Hv, ?Hf;
          cbn [fmap option_fmap option_map compiled_shader sh_kind sh_source]).
  fold (linked_sources vsrc fsrc).
  cbn [Z.eqb gl.INFO_LOG_LENGTH gl.LINK_STATUS Pos.eqb].
  match goal with
  | |- context [if ?c <? 0 then _ else _] => destruct (c <? 0)
  end.
  - left. eexists. reflexivity.
  - right. unfold mret, IO_ret. io_run. eexists _, _. reflexivity.
Qed.

(** What [newProgram] can do, by what the environment answers. *)
Lemma newProgram_outcome (env : Env) (vfile ffile : string) (w : World) :
  (exists vsrc fsrc,
     compiles env vfile ffile vsrc fsrc /\
     link_status env (linked_sources vsrc fsrc) = true /\
     newProgram env vfile ffile w =
     Ok (fresh w + 2, None) (after_link env vfile ffile vsrc fsrc w)) \/
  (exists v w', newProgram env vfile ffile w = Panic v w') \/
  (exists e w', newProgram env vfile ffile w = Ok (0, Some e) w').
Proof.
  destruct (compileShader_outcome env vfile gl.VERTEX_SHADER w)
    as [(vsrc & Hrv & Hcv & Hv) | [(v & w' & Hv) | (e & w' & Hv)]].
  - destruct (compileShader_outcome env ffile gl.FRAGMENT_SHADER
                (after_compile env vfile gl.VERTEX_SHADER vsrc w))
      as [(fsrc & Hrf & Hcf & Hf) | [(v & w' & Hf) | (e & w' & Hf)]].
    + assert (Hcomp : compiles env vfile ffile vsrc fsrc)
        by (repeat split; assumption).
      destruct (link_status env (linked_sources vsrc fsrc)) eqn:Hl.
      * left. exists vsrc, fsrc. split; [exact Hcomp|]. split; [exact Hl|].
        rewrite (newProgram_compiled env _ _ _ _ w Hcomp) by congruence.
        now rewrite Hl.
      * right.
        destruct (newProgram_not_linked env _ _ _ _ w Hcomp Hl)
          as [[w' H] | (e & w' & H)]; [left | right]; eauto.
    + right. left. exists v, w'. unfold newProgram.
      rewrite (bind_Ok _ _ _ _ _ Hv). cbv beta iota.
      now rewrite (bind_Panic _ _ _ _ _ Hf).
    + right. right. exists e, w'.
      now apply (newProgram_fragment_error env _ _ _ _ _ _ _ _ Hv Hf).
  - right. left. exists v, w'. unfold newProgram.
    now rewrite (bind_Panic _ _ _ _ _ Hv).
  - right. right. exists e, w'.
    now apply (newProgram_vertex_error env _ _ _ _ _ _ Hv).
Qed.

(** What [newTexture] can do, by what the environment answers. *)
Lemma newTexture_outcome (env : Env) (file : string) (texNum : Z) (w : World) :
  (exists img,
     open_err env file = None /\ decode env file = inl img /\
     contiguous (texture_buffer env img) = true /\
     newTexture env file texNum w =
     Ok (fresh w, None) (after_texture env file texNum img w)) \/
  (exists v w', newTexture env file texNum w = Panic v w') \/
  (exists e w', newTexture env file texNum w = Ok (0, Some e) w').
Proof.
  destruct (open_err env file) as [e|] eqn:Ho.
  - right. right. exists e. eexists. now apply newTexture_unopened.
  - destruct (decode env file) as [img|e] eqn:Hd.
    + destruct (contiguous (texture_buffer env img)) eqn:Hs.
      * left. exists img. repeat split; try assumption.
        now apply newTexture_loaded.
      * right. right. eexists _, _. now apply (newTexture_stride env _ _ img).
    + right. left. eexists _, _. now apply (newTexture_undecoded env _ _ e).
Qed.

Definition panicked {A : Type} (r : Result A) : bool :=
  match r with
  | Panic _ _ => true
  | _ => false
  end.

(** X3.  Every failure of the start-up is fatal.  Unless [main] panics, the
    environment gave it all it needs: GLFW, the window and the OpenGL
    binding initialised, both shader files were read and compiled, the
    program linked, and [kitten.png] was opened, decoded and had contiguous
    rows.  So the render loop is entered in no other case. *)
Theorem no_panic_needs_good_start (env : Env) (fuel : nat) :
  panicked (main env fuel init_world) = false ->
  exists vsrc fsrc img, good_start env vsrc fsrc img.
Proof.
  unfold main, glfw.Init.
  destruct (glfw_init_err env) as [e|] eqn:Hi; [io_run; discriminate|].
  io_run. unfold defer, startup.
  unfold glfw.WindowHint, glfw.CreateWindow, window.MakeContextCurrent,
    gl.Init, effect.
  destruct (create_window_err env) as [e|] eqn:Hc; [io_run; discriminate|].
  destruct (gl_init_err env) as [e|] eqn:Hg; [io_run; discriminate|].
  io_run.
  match goal with
  | |- context [newProgram env _ _ ?W] =>
      replace W with (opened) by (unfold opened, opening_calls; world_eq)
  end.
  destruct (newProgram_outcome env "vertex.glsl" "fragment.glsl" opened)
    as [(vsrc & fsrc & Hcomp & Hl & Hnp) | [(v & w' & Hnp) | (e & w' & Hnp)]];
    rewrite Hnp; [|io_run; discriminate..].
  change (fresh opened + 2) with 3.
  set (W1 := after_link env "vertex.glsl" "fragment.glsl" vsrc fsrc opened) in *.
  unfold gl.UseProgram, gl.GenVertexArrays, gl.BindVertexArray, gl.GenBuffers,
    gl.BindBuffer, gl.BufferData, effect.
  io_run.
  match goal with
  | |- context [attributes env 3 ?W] =>
      replace W with (after_upload 3 W1)
        by (unfold after_upload, upload_calls; world_eq)
  end.
  rewrite attributes_run. io_run.
  match goal with
  | |- context [newTexture env ?f ?t ?W] =>
      destruct (newTexture_outcome env f t W)
        as [(img & Ho & Hd & Hs & Ht) | [(v & w' & Ht) | (e & w' & Ht)]];
      rewrite Ht; [|io_run; discriminate..]
  end.
  intros _. exists vsrc, fsrc, img.
  split; [repeat split; assumption|]. split; [exact Hcomp|].
  repeat split; assumption.
Qed.

Lemma no_panic_needs_good_start_witness :
  panicked (main Demo.good 5 init_world) = false /\
  exists vsrc fsrc img, good_start Demo.good vsrc fsrc img.
Proof.
  split; [vm_compute; reflexivity|].
  apply (no_panic_needs_good_start Demo.good 5). vm_compute. reflexivity.
Defined.

(** X4.  [main] returns only when the window has said it should close:
    whatever the environment, the last two calls of a run that returns are
    the close query answered [true] and the deferred [glfw.Terminate]. *)
Theorem main_returns_on_close (env : Env) (fuel : nat) (w : World) :
  main env fuel init_world = Ok tt w ->
  exists calls, trace w = calls ++ [ShouldClose true; glfw_Terminate].
Proof.
  unfold main. rewrite bind_unfold. unfold glfw.Init at 1. cbv beta iota.
  destruct (glfw_init_err env) as [e|]; [discriminate|].
  cbn [panic_on]. rewrite bind_unfold. unfold mret, IO_ret. cbv beta iota.
  unfold defer. rewrite bind_unfold.
  destruct (startup env (emit glfw_Init init_world))
    as [[[[] model] startTime] w1|v1 w1|w1]; try discriminate.
  destruct (render_loop env fuel tt model startTime w1) as [[] w2|v2 w2|w2]
    eqn:Hl; try discriminate.
  intros [= <-]. destruct (render_loop_returns _ _ _ _ _ _ Hl) as (calls & E).
  exists (trace w1 ++ calls). unfold glfw.Terminate. cbn [trace emit].
  rewrite E, <- !app_assoc. reflexivity.
Qed.

Lemma main_returns_on_close_witness :
  exists w calls,
    main Demo.good 5 init_world = Ok tt w /\
    trace w = calls ++ [ShouldClose true; glfw_Terminate].
Proof.
  pose proof (main_returns_on_close Demo.good 5) as T.
  eexists. 
  assert (H : main Demo.good 5 init_world
              = Ok tt (world_of (main Demo.good 5 init_world)))
    by (vm_compute; reflexivity).
  destruct (T _ H) as (calls & E).
  exists calls. split; [exact H | exact E].
Defined.

(** ** Scenarios *)

(** The same environment with another file system. *)
Definition with_files (env : Env) (read : string -> string + error)
    (opens : string -> option error) : Env :=
  {| glfw_init_err := glfw_init_err env;
     create_window_err := create_window_err env;
     gl_init_err := gl_init_err env;
     read_file := read;
     compile_status := compile_status env;
     shader_info_log := shader_info_log env;
     link_status := link_status env;
     program_info_log := program_info_log env;
     attrib_location := attrib_location env;
     uniform_location := uniform_location env;
     max_vertex_attribs := max_vertex_attribs env;
     open_err := opens;
     decode := decode env;
     NewRGBA := NewRGBA env;
     Draw_Src := Draw_Src env;
     clock := clock env;
     should_close := should_close env |}.

(** The same environment with other uniform locations. *)
Definition with_uniform_location (env : Env) (location : string -> Z) : Env :=
  {| glfw_init_err := glfw_init_err env;
     create_window_err := create_window_err env;
     gl_init_err := gl_init_err env;
     read_file := read_file env;
     compile_status := compile_status env;
     shader_info_log := shader_info_log env;
     link_status := link_status env;
     program_info_log := program_info_log env;
     attrib_location := attrib_location env;
     uniform_location := location;
     max_vertex_attribs := max_vertex_attribs env;
     open_err := open_err env;
     decode := decode env;
     NewRGBA := NewRGBA env;
     Draw_Src := Draw_Src env;
     clock := clock env;
     should_close := should_close env |}.

(** The same environment with other answers of [glfw.Init],
    [glfw.CreateWindow] and [gl.Init]. *)
Definition with_opening (env : Env) (init window binding : option error) : Env :=
  {| glfw_init_err := init;
     create_window_err := window;
     gl_init_err := binding;
     read_file := read_file env;
     compile_status := compile_status env;
     shader_info_log := shader_info_log env;
     link_status := link_status env;
     program_info_log := program_info_log env;
     attrib_location := attrib_location env;
     uniform_location := uniform_location env;
     max_vertex_attribs := max_vertex_attribs env;
     open_err := open_err env;
     decode := decode env;
     NewRGBA := NewRGBA env;
     Draw_Src := Draw_Src env;
     clock := clock env;
     should_close := should_close env |}.

Module MissingFiles.

(** No shader file can be read. *)
Definition no_shaders : Env :=
  with_files Demo.good (fun _ => inr "open: no such file or directory")
    (fun _ => None).

(** The vertex shader file is there and the fragment shader file is not. *)
Definition no_fragment : Env :=
  with_files Demo.good
    (fun file => if String.eqb file "vertex.glsl" then inl Demo.vertex_source
                 else inr "open fragment.glsl: no such file or directory")
    (fun _ => None).

(** The shader files are there and the picture is not. *)
Definition no_picture : Env :=
  with_files Demo.good (read_file Demo.good)
    (fun _ => Some "open kitten.png: no such file or directory").

End MissingFiles.

(** ** A shader file that cannot be read *)

(** X5.  When [ioutil.ReadFile] fails on a shader file, [compileShader]
    returns handle 0 and that error, having made no OpenGL call and created
    no shader object.  [newProgram] returns the same: when it is the vertex
    shader file, the fragment shader file is not even read; when it is the
    fragment shader file, the compiled vertex shader object is left behind.
    [main] panics with the error, and the read is its last call before
    [glfw.Terminate]: the read of [vertex.glsl] right after the opening
    calls, or the read of [fragment.glsl] right after the compilation of
    the vertex shader. *)
Theorem unreadable_shader_is_fatal (env : Env) (file : string) (kind : Z)
    (e : error) :
  read_file env file = inr e ->
  (forall w,
     compileShader env file kind w = Ok (0, Some e) (emit (ReadFile file) w)) /\
  (forall ffile w,
     newProgram env file ffile w = Ok (0, Some e) (emit (ReadFile file) w)) /\
  (forall vfile vsrc w,
     read_file env vfile = inl vsrc ->
     compile_status env gl.VERTEX_SHADER (gl.c_string (vsrc +:+ nul)) = true ->
     newProgram env vfile file w =
     Ok (0, Some e)
        (emit (ReadFile file)
           (after_compile env vfile gl.VERTEX_SHADER vsrc w))) /\
  (starts env -> file = "vertex.glsl" ->
   forall fuel, exists w,
     main env fuel init_world = Panic (PanicError e) w /\
     trace w = opening_calls ++ [ReadFile "vertex.glsl"; glfw_Terminate]) /\
  (starts env -> file = "fragment.glsl" ->
   forall vsrc,
     read_file env "vertex.glsl" = inl vsrc ->
     compile_status env gl.VERTEX_SHADER (gl.c_string (vsrc +:+ nul)) = true ->
     forall fuel, exists w,
       main env fuel init_world = Panic (PanicError e) w /\
       trace w =
         opening_calls ++
         compile_calls env "vertex.glsl" gl.VERTEX_SHADER 1 vsrc ++
         [ReadFile "fragment.glsl"; glfw_Terminate]).
Proof.
  intros Hr.
  assert (Hf : forall vfile vsrc w,
            read_file env vfile = inl vsrc ->
            compile_status env gl.VERTEX_SHADER
              (gl.c_string (vsrc +:+ nul)) = true ->
            newProgram env vfile file w =
            Ok (0, Some e)
               (emit (ReadFile file)
                  (after_compile env vfile gl.VERTEX_SHADER vsrc w))).
  { intros vfile vsrc w Hrv Hcv.
    apply (newProgram_fragment_error env _ _ _ _ _ 0 e _
             (compileShader_compiled env _ _ _ w Hrv Hcv)).
    now apply compileShader_unreadable. }
  split; [|split; [|split; [exact Hf|split]]].
  - intros w. now apply compileShader_unreadable.
  - intros ffile w.
    apply (newProgram_vertex_error env _ _ _ 0 e).
    now apply compileShader_unreadable.
  - intros Hs -> fuel. eexists. split.
    + eapply (main_newProgram_error env fuel 0 e); [exact Hs|].
      apply (newProgram_vertex_error env _ _ _ 0 e).
      now apply compileShader_unreadable.
    + reflexivity.
  - intros Hs -> vsrc Hrv Hcv fuel. eexists. split.
    + eapply (main_newProgram_error env fuel 0 e); [exact Hs|].
      apply (Hf _ _ _ Hrv Hcv).
    + unfold glfw.Terminate. cbn [trace emit after_compile opened fresh].
      rewrite Hcv, app_nil_r, <- !app_assoc. reflexivity.
Qed.

Lemma unreadable_shader_is_fatal_witness :
  let env := MissingFiles.no_shaders in
  let e := "open: no such file or directory" in
  let env' := MissingFiles.no_fragment in
  let e' := "open fragment.glsl: no such file or directory" in
  read_file env "vertex.glsl" = inr e /\
  newProgram env "vertex.glsl" "fragment.glsl" init_world =
    Ok (0, Some e) (emit (ReadFile "vertex.glsl") init_world) /\
  (exists w,
     main env 5 init_world = Panic (PanicError e) w /\
     trace w = opening_calls ++ [ReadFile "vertex.glsl"; glfw_Terminate]) /\
  read_file env' "fragment.glsl" = inr e' /\
  exists w,
    main env' 5 init_world = Panic (PanicError e') w /\
    trace w =
      opening_calls ++
      compile_calls env' "vertex.glsl" gl.VERTEX_SHADER 1 Demo.vertex_source ++
      [ReadFile "fragment.glsl"; glfw_Terminate].
Proof.
  cbv zeta.
  destruct (unreadable_shader_is_fatal MissingFiles.no_shaders "vertex.glsl"
              gl.VERTEX_SHADER "open: no such file or directory" eq_refl)
    as (_ & Hn & _ & Hm & _).
  destruct (unreadable_shader_is_fatal MissingFiles.no_fragment
              "fragment.glsl" gl.FRAGMENT_SHADER
              "open fragment.glsl: no such file or directory" eq_refl)
    as (_ & _ & _ & _ & Hm').
  split; [reflexivity|]. split; [apply Hn|].
  split; [apply Hm; [repeat split | reflexivity]|].
  split; [reflexivity|].
  apply Hm'; [repeat split | reflexivity | reflexivity | reflexivity].
Defined.

(** ** The source that reaches the compiler *)

Fixpoint has_nul (s : string) : bool :=
  match s with
  | EmptyString => false
  | String c rest => Ascii.eqb c GoString.NUL || has_nul rest
  end.

Lemma c_string_no_nul (s : string) : has_nul s = false -> gl.c_string s = s.
Proof.
  induction s as [|c s IH]; [reflexivity|]. cbn [has_nul gl.c_string].
  intros H. apply orb_false_iff in H. destruct H as [Hc Hs].
  rewrite Hc. now rewrite IH.
Qed.

Lemma c_string_cut (pre post : string) :
  has_nul pre = false ->
  gl.c_string (pre +:+ String GoString.NUL post) = pre.
Proof.
  induction pre as [|c s IH].
  - intros _. reflexivity.
  - cbn [has_nul]. intros H. apply orb_false_iff in H. destruct H as [Hc Hs].
    rewrite GoString.app_cons. cbn [gl.c_string]. rewrite Hc.
    now rewrite IH.
Qed.

(** The shader object and the first calls of [compileShader] on a file
    that was read, however the compilation goes. *)
Lemma compileShader_source (env : Env) (file : string) (kind : Z)
    (src : string) (w : World) :
  read_file env file = inl src ->
  let w' := world_of (compileShader env file kind w) in
  shaders w' !! fresh w = Some (compiled_shader env kind src) /\
  exists calls,
    trace w' = trace w ++ compile_calls env file kind (fresh w) src ++ calls.
Proof.
  intros Hr. cbv zeta.
  destruct (compile_status env kind (gl.c_string (src +:+ nul))) eqn:Hc.
  - rewrite (compileShader_compiled env _ _ _ w Hr Hc). cbn [world_of].
    split; [apply lookup_insert_eq|]. exists [].
    cbn [trace after_compile]. now rewrite Hc.
  - unfold compileShader.
    rewrite bind_unfold. unfold ioutil.ReadFile. rewrite Hr.
    unfold gl.CreateShader, gl.ShaderSource, gl.CompileShader, gl.GetShaderiv,
      gl.GetShaderInfoLog, strings.Repeat, effect, panic.
    unfold compile_calls, compiled_shader.
    unfold gl.Str, nul in *.
    io_run. rewrite Hc.
    cbn [Z.eqb gl.TRUE gl.FALSE Z.eqb gl.COMPILE_STATUS gl.INFO_LOG_LENGTH
           Pos.eqb].
    io_run.
    match goal with
    | |- context [if ?c <? 0 then _ else _] => destruct (c <? 0)
    end.
    + cbn [world_of]. world_fields. rewrite lookup_insert_eq.
      split; [reflexivity|]. eexists. rewrite <- !app_assoc. reflexivity.
    + unfold mret, IO_ret. io_run. cbn [world_of]. world_fields.
      rewrite lookup_insert_eq.
      split; [reflexivity|]. eexists. rewrite <- !app_assoc. reflexivity.
Qed.

(** X6.  The source that [compileShader] hands to the compiler is the
    content of the file up to its first zero byte: [ShaderSource] is given
    no lengths, so the driver reads a C string.  A file without a zero
    byte is passed whole; from a file with one, everything from the first
    zero byte on is dropped.  This is the text stored in the shader object,
    whether it then compiles or not. *)
Theorem shader_source_is_cut_at_nul (env : Env) (file : string) (kind : Z)
    (src : string) (w : World) :
  read_file env file = inl src ->
  let w' := world_of (compileShader env file kind w) in
  sh_source <$> shaders w' !! fresh w = Some (gl.c_string src) /\
  In (ShaderSource (fresh w) (gl.c_string src)) (trace w') /\
  (has_nul src = false -> gl.c_string src = src) /\
  (forall pre post,
     src = pre +:+ String GoString.NUL post -> has_nul pre = false ->
     gl.c_string src = pre).
Proof.
  intros Hr. cbv zeta.
  destruct (compileShader_source env file kind src w Hr) as (Hs & calls & Ht).
  split; [|split; [|split]].
  - rewrite Hs. cbn. now rewrite c_string_app_nul.
  - rewrite Ht. apply in_or_app. right. apply in_or_app. left.
    unfold compile_calls. rewrite c_string_app_nul. cbn. auto.
  - apply c_string_no_nul.
  - intros pre post -> Hp. now apply c_string_cut.
Qed.

Module EmbeddedNul.

(** The vertex shader file holds a zero byte after its first line. *)
Definition source : string :=
  "void main() {}" +:+ String GoString.NUL "#error never seen".

Definition cut : Env :=
  with_files Demo.good
    (fun file => if String.eqb file "vertex.glsl" then inl source
                 else read_file Demo.good file)
    (open_err Demo.good).

End EmbeddedNul.

Lemma shader_source_is_cut_at_nul_witness :
  let env := EmbeddedNul.cut in
  let w' := world_of (compileShader env "vertex.glsl" gl.VERTEX_SHADER
                        init_world) in
  read_file env "vertex.glsl" = inl EmbeddedNul.source /\
  sh_source <$> shaders w' !! 1 = Some "void main() {}".
Proof.
  cbv zeta. split; [reflexivity|].
  apply (shader_source_is_cut_at_nul EmbeddedNul.cut "vertex.glsl"
           gl.VERTEX_SHADER EmbeddedNul.source init_world eq_refl).
Defined.

(** ** The picture *)

(** X7.  When [os.Open] fails, [newTexture] returns handle 0 and that
    error at once: the file is not decoded and no OpenGL call is made.
    [main], which by then has built the program and set up the vertex
    attributes, panics with the error; the failed open is its last call
    before [glfw.Terminate]. *)
Theorem unopened_picture_is_fatal (env : Env) (file : string) (texNum : Z)
    (e : error) :
  open_err env file = Some e ->
  (forall w,
     newTexture env file texNum w = Ok (0, Some e) (emit (os_Open file) w)) /\
  (file = "kitten.png" -> starts env ->
   forall vsrc fsrc,
     compiles env "vertex.glsl" "fragment.glsl" vsrc fsrc ->
     link_status env (linked_sources vsrc fsrc) = true ->
     forall fuel, exists w calls,
       main env fuel init_world = Panic (PanicError e) w /\
       trace w = calls ++ [os_Open "kitten.png"; glfw_Terminate]).
Proof.
  intros Ho. split.
  - intros w. now apply newTexture_unopened.
  - intros -> Hs vsrc fsrc Hcomp Hl fuel. eexists _, _. split.
    + eapply (main_newTexture_error env fuel vsrc fsrc 0 e); try eassumption.
      now apply newTexture_unopened.
    + unfold glfw.Terminate. cbn [trace emit].
      rewrite <- app_assoc. reflexivity.
Qed.

Lemma unopened_picture_is_fatal_witness :
  let env := MissingFiles.no_picture in
  let e := "open kitten.png: no such file or directory" in
  open_err env "kitten.png" = Some e /\
  exists w calls,
    main env 5 init_world = Panic (PanicError e) w /\
    trace w = calls ++ [os_Open "kitten.png"; glfw_Terminate].
Proof.
  cbv zeta. split; [reflexivity|].
  apply (proj2 (unopened_picture_is_fatal MissingFiles.no_picture
                  "kitten.png" gl.TEXTURE0
                  "open kitten.png: no such file or directory" eq_refl)
           eq_refl ltac:(repeat split)
           Demo.vertex_source Demo.fragment_source
           ltac:(repeat split) eq_refl 5%nat).
Defined.

(** What [image.NewRGBA] of Go's library answers: a buffer over the
    rectangle it was given, its rows four bytes for each pixel. *)
Definition NewRGBA_of_Go (env : Env) : Prop :=
  forall r,
    Stride (NewRGBA env r) = 4 * (X (Max r) - X (Min r)) /\
    Rect (NewRGBA env r) = r.

(** X8.  With the [image.NewRGBA] of Go's library the stride check of
    [newTexture] never fails: the only error [newTexture] returns is the
    one of [os.Open].  An image that opens and decodes is uploaded by one
    [TexImage2D] call, after the texture has been generated and bound on
    the unit asked for and both filters set to [LINEAR]; the width and
    height uploaded are those of the bounds of the image (when they fit an
    [int32]) and the pixels are those drawn from the image. *)
Theorem stride_check_never_fails (env : Env) (file : string) (texNum : Z)
    (w : World) :
  NewRGBA_of_Go env ->
  (forall h err w',
     newTexture env file texNum w = Ok (h, Some err) w' ->
     open_err env file = Some err) /\
  (forall img,
     open_err env file = None -> decode env file = inl img ->
     let width := X (Max (Bounds img)) - X (Min (Bounds img)) in
     let height := Y (Max (Bounds img)) - Y (Min (Bounds img)) in
     GoInt.is_int32 width -> GoInt.is_int32 height ->
     exists w',
       newTexture env file texNum w = Ok (fresh w, None) w' /\
       trace w' =
         trace w ++
         [os_Open file; image_Decode file; GenTextures (fresh w);
          ActiveTexture texNum; BindTexture gl.TEXTURE_2D (fresh w);
          TexParameteri gl.TEXTURE_2D gl.TEXTURE_MIN_FILTER gl.LINEAR;
          TexParameteri gl.TEXTURE_2D gl.TEXTURE_MAG_FILTER gl.LINEAR;
          TexImage2D gl.TEXTURE_2D 0 gl.RGBA width height 0 gl.RGBA
            gl.UNSIGNED_BYTE
            (Draw_Src env (NewRGBA env (Bounds img)) img)]).
Proof.
  intros Hgo.
  assert (Hcont : forall img, contiguous (texture_buffer env img) = true).
  { intros img. unfold contiguous, texture_buffer.
    destruct (Hgo (Bounds img)) as [-> ->].
    apply Z.eqb_eq. cbn [Rectangle_Size X]. lia. }
  split.
  - intros h err w' H.
    destruct (open_err env file) as [e|] eqn:Ho.
    + rewrite (newTexture_unopened env file texNum e w Ho) in H. congruence.
    + destruct (decode env file) as [img|e] eqn:Hd.
      * rewrite (newTexture_loaded env file texNum img w Ho Hd (Hcont img)) in H.
        discriminate.
      * rewrite (newTexture_undecoded env file texNum e w Ho Hd) in H.
        discriminate.
  - intros img Ho Hd width height Hw Hh. eexists. split.
    + apply (newTexture_loaded env file texNum img w Ho Hd (Hcont img)).
    + cbn [trace after_texture]. unfold texture_calls, texture_buffer.
      destruct (Hgo (Bounds img)) as [_ ->]. cbn [Rectangle_Size X Y].
      fold width height.
      rewrite (GoInt.to_int32_id _ Hw), (GoInt.to_int32_id _ Hh).
      reflexivity.
Qed.

Lemma stride_check_never_fails_witness :
  let env := Demo.good in
  NewRGBA_of_Go env /\
  exists w',
    newTexture env "kitten.png" gl.TEXTURE0 init_world = Ok (1, None) w' /\
    In (TexImage2D gl.TEXTURE_2D 0 gl.RGBA 2 2 0 gl.RGBA gl.UNSIGNED_BYTE
          (repeat 255 16))
       (trace w').
Proof.
  cbv zeta.
  assert (Hgo : NewRGBA_of_Go Demo.good).
  { intros r. split; [cbn; lia | reflexivity]. }
  split; [exact Hgo|].
  destruct (proj2 (stride_check_never_fails Demo.good "kitten.png"
                     gl.TEXTURE0 init_world Hgo)
              Demo.picture eq_refl eq_refl)
    as (w' & Hr & Ht).
  - cbn. unfold GoInt.is_int32. lia.
  - cbn. unfold GoInt.is_int32. lia.
  - exists w'. split; [exact Hr|]. rewrite Ht. cbn. auto 10.
Defined.

(** ** A uniform the program does not use *)

Lemma write_uniform_inactive (v : Mat4) (m : gmap Z Mat4) :
  write_uniform (-1) v m = m.
Proof. reflexivity. Qed.

Lemma iterations_uniforms_inactive (env : Env) (n : nat)
    (startTime : Float.float64) (w : World) :
  uniforms (iterations env n (-1) startTime w) = uniforms w.
Proof.
  revert w. induction n as [|n IH]; intros w; [reflexivity|].
  cbn [iterations]. rewrite IH. reflexivity.
Qed.

Module InactiveUniform.

(** The program does not use [model]: its location is -1. *)
Definition still : Env :=
  with_uniform_location Demo.good
    (fun name => if String.eqb name "view" then 1
                 else if String.eqb name "proj" then 2 else -1).

Lemma still_starts :
  good_start still Demo.vertex_source Demo.fragment_source Demo.picture.
Proof. repeat split. Qed.

Lemma still_closes : closes_after still 2.
Proof.
  split; [|reflexivity].
  intros i Hi. destruct i as [|[|i]]; [reflexivity | reflexivity | lia].
Qed.

End InactiveUniform.

(** X9.  A uniform that the program does not use is no error either.  When
    the location of [model] is -1, [main] still runs to its end and draws
    every frame; but the write of each frame is ignored, so no rotation is
    ever stored: the uniforms of the program are, at the end, what the
    start-up left, the view and the projection matrix at most. *)
Theorem inactive_model_uniform_is_ignored (env : Env) (vsrc fsrc : string)
    (img : Image) (n fuel : nat) :
  good_start env vsrc fsrc img ->
  uniform_location env "model" = -1 ->
  closes_after env n -> (n < fuel)%nat ->
  exists w,
    main env fuel init_world = Ok tt w /\
    List.filter is_draw (trace w) = repeat (DrawArrays gl.TRIANGLES 0 36) n /\
    uniforms w = uniforms (started env vsrc fsrc img) /\
    (forall location value,
       uniforms w !! location = Some value ->
       value = matView \/ value = matProj).
Proof.
  intros Hgood Hm Hclose Hfuel.
  eexists. split; [apply (main_good_closed env _ _ _ _ _ Hgood Hclose Hfuel)|].
  unfold glfw.Terminate. cbn [trace uniforms emit].
  rewrite iterations_trace, (started_trace env _ _ _ Hgood).
  unfold uniModel. rewrite Hm.
  rewrite iterations_uniforms_inactive.
  split; [|split; [reflexivity|]].
  - rewrite !List.filter_app, startup_draws, loop_draws. cbn.
    now rewrite !app_nil_r.
  - intros location value.
    unfold started. cbn [uniforms after_uniforms after_texture after_attributes
                         after_attrib after_upload after_link opened].
    unfold write_uniform.
    destruct (uniProj env =? -1), (uniView env =? -1);
      rewrite ?lookup_insert_Some, ?lookup_empty; intros H;
      repeat match goal with
             | H : _ \/ _ |- _ => destruct H
             | H : _ /\ _ |- _ => destruct H
             end; try discriminate; try (left; congruence); try (right; congruence).
Qed.

Lemma inactive_model_uniform_is_ignored_witness :
  let env := InactiveUniform.still in
  good_start env Demo.vertex_source Demo.fragment_source Demo.picture /\
  uniform_location env "model" = -1 /\
  closes_after env 2 /\ (2 < 5)%nat /\
  exists w,
    main env 5 init_world = Ok tt w /\
    List.filter is_draw (trace w) =
      [DrawArrays gl.TRIANGLES 0 36; DrawArrays gl.TRIANGLES 0 36] /\
    uniforms w !! (-1) = None.
Proof.
  cbv zeta.
  split; [exact InactiveUniform.still_starts|]. split; [reflexivity|].
  split; [exact InactiveUniform.still_closes|]. split; [lia|].
  destruct (inactive_model_uniform_is_ignored InactiveUniform.still
              Demo.vertex_source Demo.fragment_source Demo.picture 2 5
              InactiveUniform.still_starts eq_refl
              InactiveUniform.still_closes ltac:(lia))
    as (w & Hr & Hd & Hu & _).
  exists w. split; [exact Hr|]. split; [exact Hd|].
  rewrite Hu. vm_compute. reflexivity.
Defined.

(** ** A window that stays open *)

Definition is_terminate (c : Call) : bool :=
  match c with
  | glfw_Terminate => true
  | _ => false
  end.

Lemma startup_terminates (env : Env) vsrc fsrc img :
  List.filter is_terminate (startup_calls env vsrc fsrc img) = [].
Proof. reflexivity. Qed.

Lemma loop_terminates (env : Env) model startTime t n :
  List.filter is_terminate (loop_calls env model startTime t n) = [].
Proof.
  unfold loop_calls. generalize 0%nat as s.
  induction n as [|n IH]; intros s; [reflexivity|].
  cbn [seq flat_map]. rewrite List.filter_app, IH. reflexivity.
Qed.

Module OpenWindow.

(** The window is not closed during the first hundred frames. *)
Definition patient : Env := Demo.env true true true EmptyString true 0 1 100.

Lemma patient_starts :
  good_start patient Demo.vertex_source Demo.fragment_source Demo.picture.
Proof. repeat split. Qed.

End OpenWindow.

(** X10.  The close query is the only way out of the render loop.  After a
    good start, while the window answers that it should not close, [main]
    neither returns nor panics: whatever the bound on the iterations,
    [main] is still running when it is reached, it has drawn one frame and
    polled the events once for each iteration, and it has not called
    [glfw.Terminate]. *)
Theorem loop_runs_while_window_is_open (env : Env) (vsrc fsrc : string)
    (img : Image) (fuel : nat) :
  good_start env vsrc fsrc img ->
  (forall i, (i < fuel)%nat -> should_close env i = false) ->
  exists w,
    main env fuel init_world = Running w /\
    List.filter is_draw (trace w) = repeat (DrawArrays gl.TRIANGLES 0 36) fuel /\
    polls w = fuel /\
    ~ In glfw_Terminate (trace w).
Proof.
  intros Hgood Hopen. eexists.
  split; [apply (main_good_open env _ _ _ _ Hgood Hopen)|].
  rewrite iterations_trace, iterations_polls, (started_trace env _ _ _ Hgood).
  destruct (started_counters env vsrc fsrc img) as [-> ->].
  split; [|split; [reflexivity|]].
  - rewrite List.filter_app, startup_draws, loop_draws. reflexivity.
  - intros Hin.
    assert (H : In glfw_Terminate
                  (List.filter is_terminate
                     (startup_calls env vsrc fsrc img ++
                      loop_calls env (uniModel env) (clock env 0) 1 fuel))).
    { apply filter_In. split; [exact Hin | reflexivity]. }
    rewrite List.filter_app, startup_terminates, loop_terminates in H.
    exact H.
Qed.

Lemma loop_runs_while_window_is_open_witness :
  let env := OpenWindow.patient in
  good_start env Demo.vertex_source Demo.fragment_source Demo.picture /\
  (forall i, (i < 3)%nat -> should_close env i = false) /\
  exists w,
    main env 3 init_world = Running w /\
    List.filter is_draw (trace w) = repeat (DrawArrays gl.TRIANGLES 0 36) 3 /\
    polls w = 3%nat.
Proof.
  cbv zeta.
  assert (Hopen : forall i, (i < 3)%nat ->
                            should_close OpenWindow.patient i = false).
  { intros i Hi. destruct i as [|[|[|i]]]; [reflexivity.. | lia]. }
  split; [exact OpenWindow.patient_starts|]. split; [exact Hopen|].
  destruct (loop_runs_while_window_is_open OpenWindow.patient
              Demo.vertex_source Demo.fragment_source Demo.picture 3
              OpenWindow.patient_starts Hopen)
    as (w & Hr & Hd & Hp & _).
  exists w. split; [exact Hr|]. split; [exact Hd | exact Hp].
Defined.

(** ** The vertex attributes and the buffer they read *)

Lemma iterations_attribs (env : Env) (n : nat) (model : Z)
    (startTime : Float.float64) (w : World) :
  attribs (iterations env n model startTime w) = attribs w.
Proof.
  revert w. induction n as [|n IH]; intros w; [reflexivity|].
  cbn [iterations]. rewrite IH. reflexivity.
Qed.

Lemma iterations_gl_errors (env : Env) (n : nat) (model : Z)
    (startTime : Float.float64) (w : World) :
  gl_errors (iterations env n model startTime w) = gl_errors w.
Proof.
  revert w. induction n as [|n IH]; intros w; [reflexivity|].
  cbn [iterations]. rewrite IH. reflexivity.
Qed.

(** The attribute table at the end of any run after a good start is the
    one the start-up set. *)
Lemma main_good_attribs (env : Env) (vsrc fsrc : string) (img : Image)
    (fuel : nat) :
  good_start env vsrc fsrc img ->
  attribs (world_of (main env fuel init_world)) =
  set_attrib env "texCoord" 2 24
    (set_attrib env "color" 3 12 (set_attrib env "position" 3 0 ∅)).
Proof.
  intros Hgood.
  destruct (first_close env fuel) as [Hopen | (n & Hn & Hc)].
  - rewrite (main_good_open env _ _ _ _ Hgood Hopen). cbn [world_of].
    rewrite iterations_attribs. reflexivity.
  - rewrite (main_good_closed env _ _ _ _ _ Hgood Hc Hn).
    cbn [world_of attribs glfw.Terminate emit].
    rewrite iterations_attribs. reflexivity.
Qed.

Lemma set_attrib_Forall (env : Env) (P : VertexAttrib -> Prop) (name : string)
    (size offset : Z) (m : gmap Z VertexAttrib) :
  P (attrib_state size offset) ->
  map_Forall (fun _ a => P a) m ->
  map_Forall (fun _ a => P a) (set_attrib env name size offset m).
Proof.
  intros Hp Hm. unfold set_attrib.
  destruct (attrib_index env name <? max_vertex_attribs env); [|exact Hm].
  now apply map_Forall_insert_2.
Qed.

(** X11.  The draw calls read inside the vertex buffer.  In every run of
    [main] after a good start, whatever locations the attributes have: the
    one buffer upload is of 1344 bytes; every attribute that the start-up
    has set is enabled, of type [FLOAT], with a stride of 32 bytes; and for
    every vertex index [i] that a draw call of the run covers, the
    components of the attribute, at byte [offset + stride * i] and four
    bytes each, lie within those 1344 bytes. *)
Theorem attributes_read_inside_the_buffer (env : Env) (vsrc fsrc : string)
    (img : Image) (fuel : nat) :
  good_start env vsrc fsrc img ->
  let w := world_of (main env fuel init_world) in
  List.filter is_upload (trace w) =
    [BufferData gl.ARRAY_BUFFER 1344 vertices gl.STATIC_DRAW] /\
  map_Forall
    (fun _ a =>
       va_enabled a = true /\ va_type a = gl.FLOAT /\ va_stride a = 32 /\
       forall c i,
         In c (trace w) -> In i (drawn c) ->
         0 <= va_offset a + va_stride a * Z.of_nat i /\
         va_offset a + va_stride a * Z.of_nat i + 4 * va_size a <= 1344)
    (attribs w).
Proof.
  intros Hgood w.
  destruct (main_good_trace env vsrc fsrc img fuel Hgood)
    as (n & closing & _ & Hclosing & Htrace & _).
  assert (Hdraws : List.filter is_draw (trace w)
                   = repeat (DrawArrays gl.TRIANGLES 0 36) n).
  { unfold w. rewrite Htrace, !List.filter_app, startup_draws, loop_draws.
    destruct Hclosing as [-> | ->]; cbn [List.filter is_draw app];
      now rewrite app_nil_r. }
  assert (Hi : forall c i, In c (trace w) -> In i (drawn c) -> (i < 36)%nat).
  { intros c i Hc Hi. destruct (is_draw c) eqn:Hd.
    - rewrite (filter_repeat_all is_draw _ _ _ Hdraws c Hc Hd) in Hi.
      cbn [drawn] in Hi. apply in_seq in Hi. lia.
    - destruct c; cbn [drawn] in Hi; try contradiction. discriminate Hd. }
  split.
  { unfold w. rewrite Htrace, !List.filter_app, startup_uploads, loop_uploads.
    destruct Hclosing as [-> | ->]; reflexivity. }
  change (attribs w) with (attribs (world_of (main env fuel init_world))).
  rewrite (main_good_attribs env _ _ _ _ Hgood).
  repeat apply set_attrib_Forall;
    try (cbn [attrib_state va_enabled va_type va_stride va_offset va_size];
         split; [reflexivity|]; split; [reflexivity|]; split; [reflexivity|];
         intros c i Hc Hin; specialize (Hi c i Hc Hin); lia).
  apply map_Forall_empty.
Qed.

Lemma attributes_read_inside_the_buffer_witness :
  let w := world_of (main Demo.good 5 init_world) in
  good_start Demo.good Demo.vertex_source Demo.fragment_source Demo.picture /\
  List.filter is_upload (trace w) =
    [BufferData gl.ARRAY_BUFFER 1344 vertices gl.STATIC_DRAW] /\
  (va_offset <$> attribs w !! 2) = Some 24 /\
  24 + 32 * 35 + 4 * 2 <= 1344.
Proof.
  cbv zeta. split; [exact Demo.good_starts|].
  split; [|split; [vm_compute; reflexivity | lia]].
  apply (attributes_read_inside_the_buffer Demo.good Demo.vertex_source
           Demo.fragment_source Demo.picture 5 Demo.good_starts).
Defined.

Lemma to_uint32_id (x : Z) : 0 <= x < 2 ^ 32 -> GoInt.to_uint32 x = x.
Proof. intros H. unfold GoInt.to_uint32. now apply Z.mod_small. Qed.

(** X12.  Attributes that the program uses are laid out as the vertex
    table is.  When [position], [color] and [texCoord] have three distinct
    locations below [MAX_VERTEX_ATTRIBS], the conversion of a location to
    [uint32] keeps it, and after the attribute set-up of [main] the
    attribute at each location is enabled and reads [FLOAT]s with a stride
    of 32 bytes: three at offset 0, three at offset 12 and two at offset
    24.  No OpenGL error is raised and no other attribute is touched. *)
Theorem active_attributes_are_laid_out (env : Env) (program : Z) (w : World) :
  let pos := attrib_location env "position" in
  let col := attrib_location env "color" in
  let tex := attrib_location env "texCoord" in
  0 <= pos < max_vertex_attribs env ->
  0 <= col < max_vertex_attribs env ->
  0 <= tex < max_vertex_attribs env ->
  max_vertex_attribs env <= 2 ^ 32 ->
  pos <> col -> pos <> tex -> col <> tex ->
  exists w',
    attributes env program w = Ok tt w' /\
    attribs w' !! pos = Some (attrib_state 3 0) /\
    attribs w' !! col = Some (attrib_state 3 12) /\
    attribs w' !! tex = Some (attrib_state 2 24) /\
    (forall i, i <> pos -> i <> col -> i <> tex ->
               attribs w' !! i = attribs w !! i) /\
    gl_errors w' = gl_errors w.
Proof.
  intros pos col tex Hp Hc Ht Hmax Hpc Hpt Hct.
  eexists. split; [apply attributes_run|].
  unfold after_attributes.
  cbn [attribs gl_errors after_attrib].
  unfold set_attrib, attrib_errors, attrib_index.
  fold pos col tex.
  rewrite !to_uint32_id by lia.
  replace (pos <? max_vertex_attribs env) with true by lia.
  replace (col <? max_vertex_attribs env) with true by lia.
  replace (tex <? max_vertex_attribs env) with true by lia.
  split; [|split; [|split; [|split]]].
  - rewrite !lookup_insert_ne by congruence. apply lookup_insert_eq.
  - rewrite lookup_insert_ne by congruence. apply lookup_insert_eq.
  - apply lookup_insert_eq.
  - intros i H1 H2 H3. now rewrite !lookup_insert_ne by congruence.
  - now rewrite !app_nil_r.
Qed.

Lemma active_attributes_are_laid_out_witness :
  let w' := world_of (attributes Demo.good 3 init_world) in
  attribs w' !! 0 = Some (attrib_state 3 0) /\
  attribs w' !! 1 = Some (attrib_state 3 12) /\
  attribs w' !! 2 = Some (attrib_state 2 24) /\
  gl_errors w' = [].
Proof.
  cbv zeta.
  destruct (active_attributes_are_laid_out Demo.good 3 init_world)
    as (w' & Hr & H0 & H1 & H2 & _ & He);
    try (cbn; lia).
  rewrite Hr. cbn [world_of].
  split; [exact H0|]. split; [exact H1|]. split; [exact H2 | exact He].
Defined.

(** ** More on the rotation angle *)

Module AngleFacts.

(** A float that represents a value is a number, well formed in its
    format, and not below zero. *)
Lemma represents_valid (prec emax E0 : Z) (d : spec_float) (V : Z) :
  Rounding.represents prec emax E0 d V ->
  valid_binary prec emax d = true /\ d <> S754_nan /\
  SFleb (S754_zero false) d = true.
Proof.
  intros [[_ [s ->]] | (M & e & HM & Hc & -> & _)].
  - repeat split. discriminate.
  - destruct M as [|p|p]; try lia. unfold Rounding.pack.
    destruct (e <=? emax - prec) eqn:B.
    + split; [|split; [discriminate | reflexivity]].
      cbn [valid_binary]. unfold bounded, canonical_mantissa.
      rewrite B, andb_true_r. apply Z.eqb_eq. exact Hc.
    + repeat split. discriminate.
Qed.

End AngleFacts.

(** X13.  While the clock still reads the start time the cube is not
    turned: for every finite time [t], the angle [float32(t - t)] is
    exactly [+0]. *)
Theorem angle_is_zero_at_start (t : Float.float64) :
  Float.finite64 t -> rotation t t = HomogRotate3DZ (S754_zero false).
Proof.
  intros [_ Hf]. unfold rotation. f_equal.
  destruct t as [s| | |s m e]; try contradiction.
  - destruct s; reflexivity.
  - unfold Float.sub64. cbn [SFsub]. rewrite Z.sub_diag. reflexivity.
Qed.

Lemma angle_is_zero_at_start_witness :
  Float.finite64 (Demo.half_seconds 3) /\
  rotation (Demo.half_seconds 3) (Demo.half_seconds 3)
    = HomogRotate3DZ (S754_zero false).
Proof.
  split; [split; [reflexivity | exact I]|].
  apply angle_is_zero_at_start. split; [reflexivity | exact I].
Defined.

(** X14.  The angle is always a number, and never a negative one.  For
    finite times [startTime <= now], the angle [float32(now - startTime)]
    that the frame uploads is a well-formed [float32] (a zero, a finite
    number or, if the difference is too large for the format, infinity);
    it is not a NaN, and it is not below zero. *)
Theorem angle_is_a_number_not_below_zero (startTime now : Float.float64) :
  Float.finite64 startTime -> Float.finite64 now ->
  Float.le64 startTime now = true ->
  exists a,
    rotation startTime now = HomogRotate3DZ a /\
    valid_binary Float.prec32 Float.emax32 a = true /\
    a <> S754_nan /\
    Float.le32 (S754_zero false) a = true.
Proof.
  intros Hs Hn Hle. eexists. split; [reflexivity|].
  apply (AngleFacts.represents_valid _ _ Angle.E0 _
           (Angle.rounded32
              (Angle.rounded64 (Angle.value64 now - Angle.value64 startTime)))).
  apply Angle.angle_represents; try assumption.
  now apply (Rounding.leb_signed_value _ _ _ Angle.prec64_pos Angle.E0_emin64).
Qed.

Lemma angle_is_a_number_not_below_zero_witness :
  let startTime := Demo.half_seconds 1 in
  let now := Demo.half_seconds 4 in
  Float.finite64 startTime /\ Float.finite64 now /\
  Float.le64 startTime now = true /\
  exists a,
    rotation startTime now = HomogRotate3DZ a /\
    valid_binary Float.prec32 Float.emax32 a = true /\
    a <> S754_nan /\
    Float.le32 (S754_zero false) a = true.
Proof.
  cbv zeta.
  split; [split; [reflexivity | exact I]|].
  split; [split; [reflexivity | exact I]|].
  split; [reflexivity|].
  apply angle_is_a_number_not_below_zero;
    [split; [reflexivity | exact I] .. | reflexivity].
Defined.

(** * The earlier programs of the repository

    The repository keeps two earlier versions of [main]: the first opens
    the window and swaps buffers until it is closed; the second also builds
    the shader program and clears the colour buffer in each frame.  Their
    [newProgram] and [compileShader] are those of the final program. *)

Module FirstWindow.

(** [main] of [main.go]. *)
Definition main (env : Env) (fuel : nat) : IO unit :=
  err ← glfw.Init env;
  panic_on err;;
  defer glfw.Terminate (
    glfw.WindowHint glfw.ContextVersionMajor 3;;
    glfw.WindowHint glfw.ContextVersionMinor 3;;
    glfw.WindowHint glfw.OpenGLProfile glfw.OpenGLCoreProfile;;
    glfw.WindowHint glfw.OpenGLForwardCompatible glfw.True;;
    '(window, err) ← glfw.CreateWindow env 640 480 "GOPenGL";
    panic_on err;;
    window.MakeContextCurrent window;;
    err ← gl.Init env;
    panic_on err;;
    for_not fuel (window.ShouldClose env window)
      (window.SwapBuffers window;;
       glfw.PollEvents)).

End FirstWindow.

Module ClearedWindow.

(** The [main] that builds the program and clears the window. *)
Definition main (env : Env) (fuel : nat) : IO unit :=
  (* initialize GLFW *)
  err ← glfw.Init env;
  panic_on err;;
  defer glfw.Terminate (
    (* set opengl core profile 3.3 *)
    glfw.WindowHint glfw.ContextVersionMajor 3;;
    glfw.WindowHint glfw.ContextVersionMinor 3;;
    glfw.WindowHint glfw.OpenGLProfile glfw.OpenGLCoreProfile;;
    glfw.WindowHint glfw.OpenGLForwardCompatible glfw.True;;
    '(window, err) ← glfw.CreateWindow env 640 480 "GOPenGL";
    panic_on err;;
    window.MakeContextCurrent window;;
    (* initialise OpenGL library *)
    err ← gl.Init env;
    panic_on err;;
    (* link program from shaders *)
    '(program, err) ← newProgram env "vertex.glsl" "fragment.glsl";
    panic_on err;;
    gl.UseProgram program;;
    for_not fuel (window.ShouldClose env window)
      ((* clear to black *)
       gl.Clear gl.COLOR_BUFFER_BIT;;
       window.SwapBuffers window;;
       glfw.PollEvents)).

End ClearedWindow.

(** ** Loops whose body cannot fail *)

Section Loop.

Variable env : Env.
Variable body : IO unit.
Variable calls : list Call.

(** The body makes the calls [calls] and polls the events once. *)
Definition after_body (w : World) : World :=
  {| trace := trace w ++ calls; fresh := fresh w; shaders := shaders w;
     programs := programs w; attribs := attribs w; uniforms := uniforms w;
     gl_errors := gl_errors w; time_reads := time_reads w;
     polls := S (polls w) |}.

Hypothesis body_run : forall w, body w = Ok tt (after_body w).

Fixpoint passes (n : nat) (w : World) : World :=
  match n with
  | O => w
  | S n' => passes n' (after_body (emit (ShouldClose false) w))
  end.

Lemma passes_trace (n : nat) (w : World) :
  trace (passes n w) =
  trace w ++ concat (repeat (ShouldClose false :: calls) n).
Proof.
  revert w. induction n as [|n IH]; intros w.
  - cbn. now rewrite app_nil_r.
  - cbn [passes repeat concat]. rewrite IH.
    cbn [trace after_body emit]. rewrite <- !app_assoc. reflexivity.
Qed.

Lemma loop_closed (n fuel : nat) (w : World) :
  (forall i, (i < n)%nat -> should_close env (polls w + i) = false) ->
  should_close env (polls w + n) = true ->
  (n < fuel)%nat ->
  for_not fuel (window.ShouldClose env tt) body w =
  Ok tt (emit (ShouldClose true) (passes n w)).
Proof.
  revert fuel w. induction n as [|n IH]; intros fuel w Hopen Hclose Hfuel.
  - destruct fuel as [|fuel]; [lia|].
    cbn [for_not]. rewrite bind_unfold. unfold window.ShouldClose at 1.
    rewrite Nat.add_0_r in Hclose. rewrite Hclose. reflexivity.
  - destruct fuel as [|fuel]; [lia|].
    cbn [for_not]. rewrite bind_unfold. unfold window.ShouldClose at 1.
    rewrite <- (Nat.add_0_r (polls w)), Hopen by lia.
    rewrite bind_unfold, body_run. cbn [passes].
    apply IH; [| |lia].
    + intros i Hi. cbn [polls after_body emit].
      replace (S (polls w) + i)%nat with (polls w + S i)%nat by lia.
      apply Hopen. lia.
    + cbn [polls after_body emit].
      replace (S (polls w) + n)%nat with (polls w + S n)%nat by lia.
      exact Hclose.
Qed.

End Loop.

(** The calls up to the creation of the window. *)
Definition window_calls : list Call :=
  [glfw_Init;
   glfw_WindowHint glfw.ContextVersionMajor 3;
   glfw_WindowHint glfw.ContextVersionMinor 3;
   glfw_WindowHint glfw.OpenGLProfile glfw.OpenGLCoreProfile;
   glfw_WindowHint glfw.OpenGLForwardCompatible glfw.True;
   glfw_CreateWindow 640 480 "GOPenGL"].

Lemma swap_run (w : World) :
  (window.SwapBuffers tt;; glfw.PollEvents) w =
  Ok tt (after_body [SwapBuffers; PollEvents] w).
Proof.
  unfold window.SwapBuffers, glfw.PollEvents, effect. io_run.
  f_equal. unfold after_body. world_eq.
Qed.

Lemma clear_run (w : World) :
  (gl.Clear gl.COLOR_BUFFER_BIT;; window.SwapBuffers tt;; glfw.PollEvents) w =
  Ok tt (after_body [Clear gl.COLOR_BUFFER_BIT; SwapBuffers; PollEvents] w).
Proof.
  unfold gl.Clear, window.SwapBuffers, glfw.PollEvents, effect. io_run.
  f_equal. unfold after_body. world_eq.
Qed.

(** The calls of the first program. *)
Definition window_only (c : Call) : bool :=
  match c with
  | glfw_Init | glfw_Terminate | glfw_WindowHint _ _ | glfw_CreateWindow _ _ _
  | MakeContextCurrent | gl_Init | ShouldClose _ | SwapBuffers | PollEvents =>
      true
  | _ => false
  end.

(** X15.  The first program, [main.go].  When the libraries initialise and
    the window closes at its [n]-th query, it returns without a panic and
    its trace is the opening calls, [n] times the close query, the buffer
    swap and the event poll, then the close query answered [true] and
    [glfw.Terminate].  And whatever the environment and however the run
    ends, it calls nothing but GLFW, the window and [gl.Init]: it reads no
    file and draws nothing. *)
Theorem first_window_swaps_until_closed (env : Env) (fuel : nat) :
  Forall (fun c => window_only c = true)
         (trace (world_of (FirstWindow.main env fuel init_world))) /\
  forall n,
    starts env -> closes_after env n -> (n < fuel)%nat ->
    exists w,
      FirstWindow.main env fuel init_world = Ok tt w /\
      trace w =
        opening_calls ++
        concat (repeat [ShouldClose false; SwapBuffers; PollEvents] n) ++
        [ShouldClose true; glfw_Terminate].
Proof.
  split.
  - assert (H : makes window_only (FirstWindow.main env fuel)).
    { unfold FirstWindow.main, panic_on.
      apply makes_bind; [makes_run|]. intros err.
      apply makes_bind; [makes_run|]. intros _.
      apply makes_defer; [reflexivity|].
      repeat (apply makes_bind; [makes_run|]; intros).
      repeat match goal with
             | |- makes _ (let '(_, _) := ?x in _) => destruct x
             end.
      repeat (apply makes_bind; [makes_run|]; intros).
      apply makes_for_not; makes_run. }
    destruct (H init_world) as (calls & E & F).
    rewrite E. cbn [trace init_world app].
    apply Forall_forall. intros c Hc. apply list_elem_of_In in Hc.
    rewrite forallb_forall in F. now apply F.
  - intros n (Hi & Hc & Hg) [Hopen Hclose] Hfuel.
    unfold FirstWindow.main, glfw.Init. rewrite Hi. io_run.
    unfold defer.
    unfold glfw.WindowHint, glfw.CreateWindow, window.MakeContextCurrent,
      gl.Init, effect.
    rewrite Hc, Hg. io_run.
    rewrite (loop_closed env _ [SwapBuffers; PollEvents] swap_run n);
      [| |exact Hclose|exact Hfuel].
    + eexists. split; [reflexivity|].
      unfold glfw.Terminate. cbn [trace emit]. rewrite passes_trace.
      cbn [trace emit]. unfold opening_calls. cbn [trace init_world app].
      rewrite <- !app_assoc. reflexivity.
    + intros i Hlt. apply Hopen, Hlt.
Qed.

Lemma first_window_swaps_until_closed_witness :
  starts Demo.good /\ closes_after Demo.good 2 /\ (2 < 5)%nat /\
  exists w,
    FirstWindow.main Demo.good 5 init_world = Ok tt w /\
    trace w =
      opening_calls ++
      [ShouldClose false; SwapBuffers; PollEvents;
       ShouldClose false; SwapBuffers; PollEvents;
       ShouldClose true; glfw_Terminate].
Proof.
  split; [repeat split|]. split; [exact Demo.good_closes|]. split; [lia|].
  apply (proj2 (first_window_swaps_until_closed Demo.good 5) 2%nat);
    [repeat split | exact Demo.good_closes | lia].
Defined.

(** The calls of the second program: those of the first, the building of
    the shader program, and the clearing of the colour buffer. *)
Definition clears_only (c : Call) : bool :=
  match c with
  | ReadFile f => String.eqb f "vertex.glsl" || String.eqb f "fragment.glsl"
  | CreateShader _ _ | ShaderSource _ _ | CompileShader _ | GetShaderiv _ _ _
  | GetShaderInfoLog _ _ | CreateProgram _ | AttachShader _ _ | LinkProgram _
  | GetProgramiv _ _ _ | GetProgramInfoLog _ _ | DeleteShader _
  | UseProgram _ => true
  | Clear mask => mask =? gl.COLOR_BUFFER_BIT
  | _ => window_only c
  end.

(** X16.  The second program, which builds the shader program and clears
    the window.  When the libraries initialise, the shaders compile and
    link and the window closes at its [n]-th query, it returns without a
    panic; its trace is that of the opening and of [newProgram], the use of
    the program, [n] times the close query, a clear of the colour buffer
    alone, the buffer swap and the event poll, then the closing calls.
    Whatever the environment, it never draws, uploads no buffer or texture,
    sets no uniform, and clears nothing but the colour buffer. *)
Theorem cleared_window_clears_until_closed (env : Env) (fuel : nat) :
  Forall (fun c => clears_only c = true)
         (trace (world_of (ClearedWindow.main env fuel init_world))) /\
  forall vsrc fsrc n,
    starts env ->
    compiles env "vertex.glsl" "fragment.glsl" vsrc fsrc ->
    link_status env (linked_sources vsrc fsrc) = true ->
    closes_after env n -> (n < fuel)%nat ->
    exists w,
      ClearedWindow.main env fuel init_world = Ok tt w /\
      trace w =
        trace (after_link env "vertex.glsl" "fragment.glsl" vsrc fsrc opened) ++
        [UseProgram 3] ++
        concat (repeat [ShouldClose false; Clear gl.COLOR_BUFFER_BIT;
                        SwapBuffers; PollEvents] n) ++
        [ShouldClose true; glfw_Terminate].
Proof.
  split.
  - assert (H : makes clears_only (ClearedWindow.main env fuel)).
    { unfold ClearedWindow.main, newProgram, compileShader, panic_on,
        strings.Repeat.
      apply makes_bind; [makes_run|]. intros err.
      apply makes_bind; [makes_run|]. intros _.
      apply makes_defer; [reflexivity|].
      repeat (apply makes_bind; [makes_run|]; intros).
      repeat match goal with
             | |- makes _ (let '(_, _) := ?x in _) => destruct x
             end.
      repeat (apply makes_bind; [makes_run|]; intros).
      repeat match goal with
             | |- makes _ (let '(_, _) := ?x in _) => destruct x
             end.
      repeat (apply makes_bind; [makes_run|]; intros).
      apply makes_for_not; makes_run. }
    destruct (H init_world) as (calls & E & F).
    rewrite E. cbn [trace init_world app].
    apply Forall_forall. intros c Hc. apply list_elem_of_In in Hc.
    rewrite forallb_forall in F. now apply F.
  - intros vsrc fsrc n (Hi & Hc & Hg) Hcomp Hl [Hopen Hclose] Hfuel.
    unfold ClearedWindow.main, glfw.Init. rewrite Hi. io_run.
    unfold defer.
    unfold glfw.WindowHint, glfw.CreateWindow, window.MakeContextCurrent,
      gl.Init, effect.
    rewrite Hc, Hg. io_run.
    match goal with
    | |- context [newProgram env _ _ ?W] =>
        replace W with opened by (unfold opened, opening_calls; world_eq)
    end.
    rewrite (newProgram_compiled env _ _ _ _ _ Hcomp) by congruence.
    rewrite Hl. change (fresh opened + 2) with 3.
    unfold gl.UseProgram, effect. io_run.
    rewrite (loop_closed env _ [Clear gl.COLOR_BUFFER_BIT; SwapBuffers;
                                PollEvents] clear_run n);
      [| |exact Hclose|exact Hfuel].
    + eexists. split; [reflexivity|].
      unfold glfw.Terminate. cbn [trace emit]. rewrite passes_trace.
      cbn [trace emit]. rewrite <- !app_assoc. reflexivity.
    + intros i Hlt. apply Hopen, Hlt.
Qed.

Lemma cleared_window_clears_until_closed_witness :
  starts Demo.good /\
  compiles Demo.good "vertex.glsl" "fragment.glsl"
    Demo.vertex_source Demo.fragment_source /\
  closes_after Demo.good 2 /\ (2 < 5)%nat /\
  exists w,
    ClearedWindow.main Demo.good 5 init_world = Ok tt w /\
    List.filter in_loop (trace w) =
      [ShouldClose false; Clear gl.COLOR_BUFFER_BIT; SwapBuffers; PollEvents;
       ShouldClose false; Clear gl.COLOR_BUFFER_BIT; SwapBuffers; PollEvents;
       ShouldClose true].
Proof.
  split; [repeat split|]. split; [repeat split|].
  split; [exact Demo.good_closes|]. split; [lia|].
  destruct (proj2 (cleared_window_clears_until_closed Demo.good 5)
              Demo.vertex_source Demo.fragment_source 2%nat)
    as (w & Hr & Ht);
    [repeat split | repeat split | reflexivity | exact Demo.good_closes | lia |].
  exists w. split; [exact Hr|]. rewrite Ht. vm_compute. reflexivity.
Defined.

(** ** A library that does not initialise *)

(** X17.  The three programs open in the same way and fail in the same
    way.  When [glfw.Init] fails, each panics with its error having made no
    other call: [glfw.Terminate] is deferred only after the check, so it is
    not called.  When [glfw.CreateWindow] fails, each panics with its error
    after the four window hints, the context is not made current, and
    [glfw.Terminate] is the last call.  When [gl.Init] fails, each panics
    with its error right after it, and [glfw.Terminate] is the last call;
    no shader file has been read. *)
Theorem opening_failures_are_fatal (env : Env) (fuel : nat) :
  Forall
    (fun program : Env -> nat -> IO unit =>
       match glfw_init_err env, create_window_err env, gl_init_err env with
       | Some e, _, _ =>
           program env fuel init_world =
           Panic (PanicError e) (emit glfw_Init init_world)
       | None, Some e, _ =>
           exists w,
             program env fuel init_world = Panic (PanicError e) w /\
             trace w = window_calls ++ [glfw_Terminate]
       | None, None, Some e =>
           exists w,
             program env fuel init_world = Panic (PanicError e) w /\
             trace w = opening_calls ++ [glfw_Terminate]
       | None, None, None => True
       end)
    [main; FirstWindow.main; ClearedWindow.main].
Proof.
  destruct (glfw_init_err env) as [e|] eqn:Hi.
  { repeat constructor;
      unfold main, FirstWindow.main, ClearedWindow.main, glfw.Init;
      rewrite Hi; io_run; reflexivity. }
  destruct (create_window_err env) as [e|] eqn:Hc.
  { repeat constructor;
      unfold main, FirstWindow.main, ClearedWindow.main, startup, glfw.Init;
      rewrite Hi; io_run; unfold defer;
      unfold glfw.WindowHint, glfw.CreateWindow, effect;
      rewrite Hc; io_run; eexists; (split; [reflexivity|]);
      unfold glfw.Terminate; cbn [trace emit init_world app]; reflexivity. }
  destruct (gl_init_err env) as [e|] eqn:Hg; [|repeat constructor].
  repeat constructor;
    unfold main, FirstWindow.main, ClearedWindow.main, startup, glfw.Init;
    rewrite Hi; io_run; unfold defer;
    unfold glfw.WindowHint, glfw.CreateWindow, window.MakeContextCurrent,
      gl.Init, effect;
    rewrite Hc, Hg; io_run; eexists; (split; [reflexivity|]);
    unfold glfw.Terminate; cbn [trace emit init_world app]; reflexivity.
Qed.

Module NoWindow.

(** GLFW initialises and cannot create the window. *)
Definition headless : Env :=
  with_opening Demo.good None (Some "glfw: no display") None.

End NoWindow.

Lemma opening_failures_are_fatal_witness :
  exists w,
    main NoWindow.headless 5 init_world
      = Panic (PanicError "glfw: no display") w /\
    trace w = window_calls ++ [glfw_Terminate].
Proof.
  pose proof (opening_failures_are_fatal NoWindow.headless 5) as H.
  apply Forall_cons_1 in H. exact (proj1 H).
Defined.

(** ** A picture that does not decode *)

(** A panic of [newTexture] is one of [main], after the deferred
    [glfw.Terminate]. *)
Lemma main_newTexture_panic (env : Env) (fuel : nat) (vsrc fsrc : string)
    (v : PanicValue) (w' : World) :
  starts env ->
  compiles env "vertex.glsl" "fragment.glsl" vsrc fsrc ->
  link_status env (linked_sources vsrc fsrc) = true ->
  newTexture env "kitten.png" gl.TEXTURE0
    (after_attributes env 3
       (after_upload 3
          (after_link env "vertex.glsl" "fragment.glsl" vsrc fsrc opened)))
  = Panic v w' ->
  main env fuel init_world = Panic v (glfw.Terminate w').
Proof.
  intros (Hi & Hc & Hg) Hcomp Hl Htex.
  unfold main, glfw.Init. rewrite Hi. io_run.
  unfold defer, startup.
  unfold glfw.WindowHint, glfw.CreateWindow, window.MakeContextCurrent,
    gl.Init, effect.
  rewrite Hc, Hg. io_run.
  match goal with
  | |- context [newProgram env _ _ ?W] =>
      replace W with opened by (unfold opened, opening_calls; world_eq)
  end.
  rewrite (newProgram_compiled env _ _ _ _ _ Hcomp) by congruence.
  rewrite Hl. change (fresh opened + 2) with 3.
  set (W1 := after_link env "vertex.glsl" "fragment.glsl" vsrc fsrc opened) in *.
  unfold gl.UseProgram, gl.GenVertexArrays, gl.BindVertexArray, gl.GenBuffers,
    gl.BindBuffer, gl.BufferData, effect.
  io_run.
  match goal with
  | |- context [attributes env 3 ?W] =>
      replace W with (after_upload 3 W1)
        by (unfold after_upload, upload_calls; world_eq)
  end.
  rewrite attributes_run. io_run.
  rewrite Htex. io_run. reflexivity.
Qed.

(** X18.  A picture that opens and does not decode stops [main] with a
    run-time panic, not with the error of the decoder: once the program is
    built, [main] panics on the nil image inside [newTexture]; the decoding
    is its last call before the deferred [glfw.Terminate], so no texture
    was generated and no uniform was looked up. *)
Theorem undecodable_picture_panics (env : Env) (vsrc fsrc : string)
    (e : error) (fuel : nat) :
  starts env ->
  compiles env "vertex.glsl" "fragment.glsl" vsrc fsrc ->
  link_status env (linked_sources vsrc fsrc) = true ->
  open_err env "kitten.png" = None ->
  decode env "kitten.png" = inr e ->
  exists w calls,
    main env fuel init_world = Panic NilDereference w /\
    trace w =
      calls ++
      [os_Open "kitten.png"; image_Decode "kitten.png"; glfw_Terminate].
Proof.
  intros Hs Hcomp Hl Ho Hd.
  set (W := after_attributes env 3
              (after_upload 3
                 (after_link env "vertex.glsl" "fragment.glsl" vsrc fsrc
                    opened))).
  pose proof (newTexture_undecoded env "kitten.png" gl.TEXTURE0 e W Ho Hd)
    as Ht.
  eexists _, (trace W). split.
  - exact (main_newTexture_panic env fuel vsrc fsrc _ _ Hs Hcomp Hl Ht).
  - unfold glfw.Terminate. cbn [trace emit].
    now rewrite <- !app_assoc.
Qed.

Lemma undecodable_picture_panics_witness :
  let env := TextureFailure.undecodable in
  open_err env "kitten.png" = None /\
  decode env "kitten.png" = inr "image: unknown format" /\
  exists w calls,
    main env 5 init_world = Panic NilDereference w /\
    trace w =
      calls ++
      [os_Open "kitten.png"; image_Decode "kitten.png"; glfw_Terminate].
Proof.
  cbv zeta. split; [reflexivity|]. split; [reflexivity|].
  apply (undecodable_picture_panics TextureFailure.undecodable
           Demo.vertex_source Demo.fragment_source "image: unknown format" 5);
    [repeat split | repeat split | reflexivity | reflexivity | reflexivity].
Defined.

(** ** The rotation the program holds *)

(** X19.  The model matrix follows the clock.  After a good start, when
    [model] is a uniform of the program and the window closes after at
    least one frame, the matrix stored for [model] when [main] returns is
    the rotation of the last frame: the rotation about Z by the time from
    the first reading of the clock, before the loop, to its last. *)
Theorem model_uniform_holds_last_rotation (env : Env) (vsrc fsrc : string)
    (img : Image) (n fuel : nat) :
  good_start env vsrc fsrc img ->
  uniform_location env "model" <> -1 ->
  closes_after env (S n) -> (S n < fuel)%nat ->
  exists w,
    main env fuel init_world = Ok tt w /\
    uniforms w !! uniform_location env "model" =
      Some (HomogRotate3DZ
              (Float.to_float32
                 (Float.sub64 (clock env (S n)) (clock env 0)))).
Proof.
  intros Hgood Hm Hclose Hfuel. eexists.
  split; [apply (main_good_closed env _ _ _ _ _ Hgood Hclose Hfuel)|].
  unfold glfw.Terminate. cbn [uniforms emit].
  rewrite iterations_S. unfold iteration at 1.
  cbn [uniforms after_frame time_reads emit].
  rewrite iterations_time_reads.
  destruct (started_counters env vsrc fsrc img) as [_ ->].
  unfold uniModel. rewrite write_uniform_same by exact Hm.
  reflexivity.
Qed.

Lemma model_uniform_holds_last_rotation_witness :
  good_start Demo.good Demo.vertex_source Demo.fragment_source Demo.picture /\
  uniform_location Demo.good "model" <> -1 /\
  closes_after Demo.good 2 /\ (2 < 5)%nat /\
  exists w,
    main Demo.good 5 init_world = Ok tt w /\
    uniforms w !! 0 =
      Some (HomogRotate3DZ
              (Float.to_float32
                 (Float.sub64 (Demo.half_seconds 2) (Demo.half_seconds 0)))).
Proof.
  split; [exact Demo.good_starts|]. split; [discriminate|].
  split; [exact Demo.good_closes|]. split; [lia|].
  apply (model_uniform_holds_last_rotation Demo.good Demo.vertex_source
           Demo.fragment_source Demo.picture 1 5 Demo.good_starts);
    [discriminate | exact Demo.good_closes | lia].
Defined.
